(** * BBB flagship button driver: debounce engine and single-slot event mailbox

    Shallow embedding of [drivers/button/bbb_flagship_button.c] and
    [drivers/button/bbb_flagship_button_chardev.c].

    The driver state [struct bbb_btn] is a record; the kernel services the
    driver calls (atomic64 counters, the delayed work item, the wait queue,
    the C string routines on fixed arrays, the monotonic clock) are modelled
    by their documented behaviour in the first part of the file.  Memory
    accesses to the fixed arrays are bounds checked: a routine returns [None]
    when it would touch a byte outside its array. *)

From Stdlib Require Import ZArith Strings.Byte String DecimalString List Lia.
From Stdlib Require DecimalPos DecimalZ DecimalFacts.
From stdpp Require Import base list.
Import ListNotations.

Set Default Proof Using "Type".

(* ===================================================================== *)
(** ** Kernel primitives *)
(* ===================================================================== *)

(** *** atomic64_t: a signed 64-bit counter with two's complement wrap *)

Definition INT64_MAX : Z := 9223372036854775807%Z.
Definition INT64_MIN : Z := (-9223372036854775808)%Z.

Definition wrap64 (x : Z) : Z :=
  ((x + 9223372036854775808) mod 18446744073709551616 - 9223372036854775808)%Z.

Definition atomic64_inc (v : Z) : Z := wrap64 (v + 1).
Definition atomic64_set (i : Z) : Z := wrap64 i.
Definition atomic64_read (v : Z) : Z := v.

(** *** errno values *)

Definition EAGAIN : Z := 11%Z.
Definition EFAULT : Z := 14%Z.
Definition ERESTARTSYS : Z := 512%Z.

(** *** C strings in fixed arrays *)

Definition is_nul (c : byte) : bool := Byte.eqb c x00.

(** The C string a [const char *] points to: the bytes before the first
    NUL.  A list without a NUL stands for memory whose terminator follows
    the last listed byte. *)
Fixpoint cstring (s : list byte) : list byte :=
  match s with
  | [] => []
  | c :: s' => if is_nul c then [] else c :: cstring s'
  end.

(** [strlen] on an array: the index of the first NUL, or [None] when the
    scan leaves the array. *)
Fixpoint strlen (buf : list byte) : option nat :=
  match buf with
  | [] => None
  | c :: buf' => if is_nul c then Some 0 else S <$> strlen buf'
  end.

(** [buf[i] = v] *)
Definition store (buf : list byte) (i : nat) (v : byte) : option (list byte) :=
  if decide (i < length buf) then Some (<[i:=v]> buf) else None.

(** [strncpy(dst, src, n)]: writes exactly [n] bytes to [dst], the string
    [src] cut to [n] bytes and padded with NULs. *)
Definition strncpy (dst src : list byte) (n : nat) : option (list byte) :=
  if decide (n <= length dst)
  then Some (take n (cstring src ++ replicate n x00) ++ drop n dst)
  else None.

(** [memcpy(dst, src, n)] *)
Definition memcpy (dst src : list byte) (n : nat) : option (list byte) :=
  if decide (n <= length dst /\ n <= length src)
  then Some (take n src ++ drop n dst)
  else None.

(** [snprintf(buf, size, ...)]: the formatted text cut to [size - 1] bytes
    (the terminator takes the last one). *)
Definition snprintf (size : nat) (text : list byte) : list byte :=
  take (size - 1) text.

(** ["%lld"] *)
Definition fmt_lld (v : Z) : list byte :=
  list_byte_of_string (NilZero.string_of_int (Z.to_int v)).

(** [copy_to_user(to, from, n)]: [room] is the number of writable bytes at
    the user pointer; returns the number of bytes that could not be copied
    and the bytes that reached user memory. *)
Definition copy_to_user (room : N) (from : list byte) (n : nat) : nat * list byte :=
  let ok := Nat.min n (N.to_nat room) in
  (n - ok, take ok from).

(** *** Delayed work

    [dw_timers] holds the expiry (in jiffies) of every armed timer of the
    work item, [dw_running] tells whether its callback is executing. *)

Record delayed_work := mk_delayed_work {
  dw_timers : list Z;
  dw_running : bool
}.

(** Removes the pending timer; does not wait for a running callback. *)
Definition cancel_delayed_work (dw : delayed_work) : delayed_work :=
  {| dw_timers := []; dw_running := dw_running dw |}.

(** Queues the work after [delay] jiffies unless it is already pending. *)
Definition schedule_delayed_work (now : Z) (dw : delayed_work) (delay : Z) : delayed_work :=
  match dw_timers dw with
  | [] => {| dw_timers := [(now + delay)%Z]; dw_running := dw_running dw |}
  | _ :: _ => dw
  end.

(** Cancels and waits for a running callback: [None] while it runs. *)
Definition cancel_delayed_work_sync (dw : delayed_work) : option delayed_work :=
  if dw_running dw then None else Some (cancel_delayed_work dw).

(** *** Wait queue

    [wait_event_interruptible(wq, condition)] evaluates the condition each
    time the waiter runs: it returns 0 when the condition holds, -ERESTARTSYS
    when it does not and a signal is pending, and sleeps otherwise. *)

Inductive wait_outcome := WaitReady | WaitInterrupted | WaitSleep.

Definition wait_event_interruptible (condition signal_pending : bool) : wait_outcome :=
  if condition then WaitReady
  else if signal_pending then WaitInterrupted
  else WaitSleep.

(* ===================================================================== *)
(** ** Driver state: [struct bbb_btn] (bbb_flagship_button_chardev.h) *)
(* ===================================================================== *)

(** [sizeof(btn->chardev.buffer)] and [sizeof(local_buf)] *)
Definition BUF_SIZE : nat := 256.

Definition KEY_ENTER : Z := 28%Z.

(** The anonymous [chardev] member: the event buffer and its flag.  The
    wait queue's sleepers are the readers of the [world] below. *)
Record chardev_t := mk_chardev {
  buffer : list byte;
  has_event : bool
}.

Record bbb_btn := mk_bbb_btn {
  press_count : Z;
  last_event_ns : Z;
  total_irqs : Z;
  work_executions : Z;
  debounce_ms : Z;
  last_irq_time : Z;
  debounce_work : delayed_work;
  last_state : Z;
  work_pending : bool;
  chardev : chardev_t
}.

(** A consumer inside [bbb_btn_chardev_read]: where it stands. *)
Inductive reader_pc :=
| RIdle
| RSleeping
| RWoken
| RLocking
| RDelivering (len : nat) (local_buf : list byte)
| RReturned (ret : Z) (data : list byte).

Record reader := mk_reader {
  r_count : N;
  r_room : N;
  r_pc : reader_pc
}.

(** Calls into collaborators, oldest first. *)
Inductive call :=
| CallInputReportKey (code value : Z)
| CallInputSync
| CallWakeUp.

(** The driver instance with what surrounds it: the monotonic clock (last
    value read, ns), jiffies, the calls made so far, the consumers that
    hold the device open, and whether the driver is still bound. *)
Record world := mk_world {
  btn : bbb_btn;
  ktime : Z;
  jiffies : Z;
  calls : list call;
  readers : list reader;
  bound : bool
}.

Definition set_press_count (v : Z) (b : bbb_btn) : bbb_btn :=
  mk_bbb_btn v (last_event_ns b) (total_irqs b) (work_executions b) (debounce_ms b)
    (last_irq_time b) (debounce_work b) (last_state b) (work_pending b) (chardev b).

Definition set_last_event_ns (v : Z) (b : bbb_btn) : bbb_btn :=
  mk_bbb_btn (press_count b) v (total_irqs b) (work_executions b) (debounce_ms b)
    (last_irq_time b) (debounce_work b) (last_state b) (work_pending b) (chardev b).

Definition set_total_irqs (v : Z) (b : bbb_btn) : bbb_btn :=
  mk_bbb_btn (press_count b) (last_event_ns b) v (work_executions b) (debounce_ms b)
    (last_irq_time b) (debounce_work b) (last_state b) (work_pending b) (chardev b).

Definition set_work_executions (v : Z) (b : bbb_btn) : bbb_btn :=
  mk_bbb_btn (press_count b) (last_event_ns b) (total_irqs b) v (debounce_ms b)
    (last_irq_time b) (debounce_work b) (last_state b) (work_pending b) (chardev b).

Definition set_debounce_work (v : delayed_work) (b : bbb_btn) : bbb_btn :=
  mk_bbb_btn (press_count b) (last_event_ns b) (total_irqs b) (work_executions b) (debounce_ms b)
    (last_irq_time b) v (last_state b) (work_pending b) (chardev b).

Definition set_last_state (v : Z) (b : bbb_btn) : bbb_btn :=
  mk_bbb_btn (press_count b) (last_event_ns b) (total_irqs b) (work_executions b) (debounce_ms b)
    (last_irq_time b) (debounce_work b) v (work_pending b) (chardev b).

Definition set_work_pending (v : bool) (b : bbb_btn) : bbb_btn :=
  mk_bbb_btn (press_count b) (last_event_ns b) (total_irqs b) (work_executions b) (debounce_ms b)
    (last_irq_time b) (debounce_work b) (last_state b) v (chardev b).

Definition set_chardev (v : chardev_t) (b : bbb_btn) : bbb_btn :=
  mk_bbb_btn (press_count b) (last_event_ns b) (total_irqs b) (work_executions b) (debounce_ms b)
    (last_irq_time b) (debounce_work b) (last_state b) (work_pending b) v.

Definition upd_btn (f : bbb_btn -> bbb_btn) (w : world) : world :=
  mk_world (f (btn w)) (ktime w) (jiffies w) (calls w) (readers w) (bound w).

Definition set_ktime (v : Z) (w : world) : world :=
  mk_world (btn w) v (jiffies w) (calls w) (readers w) (bound w).

Definition set_jiffies (v : Z) (w : world) : world :=
  mk_world (btn w) (ktime w) v (calls w) (readers w) (bound w).

Definition add_call (c : call) (w : world) : world :=
  mk_world (btn w) (ktime w) (jiffies w) (calls w ++ [c]) (readers w) (bound w).

Definition set_readers (v : list reader) (w : world) : world :=
  mk_world (btn w) (ktime w) (jiffies w) (calls w) v (bound w).

Definition set_bound (v : bool) (w : world) : world :=
  mk_world (btn w) (ktime w) (jiffies w) (calls w) (readers w) v.

Definition set_pc (pc : reader_pc) (r : reader) : reader :=
  mk_reader (r_count r) (r_room r) pc.

(** [ktime_get_ns()]: the monotonic clock, [dt] ns after its last reading. *)
Definition ktime_get_ns (dt : N) (w : world) : Z * world :=
  let t := (ktime w + Z.of_N dt)%Z in (t, set_ktime t w).

(** [wake_up_interruptible(&btn->chardev.wait)]: every sleeper becomes
    runnable and will evaluate its wait condition again. *)
Definition wake (r : reader) : reader :=
  match r_pc r with
  | RSleeping => set_pc RWoken r
  | _ => r
  end.

Definition wake_up_interruptible (w : world) : world :=
  add_call CallWakeUp (set_readers (wake <$> readers w) w).

(** C's [!v] *)
Definition lnot (v : Z) : Z := if (v =? 0)%Z then 1%Z else 0%Z.

(* ===================================================================== *)
(** ** bbb_flagship_button_chardev.c *)
(* ===================================================================== *)

(** [bbb_chardev_push_event]: under [chardev.lock], copy at most
    [sizeof(buffer) - 1] bytes, terminate, raise the flag; then wake. *)
Definition bbb_chardev_push_event (msg : list byte) (w : world) : option world :=
  buf ← strncpy (buffer (chardev (btn w))) msg (BUF_SIZE - 1);
  buf ← store buf (BUF_SIZE - 1) x00;
  Some (wake_up_interruptible
          (upd_btn (set_chardev {| buffer := buf; has_event := true |}) w)).

(** The wait of [bbb_btn_chardev_read] (lines 86-88), evaluated once. *)
Definition read_wait (condition signal_pending : bool) : reader_pc :=
  match wait_event_interruptible condition signal_pending with
  | WaitReady => RLocking
  | WaitInterrupted => RReturned (- ERESTARTSYS)%Z []
  | WaitSleep => RSleeping
  end.

(** The section under [chardev.lock] (lines 91-105).  [local_buf] is
    uninitialised in the source; only the bytes written here are read back,
    so it starts as zeros. *)
Definition read_take (cd : chardev_t) : option (chardev_t * reader_pc) :=
  if has_event cd then
    len ← strlen (buffer cd);
    let len := if decide (BUF_SIZE <= len) then BUF_SIZE - 1 else len in
    local_buf ← memcpy (replicate BUF_SIZE x00) (buffer cd) len;
    local_buf ← store local_buf len x00;
    Some ({| buffer := buffer cd; has_event := false |}, RDelivering len local_buf)
  else Some (cd, RReturned (- EAGAIN)%Z []).

(** After the lock is released (lines 108-117).  When [copy_to_user] stops
    short the call returns -EFAULT, and the bytes copied before the fault
    are in the user buffer all the same. *)
Definition read_deliver (count room : N) (len : nat) (local_buf : list byte) : reader_pc :=
  let len := if (count <? N.of_nat len)%N then N.to_nat count else len in
  match copy_to_user room local_buf len with
  | (0, data) => RReturned (Z.of_nat len) data
  | (S _, data) => RReturned (- EFAULT)%Z data
  end.

(** [bbb_btn_chardev_read] run without interleaving: the result is
    [RSleeping] when the caller blocks and [RReturned ret data] when it
    returns [ret] with [data] in the user buffer. *)
Definition bbb_btn_chardev_read (count room : N) (signal_pending : bool) (w : world)
  : option (reader_pc * world) :=
  match read_wait (has_event (chardev (btn w))) signal_pending with
  | RLocking =>
      '(cd, pc) ← read_take (chardev (btn w));
      let w := upd_btn (set_chardev cd) w in
      match pc with
      | RDelivering len local_buf => Some (read_deliver count room len local_buf, w)
      | _ => Some (pc, w)
      end
  | pc => Some (pc, w)
  end.

(** [bbb_chardev_register], success path: flag cleared. *)
Definition bbb_chardev_register (w : world) : world :=
  upd_btn (fun b => set_chardev {| buffer := buffer (chardev b); has_event := false |} b) w.

(** [bbb_chardev_unregister]: wake the sleepers, then drop the device node,
    class, cdev and device number. *)
Definition bbb_chardev_unregister (w : world) : world :=
  wake_up_interruptible w.

(* ===================================================================== *)
(** ** bbb_flagship_button.c *)
(* ===================================================================== *)

(** The text of ["button %s: count=%lld time=%lld\n"]. *)
Definition event_text (state count t : Z) : list byte :=
  list_byte_of_string "button "
  ++ list_byte_of_string (if (state =? 0)%Z then "pressed" else "released")
  ++ list_byte_of_string ": count=" ++ fmt_lld count
  ++ list_byte_of_string " time=" ++ fmt_lld t ++ [x0a].

(** [bbb_btn_debounce_work]: [level] is what [gpiod_get_value_cansleep]
    returns, [dt1], [dt2], [dt3] the time before each clock reading (the
    trace line, the event time stamp, the message).  The trace and debug
    lines themselves leave no state behind. *)
Definition bbb_btn_debounce_work (level : Z) (dt1 dt2 dt3 : N) (w : world) : option world :=
  let state := level in
  let w := upd_btn (fun b => set_work_executions (atomic64_inc (work_executions b)) b) w in
  let '(_, w) := ktime_get_ns dt1 w in
  let w :=
    if (state =? last_state (btn w))%Z then w
    else
      let w := upd_btn (set_last_state state) w in
      let w := upd_btn (fun b => set_press_count (atomic64_inc (press_count b)) b) w in
      let '(t, w) := ktime_get_ns dt2 w in
      let w := upd_btn (set_last_event_ns (atomic64_set t)) w in
      let w := upd_btn (fun b => set_work_executions (atomic64_inc (work_executions b)) b) w in
      let w := add_call (CallInputReportKey KEY_ENTER (lnot state)) w in
      add_call CallInputSync w in
  let w := upd_btn (set_work_pending false) w in
  let '(t, w) := ktime_get_ns dt3 w in
  let msg := snprintf 256 (event_text state (atomic64_read (press_count (btn w))) (wrap64 t)) in
  bbb_chardev_push_event msg w.

(** [bbb_btn_probe], success path: [debounce_prop] is the optional
    "debounce-ms" property, [level] the line level read at binding time,
    [t0] and [j0] the clocks, [nreaders] the consumers that will open the
    device. *)
Definition bbb_btn_probe (debounce_prop : option Z) (level : Z) (t0 : N) (j0 : Z)
  (nreaders : nat) : world :=
  bbb_chardev_register
    {| btn := {| press_count := atomic64_set 0;
                 last_event_ns := atomic64_set 0;
                 total_irqs := atomic64_set 0;
                 work_executions := atomic64_set 0;
                 debounce_ms := default 20%Z debounce_prop;
                 last_irq_time := 0%Z;
                 debounce_work := {| dw_timers := []; dw_running := false |};
                 last_state := level;
                 work_pending := false;
                 chardev := {| buffer := replicate BUF_SIZE x00; has_event := false |} |};
       ktime := Z.of_N t0;
       jiffies := j0;
       calls := [];
       readers := replicate nreaders (mk_reader 0 0 RIdle);
       bound := true |}.

(** [bbb_btn_remove]: [None] while [cancel_delayed_work_sync] waits for a
    settle pass in flight. *)
Definition bbb_btn_remove (w : world) : option world :=
  dw ← cancel_delayed_work_sync (debounce_work (btn w));
  Some (bbb_chardev_unregister (upd_btn (set_debounce_work dw) w)).

Section Driver.

(** [msecs_to_jiffies] depends on the kernel's HZ. *)
Variable msecs_to_jiffies : Z -> Z.

(** [bbb_btn_irq]: [dt] is the time before the clock reading of the trace
    line. *)
Definition bbb_btn_irq (dt : N) (w : world) : world :=
  let w := upd_btn (fun b => set_total_irqs (atomic64_inc (total_irqs b)) b) w in
  let '(_, w) := ktime_get_ns dt w in
  let dw := cancel_delayed_work (debounce_work (btn w)) in
  let dw := schedule_delayed_work (jiffies w) dw (msecs_to_jiffies (debounce_ms (btn w))) in
  let w := upd_btn (set_debounce_work dw) w in
  upd_btn (set_work_pending true) w.

(* ===================================================================== *)
(** ** The contexts interleaved *)
(* ===================================================================== *)

(** The timer of the work item expires and a worker takes the item: the
    callback is now in flight.  One work item never runs twice at once. *)
Definition timer_fire (now : Z) (dw : delayed_work) : option delayed_work :=
  match dw_timers dw with
  | e :: rest =>
      if (e <=? now)%Z && negb (dw_running dw)
      then Some {| dw_timers := rest; dw_running := true |}
      else None
  | [] => None
  end.

(** The callback returned. *)
Definition work_done (dw : delayed_work) : delayed_work :=
  {| dw_timers := dw_timers dw; dw_running := false |}.

Inductive action :=
| ATick (dj : N)
| AIrq (dt : N)
| ATimer
| AWork (level : Z) (dt1 dt2 dt3 : N)
| ACall (i : nat) (count room : N) (signal_pending : bool)
| AResume (i : nat)
| ASignal (i : nat)
| ATake (i : nat)
| ADeliver (i : nat)
| ARemove.

Definition set_reader (i : nat) (r : reader) (w : world) : world :=
  set_readers (<[i:=r]> (readers w)) w.

(** One step of one context; [None] when the step cannot be taken in [w].
    A read is split where other contexts can run in between: at its wait,
    before it takes [chardev.lock], and before [copy_to_user].  An intake,
    a whole settle pass and a whole teardown are one step each: the runs of
    [step] are the schedules in which nothing comes between the statements
    of a pass or of [bbb_btn_remove].  [fine_step] below cuts these two
    where the source lets other contexts in; what depends on such an
    interleaving is stated there.  After [ARemove] the devm-managed
    interrupt is released with the binding, so intake and settle passes
    stop. *)
Definition step (a : action) (w : world) : option world :=
  match a with
  | ATick dj => Some (set_jiffies (jiffies w + Z.of_N dj)%Z w)
  | AIrq dt => if bound w then Some (bbb_btn_irq dt w) else None
  | ATimer =>
      if bound w then
        dw ← timer_fire (jiffies w) (debounce_work (btn w));
        Some (upd_btn (set_debounce_work dw) w)
      else None
  | AWork level dt1 dt2 dt3 =>
      if bound w && dw_running (debounce_work (btn w)) then
        w' ← bbb_btn_debounce_work level dt1 dt2 dt3 w;
        Some (upd_btn (fun b => set_debounce_work (work_done (debounce_work b)) b) w')
      else None
  | ACall i count room sig =>
      r ← readers w !! i;
      match r_pc r with
      | RIdle | RReturned _ _ =>
          Some (set_reader i (mk_reader count room
                                (read_wait (has_event (chardev (btn w))) sig)) w)
      | _ => None
      end
  | AResume i =>
      r ← readers w !! i;
      match r_pc r with
      | RWoken => Some (set_reader i (set_pc (read_wait (has_event (chardev (btn w))) false) r) w)
      | _ => None
      end
  | ASignal i =>
      r ← readers w !! i;
      match r_pc r with
      | RSleeping | RWoken =>
          Some (set_reader i (set_pc (read_wait (has_event (chardev (btn w))) true) r) w)
      | _ => None
      end
  | ATake i =>
      r ← readers w !! i;
      match r_pc r with
      | RLocking =>
          '(cd, pc) ← read_take (chardev (btn w));
          Some (set_reader i (set_pc pc r) (upd_btn (set_chardev cd) w))
      | _ => None
      end
  | ADeliver i =>
      r ← readers w !! i;
      match r_pc r with
      | RDelivering len local_buf =>
          Some (set_reader i (set_pc (read_deliver (r_count r) (r_room r) len local_buf) r) w)
      | _ => None
      end
  | ARemove =>
      if bound w then set_bound false <$> bbb_btn_remove w else None
  end.

Fixpoint run (tr : list action) (w : world) : option world :=
  match tr with
  | [] => Some w
  | a :: tr' => w' ← step a w; run tr' w'
  end.

(** The worlds a binding can be in. *)
Inductive reachable : world -> Prop :=
| reach_probe prop level t0 j0 n :
    reachable (bbb_btn_probe prop level t0 j0 n)
| reach_step a w w' :
    reachable w -> step a w = Some w' -> reachable w'.

(** Settle passes of a run, and those among them that saw a level other
    than the last accepted one. *)
Definition is_pass (a : action) : bool :=
  match a with AWork _ _ _ _ => true | _ => false end.

Definition is_change (a : action) (w : world) : bool :=
  match a with
  | AWork level _ _ _ => negb (level =? last_state (btn w))%Z
  | _ => false
  end.

Definition passes (tr : list action) : nat := length (filter (fun a => is_pass a = true) tr).

Fixpoint changes (tr : list action) (w : world) : nat :=
  match tr with
  | [] => 0
  | a :: tr' =>
      match step a w with
      | Some w' => (if is_change a w then 1 else 0) + changes tr' w'
      | None => 0
      end
  end.

End Driver.

(* ===================================================================== *)
(** ** Specification vocabulary *)
(* ===================================================================== *)

(** The mailbox buffer keeps its array size and its last byte is NUL. *)
Definition mailbox_wf (cd : chardev_t) : Prop :=
  length (buffer cd) = BUF_SIZE /\ buffer cd !! (BUF_SIZE - 1) = Some x00.

(** The message the mailbox holds, as the C string in its buffer. *)
Definition pending_message (w : world) : list byte :=
  cstring (buffer (chardev (btn w))).

Definition mailbox (w : world) : chardev_t := chardev (btn w).

(** The calls made to the input core. *)
Definition is_input_call (c : call) : bool :=
  match c with
  | CallInputReportKey _ _ | CallInputSync => true
  | CallWakeUp => false
  end.

Definition input_calls (w : world) : list call :=
  filter (fun c => is_input_call c = true) (calls w).

(** No counter of [w'] is below its value in [w]. *)
Definition counters_le (w w' : world) : Prop :=
  (press_count (btn w) <= press_count (btn w'))%Z
  /\ (last_event_ns (btn w) <= last_event_ns (btn w'))%Z
  /\ (total_irqs (btn w) <= total_irqs (btn w'))%Z
  /\ (work_executions (btn w) <= work_executions (btn w'))%Z.

(** The incremented counters have room for one more settle pass and one
    more intake before the signed 64-bit maximum. *)
Definition below_wrap (w : world) : Prop :=
  (press_count (btn w) < INT64_MAX)%Z
  /\ (total_irqs (btn w) < INT64_MAX)%Z
  /\ (work_executions (btn w) < INT64_MAX - 1)%Z.

(** The time stamp of the last event is a reading of the monotonic clock,
    not later than the latest one. *)
Definition clock_inv (w : world) : Prop :=
  (0 <= ktime w)%Z
  /\ exists t, (0 <= t <= ktime w)%Z /\ last_event_ns (btn w) = wrap64 t.

(** Armed timers of the settle pass. *)
Definition armed (w : world) : list Z := dw_timers (debounce_work (btn w)).

(** What holds of every world a binding can be in. *)
Definition driver_inv (w : world) : Prop :=
  mailbox_wf (mailbox w) /\ length (armed w) <= 1 /\ clock_inv w.

(** [msecs_to_jiffies] of a kernel built with HZ = 1000: one jiffy per
    millisecond. *)
Definition msecs_to_jiffies_hz1000 (m : Z) : Z := m.

(** A consumer that is inside the wait of its read. *)
Definition blocked (pc : reader_pc) : Prop := pc = RSleeping \/ pc = RWoken.

Ltac project_world :=
  cbn [wake_up_interruptible add_call set_readers set_reader set_bound set_jiffies set_ktime
       upd_btn set_chardev set_debounce_work set_work_pending set_total_irqs
       btn ktime jiffies calls readers bound mailbox
       press_count last_event_ns total_irqs work_executions debounce_ms last_irq_time
       debounce_work last_state work_pending chardev buffer has_event].

(* ===================================================================== *)
(** ** Attribute files (bbb_flagship_button.c, lines 35-70) *)
(* ===================================================================== *)

Definition PAGE_SIZE : nat := 4096.

(** [sysfs_emit(buf, "%lld\n", v)]: the text left in the page, cut to
    [PAGE_SIZE - 1] bytes, and the number of bytes written. *)
Definition sysfs_emit_lld (v : Z) : list byte * Z :=
  let text := take (PAGE_SIZE - 1) (fmt_lld v ++ [x0a]) in
  (text, Z.of_nat (length text)).

Definition press_count_show (b : bbb_btn) : list byte * Z :=
  sysfs_emit_lld (atomic64_read (press_count b)).

Definition last_event_ns_show (b : bbb_btn) : list byte * Z :=
  sysfs_emit_lld (atomic64_read (last_event_ns b)).

Definition total_irqs_show (b : bbb_btn) : list byte * Z :=
  sysfs_emit_lld (atomic64_read (total_irqs b)).

Definition work_executions_show (b : bbb_btn) : list byte * Z :=
  sysfs_emit_lld (atomic64_read (work_executions b)).

(** What a program reading an attribute file does with its text: drop the
    final newline and read the decimal number. *)
Definition parse_lld (text : list byte) : option Z :=
  match reverse text with
  | x0a :: digits =>
      Z.of_int <$> NilZero.int_of_string (string_of_list_byte (reverse digits))
  | _ => None
  end.

(** Intakes of a run. *)
Definition is_intake (a : action) : bool :=
  match a with AIrq _ => true | _ => false end.

Definition intakes (tr : list action) : nat :=
  length (filter (fun a => is_intake a = true) tr).

(** A value an [atomic64_t] can hold. *)
Definition in_s64 (v : Z) : Prop := (INT64_MIN <= v <= INT64_MAX)%Z.

Definition counters_in_range (b : bbb_btn) : Prop :=
  in_s64 (press_count b) /\ in_s64 (last_event_ns b)
  /\ in_s64 (total_irqs b) /\ in_s64 (work_executions b).

(** What reading an attribute file must give for the counter value [v]:
    the decimal text and a newline, the length as return value, at most 21
    bytes, and a text that reads back as [v]. *)
Definition shows (out : list byte * Z) (v : Z) : Prop :=
  out.1 = fmt_lld v ++ [x0a]
  /\ out.2 = Z.of_nat (length out.1)
  /\ (2 <= out.2 <= 21)%Z
  /\ parse_lld out.1 = Some v.

(** The program counter of consumer [i]. *)
Definition reader_at (w : world) (i : nat) : option reader_pc :=
  r_pc <$> readers w !! i.

(* ===================================================================== *)
(** ** The settle pass and the teardown, statement by statement *)
(* ===================================================================== *)

(** [bbb_btn_debounce_work] cut where another context can run in between:
    the statements before [b->lock] is taken (lines 145-153), the section
    under [b->lock] (lines 155-175), the formatting of the message (lines
    177-180), the section of [bbb_chardev_push_event] under [chardev.lock]
    (lines 231-235).  The wake-up of line 237 is [wake_up_interruptible]. *)
Definition work_enter (dt1 : N) (w : world) : world :=
  let w := upd_btn (fun b => set_work_executions (atomic64_inc (work_executions b)) b) w in
  let '(_, w) := ktime_get_ns dt1 w in
  w.

Definition work_locked (state : Z) (dt2 : N) (w : world) : world :=
  let w :=
    if (state =? last_state (btn w))%Z then w
    else
      let w := upd_btn (set_last_state state) w in
      let w := upd_btn (fun b => set_press_count (atomic64_inc (press_count b)) b) w in
      let '(t, w) := ktime_get_ns dt2 w in
      let w := upd_btn (set_last_event_ns (atomic64_set t)) w in
      let w := upd_btn (fun b => set_work_executions (atomic64_inc (work_executions b)) b) w in
      let w := add_call (CallInputReportKey KEY_ENTER (lnot state)) w in
      add_call CallInputSync w in
  upd_btn (set_work_pending false) w.

Definition work_format (state : Z) (dt3 : N) (w : world) : list byte * world :=
  let '(t, w) := ktime_get_ns dt3 w in
  (snprintf 256 (event_text state (atomic64_read (press_count (btn w))) (wrap64 t)), w).

Definition push_event_locked (msg : list byte) (w : world) : option world :=
  buf ← strncpy (buffer (chardev (btn w))) msg (BUF_SIZE - 1);
  buf ← store buf (BUF_SIZE - 1) x00;
  Some (upd_btn (set_chardev {| buffer := buf; has_event := true |}) w).

(** Where the settle pass stands: not running; before [b->lock] with the
    level it read; after the unlock of line 175; with the message formatted,
    before [chardev.lock]; after the unlock of line 235, before the wake-up
    of line 237. *)
Inductive work_pc :=
| WIdle
| WEntered (state : Z)
| WUnlocked (state : Z)
| WFormatted (msg : list byte)
| WStored.

(** Where [bbb_btn_remove] stands: not running; after
    [cancel_delayed_work_sync] (line 300); after the wake-up of
    [bbb_chardev_unregister] (line 220). *)
Inductive remove_pc :=
| TIdle
| TCancelled
| TWoken.

Record system := mk_system {
  sys_world : world;
  sys_work : work_pc;
  sys_remove : remove_pc
}.

(** A driver with no settle pass and no teardown under way. *)
Definition idle (w : world) : system := mk_system w WIdle TIdle.

Inductive fine_action :=
| FStep (a : action)
| FWorkEnter (level : Z) (dt1 : N)
| FWorkLocked (dt2 : N)
| FWorkFormat (dt3 : N)
| FPushStore
| FPushWake
| FRemoveCancel
| FRemoveWake
| FRemoveReturn.

(** The two actions of [step] that are cut into pieces here. *)
Definition is_split (a : action) : bool :=
  match a with
  | AWork _ _ _ _ | ARemove => true
  | _ => false
  end.

(** The pieces of one settle pass, in order. *)
Definition settle_pass (level : Z) (dt1 dt2 dt3 : N) : list fine_action :=
  [FWorkEnter level dt1; FWorkLocked dt2; FWorkFormat dt3; FPushStore; FPushWake].

(** The pieces of one teardown, in order. *)
Definition teardown : list fine_action := [FRemoveCancel; FRemoveWake; FRemoveReturn].

(** The run of pieces that stands for one action of [step]. *)
Definition refine (a : action) : list fine_action :=
  match a with
  | AWork level dt1 dt2 dt3 => settle_pass level dt1 dt2 dt3
  | ARemove => teardown
  | _ => [FStep a]
  end.

Definition fine_intake (a : fine_action) : bool :=
  match a with
  | FStep a => is_intake a
  | _ => false
  end.

Section Fine.

Variable msecs_to_jiffies : Z -> Z.

(** One step at the grain of the source.  The clock tick, the timer expiry
    and the steps of a read are those of [step].  So is the intake: its
    counter and trace line (lines 106-110) touch nothing another context
    reads, and the rest runs under [b->lock].  The interrupt is requested
    with devm, so it stays requested while [bbb_btn_remove] runs and is
    released only after it has returned ([FRemoveReturn]); a pass that has
    started goes on to its end. *)
Definition fine_step (a : fine_action) (s : system) : option system :=
  let w := sys_world s in
  match a with
  | FStep a =>
      if is_split a then None
      else w' ← step msecs_to_jiffies a w; Some (mk_system w' (sys_work s) (sys_remove s))
  | FWorkEnter level dt1 =>
      match sys_work s with
      | WIdle =>
          if bound w && dw_running (debounce_work (btn w))
          then Some (mk_system (work_enter dt1 w) (WEntered level) (sys_remove s))
          else None
      | _ => None
      end
  | FWorkLocked dt2 =>
      match sys_work s with
      | WEntered state =>
          Some (mk_system (work_locked state dt2 w) (WUnlocked state) (sys_remove s))
      | _ => None
      end
  | FWorkFormat dt3 =>
      match sys_work s with
      | WUnlocked state =>
          let '(msg, w) := work_format state dt3 w in
          Some (mk_system w (WFormatted msg) (sys_remove s))
      | _ => None
      end
  | FPushStore =>
      match sys_work s with
      | WFormatted msg =>
          w' ← push_event_locked msg w; Some (mk_system w' WStored (sys_remove s))
      | _ => None
      end
  | FPushWake =>
      match sys_work s with
      | WStored =>
          Some (mk_system
                  (upd_btn (fun b => set_debounce_work (work_done (debounce_work b)) b)
                     (wake_up_interruptible w))
                  WIdle (sys_remove s))
      | _ => None
      end
  | FRemoveCancel =>
      match sys_remove s with
      | TIdle =>
          if bound w then
            dw ← cancel_delayed_work_sync (debounce_work (btn w));
            Some (mk_system (upd_btn (set_debounce_work dw) w) (sys_work s) TCancelled)
          else None
      | _ => None
      end
  | FRemoveWake =>
      match sys_remove s with
      | TCancelled => Some (mk_system (bbb_chardev_unregister w) (sys_work s) TWoken)
      | _ => None
      end
  | FRemoveReturn =>
      match sys_remove s with
      | TWoken => Some (mk_system (set_bound false w) (sys_work s) TIdle)
      | _ => None
      end
  end.

Fixpoint fine_run (tr : list fine_action) (s : system) : option system :=
  match tr with
  | [] => Some s
  | a :: tr' => s' ← fine_step a s; fine_run tr' s'
  end.

(** The states a binding can be in, at the grain of the source. *)
Inductive fine_reachable : system -> Prop :=
| fine_reach_probe prop level t0 j0 n :
    fine_reachable (idle (bbb_btn_probe prop level t0 j0 n))
| fine_reach_step a s s' :
    fine_reachable s -> fine_step a s = Some s' -> fine_reachable s'.

End Fine.

(** A consumer asleep in the wait of its read. *)
Definition asleep (r : reader) : Prop := r_pc r = RSleeping.

(** What the debounce engine works on: the armed timers, whether a pass is
    in flight, [work_pending], jiffies and the configured interval. *)
Definition engine (w : world) : list Z * bool * bool * Z * Z :=
  (dw_timers (debounce_work (btn w)), dw_running (debounce_work (btn w)),
   work_pending (btn w), jiffies w, debounce_ms (btn w)).

Ltac project_system :=
  cbn [sys_world sys_work sys_remove idle]; project_world.

(** Cuts the hypothesis that a run of listed steps succeeds into one
    hypothesis for each step. *)
Ltac split_fine_run H :=
  cbn [fine_run] in H; unfold mbind, option_bind in H;
  repeat match type of H with
         | match fine_step ?m ?a ?s with _ => _ end = _ =>
             let s1 := fresh "s" in
             let Hs := fresh "Hs" in
             destruct (fine_step m a s) as [s1|] eqn:Hs; [|discriminate H]
         end;
  injection H as H.

(* ===================================================================== *)
(** ** Binding and unbinding with their failure paths *)
(* ===================================================================== *)

Definition ENOMEM : Z := 12%Z.
Definition ENODEV : Z := 19%Z.
Definition EINVAL : Z := 22%Z.
Definition EOPNOTSUPP : Z := 95%Z.

(** What [bbb_chardev_register] acquires and must give back by hand (the
    rest of the binding is devm-managed). *)
Inductive resource :=
| ChrdevRegion
| CdevAdded
| ClassCreated
| DeviceCreated.

Global Instance resource_eq_dec : EqDecision resource.
Proof. solve_decision. Defined.

(** Giving back a resource that is not held is an error: [None]. *)
Fixpoint release (r : resource) (held : list resource) : option (list resource) :=
  match held with
  | [] => None
  | r' :: held' =>
      if decide (r = r') then Some held' else cons r' <$> release r held'
  end.

(** How the kernel answers [bbb_chardev_register]: a return value is 0 or
    an error, a pointer is valid ([None]) or [ERR_PTR(-e)] ([Some e]). *)
Record register_env := mk_register_env {
  alloc_chrdev_region_ret : Z;
  cdev_add_ret : Z;
  class_create_err : option positive;
  device_create_err : option positive
}.

(** How the platform answers [bbb_btn_probe]. *)
Record probe_env := mk_probe_env {
  kzalloc_ok : bool;
  debounce_prop : option Z;
  gpiod_err : option positive;
  irq_number : Z;
  request_irq_ret : Z;
  gpio_level : Z;
  chardev_env : register_env;
  input_allocate_ok : bool;
  input_register_ret : Z
}.

(** [bbb_btn_probe] up to line 252: the structure before the character
    device is registered. *)
Definition probe_struct (debounce : option Z) (level : Z) (t0 : N) (j0 : Z)
  (nreaders : nat) : world :=
  {| btn := {| press_count := atomic64_set 0;
               last_event_ns := atomic64_set 0;
               total_irqs := atomic64_set 0;
               work_executions := atomic64_set 0;
               debounce_ms := default 20%Z debounce;
               last_irq_time := 0%Z;
               debounce_work := {| dw_timers := []; dw_running := false |};
               last_state := level;
               work_pending := false;
               chardev := {| buffer := replicate BUF_SIZE x00; has_event := false |} |};
     ktime := Z.of_N t0;
     jiffies := j0;
     calls := [];
     readers := replicate nreaders (mk_reader 0 0 RIdle);
     bound := true |}.

Module Lifecycle.

(** The labels of [bbb_chardev_register], last first. *)
Definition err_unregister (ret : Z) (held : list resource) (w : world)
  : option (Z * list resource * world) :=
  held ← release ChrdevRegion held;
  Some (ret, held, w).

Definition err_cdev_del (ret : Z) (held : list resource) (w : world)
  : option (Z * list resource * world) :=
  held ← release CdevAdded held;
  err_unregister ret held w.

Definition err_class_destroy (ret : Z) (held : list resource) (w : world)
  : option (Z * list resource * world) :=
  held ← release ClassCreated held;
  err_cdev_del ret held w.

(** [bbb_chardev_register] with its failure paths: the return value, the
    resources held afterwards, the driver state. *)
Definition bbb_chardev_register (env : register_env) (held : list resource) (w : world)
  : option (Z * list resource * world) :=
  let ret := alloc_chrdev_region_ret env in
  if decide (ret <> 0%Z) then Some (ret, held, w)
  else
    let held := ChrdevRegion :: held in
    let ret := cdev_add_ret env in
    if decide (ret <> 0%Z) then err_unregister ret held w
    else
      let held := CdevAdded :: held in
      match class_create_err env with
      | Some e => err_cdev_del (Z.neg e) held w
      | None =>
          let held := ClassCreated :: held in
          match device_create_err env with
          | Some e => err_class_destroy (Z.neg e) held w
          | None => Some (0%Z, DeviceCreated :: held, bbb_chardev_register w)
          end
      end.

(** [bbb_chardev_unregister]: wake, then give back the four resources. *)
Definition bbb_chardev_unregister (held : list resource) (w : world)
  : option (list resource * world) :=
  let w := bbb_chardev_unregister w in
  held ← release DeviceCreated held;
  held ← release ClassCreated held;
  held ← release CdevAdded held;
  held ← release ChrdevRegion held;
  Some (held, w).

(** [bbb_btn_probe] with its failure paths: the return value, the
    resources held afterwards and, when it returns 0, the bound driver. *)
Definition bbb_btn_probe (env : probe_env) (t0 : N) (j0 : Z) (nreaders : nat)
  (held : list resource) : option (Z * list resource * option world) :=
  if negb (kzalloc_ok env) then Some ((- ENOMEM)%Z, held, None)
  else
    match gpiod_err env with
    | Some e => Some (Z.neg e, held, None)
    | None =>
        if (irq_number env <? 0)%Z then Some (irq_number env, held, None)
        else if decide (request_irq_ret env <> 0%Z)
        then Some (request_irq_ret env, held, None)
        else
          '(ret, held, w) ← bbb_chardev_register (chardev_env env) held
                              (probe_struct (debounce_prop env) (gpio_level env)
                                 t0 j0 nreaders);
          if decide (ret <> 0%Z) then Some (ret, held, None)
          else if negb (input_allocate_ok env) then
            '(held, _) ← bbb_chardev_unregister held w;
            Some ((- ENOMEM)%Z, held, None)
          else if decide (input_register_ret env <> 0%Z) then
            '(held, _) ← bbb_chardev_unregister held w;
            Some (input_register_ret env, held, None)
          else Some (0%Z, held, Some w)
    end.

(** [bbb_btn_remove] with the resources. *)
Definition bbb_btn_remove (held : list resource) (w : world)
  : option (list resource * world) :=
  dw ← cancel_delayed_work_sync (debounce_work (btn w));
  bbb_chardev_unregister held (upd_btn (set_debounce_work dw) w).

End Lifecycle.

(** The four resources of the character device on top of [held]. *)
Definition with_chardev (held : list resource) : list resource :=
  DeviceCreated :: ClassCreated :: CdevAdded :: ChrdevRegion :: held.

(** Every call of [bbb_chardev_register] succeeded. *)
Definition register_succeeds (env : register_env) : Prop :=
  alloc_chrdev_region_ret env = 0%Z /\ cdev_add_ret env = 0%Z
  /\ class_create_err env = None /\ device_create_err env = None.

(** Every call of [bbb_btn_probe] succeeded. *)
Definition probe_succeeds (env : probe_env) : Prop :=
  kzalloc_ok env = true /\ gpiod_err env = None /\ (0 <= irq_number env)%Z
  /\ request_irq_ret env = 0%Z /\ register_succeeds (chardev_env env)
  /\ input_allocate_ok env = true /\ input_register_ret env = 0%Z.

(* ===================================================================== *)
(** ** drivers/mcp3008/bbb_mcp3008.c *)
(* ===================================================================== *)

(** The value of a byte as a C integer. *)
Definition byte_val (b : byte) : Z := Z.of_N (Byte.to_N b).

Module MCP3008.

(** <linux/iio/types.h> *)
Definition IIO_CHAN_INFO_RAW : Z := 0%Z.
Definition IIO_CHAN_INFO_SCALE : Z := 2%Z.
Definition IIO_VAL_INT : Z := 1%Z.
Definition IIO_VAL_FRACTIONAL_LOG2 : Z := 11%Z.

Definition MCP3008_CHANNELS : Z := 8%Z.

(** [struct mcp3008]: whether [vref] is a regulator (not an error
    pointer), and the reference voltage, a u16. *)
Record mcp3008 := mk_mcp3008 {
  has_vref : bool;
  vref_mv : Z
}.

(** The three bytes sent: start bit, single-ended with the channel in the
    high nibble (the assignment to a u8 keeps the low 8 bits), don't care. *)
Definition command (channel : Z) : list Z :=
  [1%Z; (Z.lor 128 (Z.shiftl channel 4) mod 256)%Z; 0%Z].

(** [mcp3008_adc_conversion]: [xfer] is [spi_sync_transfer], from the bytes
    sent to its return value and the three bytes received. *)
Definition mcp3008_adc_conversion (xfer : list Z -> Z * (byte * byte * byte)) (channel : Z)
  : Z :=
  let '(ret, (_, rx1, rx2)) := xfer (command channel) in
  if (ret <? 0)%Z then ret
  else Z.lor (Z.shiftl (Z.land (byte_val rx1) 3) 8) (byte_val rx2).

(** [mcp3008_read_raw]: the return value and the contents of [*val] and
    [*val2] afterwards.  [address] is [chan->address], passed as a u8. *)
Definition mcp3008_read_raw (adc : mcp3008) (xfer : list Z -> Z * (byte * byte * byte))
  (address mask val val2 : Z) : Z * Z * Z :=
  if (mask =? IIO_CHAN_INFO_RAW)%Z then
    let ret := mcp3008_adc_conversion xfer (address mod 256)%Z in
    if (ret <? 0)%Z then (ret, val, val2)
    else (IIO_VAL_INT, ret, val2)
  else if (mask =? IIO_CHAN_INFO_SCALE)%Z then
    (IIO_VAL_FRACTIONAL_LOG2, vref_mv adc, 10%Z)
  else ((- EINVAL)%Z, val, val2).

(** How the platform answers [mcp3008_probe]: [vref_lookup] is [None] for
    a regulator and [Some e] for [ERR_PTR(-e)]. *)
Record probe_env := mk_probe_env {
  iio_alloc_ok : bool;
  vref_lookup : option positive;
  regulator_enable_ret : Z;
  regulator_voltage_ret : Z;
  iio_register_ret : Z
}.

(** [err_vref_disable] *)
Definition err_vref_disable (has_regulator : bool) (ret enabled : Z) : Z * Z * option mcp3008 :=
  (ret, if has_regulator then (enabled - 1)%Z else enabled, None).

(** [mcp3008_probe]: the return value, the enable count of the reference
    regulator afterwards and, when it returns 0, the device. *)
Definition mcp3008_probe (env : probe_env) (enabled : Z) : Z * Z * option mcp3008 :=
  if negb (iio_alloc_ok env) then ((- ENOMEM)%Z, enabled, None)
  else
    match vref_lookup env with
    | Some e =>
        if (Z.neg e =? - ENODEV)%Z then
          let adc := {| has_vref := false; vref_mv := 3300%Z |} in
          if decide (iio_register_ret env <> 0%Z)
          then err_vref_disable false (iio_register_ret env) enabled
          else (0%Z, enabled, Some adc)
        else (Z.neg e, enabled, None)
    | None =>
        if decide (regulator_enable_ret env <> 0%Z)
        then (regulator_enable_ret env, enabled, None)
        else
          let enabled := (enabled + 1)%Z in
          let ret := regulator_voltage_ret env in
          if (ret <? 0)%Z then err_vref_disable true ret enabled
          else
            let adc := {| has_vref := true; vref_mv := (Z.quot ret 1000 mod 65536)%Z |} in
            if decide (iio_register_ret env <> 0%Z)
            then err_vref_disable true (iio_register_ret env) enabled
            else (0%Z, enabled, Some adc)
    end.

(** [mcp3008_remove]: the enable count afterwards. *)
Definition mcp3008_remove (adc : mcp3008) (enabled : Z) : Z :=
  if has_vref adc then (enabled - 1)%Z else enabled.

(** What the converter puts on the wire for a 10-bit result [v]: the
    two high bits at the bottom of the second byte, under six bits the
    driver must ignore, then the low byte. *)
Definition adc_answers (rx1 rx2 : byte) (v : Z) : Prop :=
  (byte_val rx1 mod 4 = v / 256 /\ byte_val rx2 = v mod 256)%Z.

End MCP3008.

(* ===================================================================== *)
(** ** drivers/tmp117/bbb_tmp117.c *)
(* ===================================================================== *)

Module TMP117.

Definition TMP117_REG_TEMP : Z := 0%Z.
Definition TMP117_REG_DEVICE_ID : Z := 15%Z.
Definition TMP117_DEVICE_ID : Z := 279%Z.
Definition TMP117_RESOLUTION_NUM : Z := 78125%Z.
Definition TMP117_RESOLUTION_DEN : Z := 10000%Z.

(** <linux/hwmon.h> *)
Definition hwmon_temp : Z := 1%Z.
Definition hwmon_temp_input : Z := 1%Z.

(** [swab16]: the two bytes of a u16 exchanged. *)
Definition swab16 (x : Z) : Z :=
  Z.lor (Z.shiftl (Z.land x 255) 8) (Z.shiftr (Z.land x 65280) 8).

(** Conversion to a signed integer of [bits] bits, two's complement. *)
Definition to_signed (bits : Z) (x : Z) : Z :=
  ((x + 2 ^ (bits - 1)) mod 2 ^ bits - 2 ^ (bits - 1))%Z.

(** [bbb_tmp117_read_temperature]: [reg_val] is what
    [i2c_smbus_read_word_data] returns, [long_bits] the width of [long]; the
    result is the return value and the contents of [*val].  The product is
    computed in [long] and wraps (the kernel is built with
    -fno-strict-overflow); the division of C cuts toward zero. *)
Definition bbb_tmp117_read_temperature (long_bits : Z) (reg_val : Z) (val : Z) : Z * Z :=
  if (reg_val <? 0)%Z then (reg_val, val)
  else
    let raw := to_signed 16 (swab16 reg_val) in
    (0%Z, Z.quot (to_signed long_bits (raw * TMP117_RESOLUTION_NUM)) TMP117_RESOLUTION_DEN).

(** [bbb_tmp117_read]: [bus] is the word read should the bus be asked. *)
Definition bbb_tmp117_read (long_bits : Z) (bus : Z) (type attr channel : Z) (val : Z)
  : Z * Z :=
  if negb (type =? hwmon_temp)%Z || negb (attr =? hwmon_temp_input)%Z
     || negb (channel =? 0)%Z
  then ((- EOPNOTSUPP)%Z, val)
  else bbb_tmp117_read_temperature long_bits bus val.

(** [bbb_tmp117_is_visible]: 0444, octal. *)
Definition bbb_tmp117_is_visible (type attr channel : Z) : Z :=
  if (type =? hwmon_temp)%Z && (attr =? hwmon_temp_input)%Z && (channel =? 0)%Z
  then 292%Z else 0%Z.

(** [bbb_tmp117_probe]: [id_word] is the word read from the device ID
    register, [hwmon_err] the outcome of the hwmon registration. *)
Definition bbb_tmp117_probe (id_word : Z) (kzalloc_ok : bool) (hwmon_err : option positive)
  : Z :=
  if (id_word <? 0)%Z then id_word
  else if negb (swab16 id_word =? TMP117_DEVICE_ID)%Z then (- ENODEV)%Z
  else if negb kzalloc_ok then (- ENOMEM)%Z
  else
    match hwmon_err with
    | Some e => Z.neg e
    | None => 0%Z
    end.

(** The word the SMBus transfer yields when the sensor register holds the
    16-bit value [reg], sent high byte first: the first byte received is
    the low byte of the word. *)
Definition bus_word (reg : Z) : Z := ((reg mod 256) * 256 + reg / 256)%Z.

End TMP117.

(* ===================================================================== *)
(** ** Arithmetic of the 64-bit counters *)
(* ===================================================================== *)

Lemma wrap64_id x :
  (INT64_MIN <= x <= INT64_MAX)%Z -> wrap64 x = x.
Proof.
  unfold INT64_MIN, INT64_MAX, wrap64. intros H.
  rewrite Z.mod_small by lia. lia.
Qed.

Lemma wrap64_range x : (INT64_MIN <= wrap64 x <= INT64_MAX)%Z.
Proof.
  unfold INT64_MIN, INT64_MAX, wrap64.
  pose proof (Z.mod_pos_bound (x + 9223372036854775808) 18446744073709551616).
  lia.
Qed.

Lemma wrap64_add_l a b : wrap64 (wrap64 a + b) = wrap64 (a + b).
Proof.
  unfold wrap64. f_equal.
  replace ((a + 9223372036854775808) mod 18446744073709551616 - 9223372036854775808 + b
           + 9223372036854775808)%Z
    with ((a + 9223372036854775808) mod 18446744073709551616 + b)%Z by lia.
  rewrite Z.add_mod_idemp_l by lia. f_equal. lia.
Qed.

Lemma atomic64_inc_exact v :
  (INT64_MIN <= v < INT64_MAX)%Z -> atomic64_inc v = (v + 1)%Z.
Proof.
  intros H. unfold atomic64_inc. apply wrap64_id.
  unfold INT64_MIN, INT64_MAX in *. lia.
Qed.

Lemma atomic64_inc_twice v : atomic64_inc (atomic64_inc v) = wrap64 (v + 2).
Proof.
  unfold atomic64_inc. rewrite wrap64_add_l. f_equal. lia.
Qed.

(* ===================================================================== *)
(** ** C strings *)
(* ===================================================================== *)

Lemma is_nul_true c : is_nul c = true <-> c = x00.
Proof.
  unfold is_nul. split.
  - apply Byte.byte_dec_bl.
  - intros ->. reflexivity.
Qed.

Lemma length_cstring s : length (cstring s) <= length s.
Proof.
  induction s as [|c s IH]; simpl; [lia|].
  destruct (is_nul c); simpl; lia.
Qed.

Lemma cstring_no_nul s : Forall (fun c => is_nul c = false) (cstring s).
Proof.
  induction s as [|c s IH]; simpl; [constructor|].
  destruct (is_nul c) eqn:E; [constructor|].
  constructor; assumption.
Qed.

Lemma cstring_app_nul l r :
  Forall (fun c => is_nul c = false) l -> cstring (l ++ x00 :: r) = l.
Proof.
  induction 1 as [|c l Hc _ IH]; simpl; [reflexivity|].
  rewrite Hc, IH. reflexivity.
Qed.

Lemma strlen_app_nul l r :
  Forall (fun c => is_nul c = false) l -> strlen (l ++ x00 :: r) = Some (length l).
Proof.
  induction 1 as [|c l Hc _ IH]; simpl; [reflexivity|].
  rewrite Hc, IH. reflexivity.
Qed.

Lemma cstring_idemp s : cstring (cstring s) = cstring s.
Proof.
  induction s as [|c s IH]; simpl; [reflexivity|].
  destruct (is_nul c) eqn:E; simpl; [reflexivity|].
  rewrite E, IH. reflexivity.
Qed.

(** A successful [strlen] stays inside the array, finds a NUL there and
    measures the C string. *)
Lemma strlen_Some buf n :
  strlen buf = Some n ->
  n < length buf /\ buf !! n = Some x00 /\ take n buf = cstring buf.
Proof.
  revert n. induction buf as [|c buf IH]; intros n; simpl; [discriminate|].
  destruct (is_nul c) eqn:E.
  - intros [= <-]. apply is_nul_true in E. subst c. simpl. repeat split. lia.
  - destruct (strlen buf) as [m|] eqn:Em; simpl; [|discriminate].
    intros [= <-]. destruct (IH m eq_refl) as (Hlt & Hnul & Htake).
    simpl. rewrite Htake. repeat split; [lia|assumption].
Qed.

(** A NUL somewhere in the array makes [strlen] succeed before it. *)
Lemma strlen_of_nul buf i :
  buf !! i = Some x00 -> exists n, strlen buf = Some n /\ n <= i.
Proof.
  revert i. induction buf as [|c buf IH]; intros i; [discriminate|].
  simpl. destruct (is_nul c) eqn:E.
  - intros _. exists 0. split; [reflexivity|lia].
  - destruct i as [|i]; simpl.
    + intros [= ->]. discriminate.
    + intros H. destruct (IH i H) as (n & -> & Hn). exists (S n). split; [reflexivity|lia].
Qed.

Lemma strlen_wf cd :
  mailbox_wf cd ->
  exists n, strlen (buffer cd) = Some n /\ n <= BUF_SIZE - 1
            /\ take n (buffer cd) = cstring (buffer cd).
Proof.
  intros [_ Hnul]. destruct (strlen_of_nul _ _ Hnul) as (n & Hn & Hle).
  exists n. repeat split; [assumption|assumption|].
  apply strlen_Some in Hn. tauto.
Qed.

(** What [strncpy] followed by the terminator leaves in an array of
    [S n] bytes. *)
Lemma strncpy_store dst src n :
  length dst = S n ->
  strncpy dst src n ≫= (fun buf => store buf n x00)
  = Some (take n (cstring src) ++ replicate (S n - Nat.min n (length (cstring src))) x00).
Proof.
  intros Hlen. unfold strncpy.
  destruct (decide (n <= length dst)) as [_|]; [|lia]. simpl.
  set (cs := cstring src).
  assert (Hp : length (take n (cs ++ replicate n x00)) = n).
  { rewrite length_take, length_app, length_replicate. lia. }
  unfold store. rewrite length_app, Hp, length_drop, Hlen.
  destruct (decide (n < n + (S n - n))) as [_|]; [|lia].
  f_equal.
  destruct (dst !! n) as [d|] eqn:Hd; [|apply lookup_ge_None in Hd; lia].
  assert (Hdrop : drop n dst = [d]).
  { rewrite (drop_S _ _ _ Hd), drop_ge by lia. reflexivity. }
  rewrite Hdrop.
  replace (<[n:=x00]> (take n (cs ++ replicate n x00) ++ [d]))
    with (take n (cs ++ replicate n x00) ++ [x00]).
  2:{ symmetry. rewrite insert_app_r_alt by lia. rewrite Hp, Nat.sub_diag. reflexivity. }
  rewrite take_app, take_replicate.
  destruct (decide (length cs <= n)) as [Hle|Hgt].
  - replace (Nat.min (n - length cs) n) with (n - length cs) by lia.
    replace (S n - Nat.min n (length cs)) with ((n - length cs) + 1) by lia.
    rewrite replicate_add. simpl. rewrite app_assoc. reflexivity.
  - replace (Nat.min (n - length cs) n) with 0 by lia.
    replace (S n - Nat.min n (length cs)) with 1 by lia.
    simpl. rewrite app_nil_r. reflexivity.
Qed.

Lemma take_cstring_no_nul n s : Forall (fun c => is_nul c = false) (take n (cstring s)).
Proof. apply Forall_take, cstring_no_nul. Qed.

(* ===================================================================== *)
(** ** The mailbox: publish *)
(* ===================================================================== *)

Lemma push_event_eq msg w :
  length (buffer (chardev (btn w))) = BUF_SIZE ->
  bbb_chardev_push_event msg w
  = Some (wake_up_interruptible
            (upd_btn (set_chardev
               {| buffer := take (BUF_SIZE - 1) (cstring msg)
                            ++ replicate (BUF_SIZE - Nat.min (BUF_SIZE - 1) (length (cstring msg))) x00;
                  has_event := true |}) w)).
Proof.
  intros Hlen. unfold bbb_chardev_push_event.
  pose proof (strncpy_store (buffer (chardev (btn w))) msg (BUF_SIZE - 1) Hlen) as H.
  unfold mbind, option_bind in *.
  destruct (strncpy (buffer (chardev (btn w))) msg (BUF_SIZE - 1)) as [buf|];
    [|discriminate].
  rewrite H. reflexivity.
Qed.

Lemma pushed_buffer_wf msg :
  mailbox_wf
    {| buffer := take (BUF_SIZE - 1) (cstring msg)
                 ++ replicate (BUF_SIZE - Nat.min (BUF_SIZE - 1) (length (cstring msg))) x00;
       has_event := true |}.
Proof.
  unfold mailbox_wf. cbn [buffer]. split.
  - rewrite length_app, length_take, length_replicate. unfold BUF_SIZE. lia.
  - rewrite lookup_app_r by (rewrite length_take; unfold BUF_SIZE; lia).
    apply lookup_replicate_2. rewrite length_take. unfold BUF_SIZE. lia.
Qed.

Lemma pushed_buffer_cstring msg :
  cstring (take (BUF_SIZE - 1) (cstring msg)
           ++ replicate (BUF_SIZE - Nat.min (BUF_SIZE - 1) (length (cstring msg))) x00)
  = take (BUF_SIZE - 1) (cstring msg).
Proof.
  unfold BUF_SIZE.
  destruct (256 - Nat.min (256 - 1) (length (cstring msg))) as [|k] eqn:E; [lia|].
  simpl replicate. apply cstring_app_nul, take_cstring_no_nul.
Qed.

(* ===================================================================== *)
(** ** The mailbox: take *)
(* ===================================================================== *)

Lemma read_take_empty cd :
  has_event cd = false -> read_take cd = Some (cd, RReturned (- EAGAIN)%Z []).
Proof. intros H. unfold read_take. rewrite H. reflexivity. Qed.

(** With an event pending in a well-formed mailbox the locked section
    stays inside both arrays and leaves the message, terminated, in
    [local_buf]. *)
Lemma read_take_pending cd :
  mailbox_wf cd -> has_event cd = true ->
  exists local_buf,
    read_take cd
    = Some ({| buffer := buffer cd; has_event := false |},
            RDelivering (length (cstring (buffer cd))) local_buf)
    /\ length local_buf = BUF_SIZE
    /\ length (cstring (buffer cd)) < BUF_SIZE
    /\ local_buf !! length (cstring (buffer cd)) = Some x00
    /\ take (length (cstring (buffer cd))) local_buf = cstring (buffer cd).
Proof.
  intros Hwf Hev. destruct (strlen_wf cd Hwf) as (n & Hn & Hle & Htake).
  destruct Hwf as [Hlen _].
  assert (Hcs : length (cstring (buffer cd)) = n).
  { rewrite <- Htake, length_take. unfold BUF_SIZE in *. lia. }
  unfold read_take. rewrite Hev, Hn, Hcs. unfold mbind, option_bind.
  destruct (decide (BUF_SIZE <= n)) as [Hbig|_]; [unfold BUF_SIZE in *; lia|].
  unfold memcpy. rewrite length_replicate, Hlen.
  destruct (decide (n <= BUF_SIZE /\ n <= BUF_SIZE)) as [_|Hno];
    [|unfold BUF_SIZE in *; lia].
  assert (Hl : length (take n (buffer cd) ++ drop n (replicate BUF_SIZE x00)) = BUF_SIZE).
  { rewrite length_app, length_take, length_drop, length_replicate, Hlen.
    unfold BUF_SIZE in *. lia. }
  unfold store. rewrite Hl.
  destruct (decide (n < BUF_SIZE)) as [Hlt|]; [|unfold BUF_SIZE in *; lia].
  eexists. split; [reflexivity|].
  assert (Hpre : length (take n (buffer cd)) = n).
  { rewrite length_take. unfold BUF_SIZE in *. lia. }
  repeat split.
  - rewrite length_insert. exact Hl.
  - exact Hlt.
  - apply list_lookup_insert_eq. lia.
  - rewrite take_insert_ge by lia.
    rewrite take_app_le by lia. rewrite take_take, Nat.min_id. exact Htake.
Qed.

Lemma read_deliver_ok count room len local_buf :
  (N.of_nat (Nat.min (N.to_nat count) len) <= room)%N ->
  read_deliver count room len local_buf
  = RReturned (Z.of_nat (Nat.min (N.to_nat count) len))
              (take (Nat.min (N.to_nat count) len) local_buf).
Proof.
  intros Hroom. unfold read_deliver, copy_to_user.
  destruct (N.ltb_spec count (N.of_nat len)) as [Hlt|Hge].
  - replace (Nat.min (N.to_nat count) len) with (N.to_nat count) in * by lia.
    replace (Nat.min (N.to_nat count) (N.to_nat room)) with (N.to_nat count) by lia.
    rewrite Nat.sub_diag. reflexivity.
  - replace (Nat.min (N.to_nat count) len) with len in * by lia.
    replace (Nat.min len (N.to_nat room)) with len by lia.
    rewrite Nat.sub_diag. reflexivity.
Qed.

Lemma read_deliver_returns count room len local_buf :
  exists ret data, read_deliver count room len local_buf = RReturned ret data.
Proof.
  unfold read_deliver.
  destruct (copy_to_user _ _ _) as [[|k] data]; eauto.
Qed.

Lemma read_deliver_fault count room len local_buf :
  (room < N.of_nat (Nat.min (N.to_nat count) len))%N ->
  read_deliver count room len local_buf
  = RReturned (- EFAULT)%Z (take (N.to_nat room) local_buf).
Proof.
  intros Hroom. unfold read_deliver, copy_to_user.
  destruct (N.ltb_spec count (N.of_nat len)) as [Hlt|Hge].
  - replace (Nat.min (N.to_nat count) len) with (N.to_nat count) in * by lia.
    replace (Nat.min (N.to_nat count) (N.to_nat room)) with (N.to_nat room) by lia.
    destruct (N.to_nat count - N.to_nat room) eqn:E; [lia|].
    reflexivity.
  - replace (Nat.min (N.to_nat count) len) with len in * by lia.
    replace (Nat.min len (N.to_nat room)) with (N.to_nat room) by lia.
    destruct (len - N.to_nat room) eqn:E; [lia|].
    reflexivity.
Qed.

(** A read that finds an event and whose copy to the caller succeeds. *)
Lemma read_pending_ok count room sig w :
  mailbox_wf (mailbox w) -> has_event (mailbox w) = true ->
  (N.of_nat (Nat.min (N.to_nat count) (length (pending_message w))) <= room)%N ->
  bbb_btn_chardev_read count room sig w
  = Some (RReturned (Z.of_nat (Nat.min (N.to_nat count) (length (pending_message w))))
                    (take (Nat.min (N.to_nat count) (length (pending_message w)))
                          (pending_message w)),
          upd_btn (set_chardev {| buffer := buffer (mailbox w); has_event := false |}) w).
Proof.
  unfold mailbox, pending_message. intros Hwf Hev Hroom.
  destruct (read_take_pending _ Hwf Hev) as (lb & Htk & _ & _ & _ & Hpre).
  unfold bbb_btn_chardev_read, read_wait, wait_event_interruptible.
  rewrite Hev, Htk. unfold mbind, option_bind.
  rewrite read_deliver_ok by assumption.
  do 3 f_equal.
  rewrite <- Hpre at 3. rewrite take_take. f_equal. lia.
Qed.

(** Without an event the caller sleeps, or is sent back by a signal; the
    world is untouched. *)
Lemma read_empty count room sig w :
  has_event (mailbox w) = false ->
  bbb_btn_chardev_read count room sig w
  = Some (if sig then RReturned (- ERESTARTSYS)%Z [] else RSleeping, w).
Proof.
  unfold mailbox. intros Hev.
  unfold bbb_btn_chardev_read, read_wait, wait_event_interruptible.
  rewrite Hev. destruct sig; reflexivity.
Qed.

(** The world after a successful take: flag cleared, nothing else. *)
Lemma read_flag_cleared w :
  has_event (mailbox (upd_btn (set_chardev {| buffer := buffer (mailbox w);
                                              has_event := false |}) w)) = false.
Proof. reflexivity. Qed.

(** Every outcome of an uninterleaved read on a well-formed mailbox. *)
Lemma read_cases count room sig w :
  mailbox_wf (mailbox w) ->
  bbb_btn_chardev_read count room sig w
  = if has_event (mailbox w) then
      Some (if (room <? N.of_nat (Nat.min (N.to_nat count) (length (pending_message w))))%N
            then RReturned (- EFAULT)%Z (take (N.to_nat room) (pending_message w))
            else RReturned (Z.of_nat (Nat.min (N.to_nat count) (length (pending_message w))))
                           (take (Nat.min (N.to_nat count) (length (pending_message w)))
                                 (pending_message w)),
            upd_btn (set_chardev {| buffer := buffer (mailbox w); has_event := false |}) w)
    else Some (if sig then RReturned (- ERESTARTSYS)%Z [] else RSleeping, w).
Proof.
  intros Hwf. destruct (has_event (mailbox w)) eqn:Hev.
  - destruct (N.ltb_spec room
                (N.of_nat (Nat.min (N.to_nat count) (length (pending_message w)))))
      as [Hlt|Hge].
    + unfold mailbox, pending_message in *.
      destruct (read_take_pending _ Hwf Hev) as (lb & Htk & _ & _ & _ & Hpre).
      unfold bbb_btn_chardev_read, read_wait, wait_event_interruptible.
      rewrite Hev, Htk. unfold mbind, option_bind.
      rewrite read_deliver_fault by assumption.
      do 3 f_equal.
      rewrite <- Hpre at 1. rewrite take_take. f_equal. lia.
    + apply read_pending_ok; assumption.
  - apply read_empty; assumption.
Qed.

Lemma push_event_wf msg w :
  length (buffer (mailbox w)) = BUF_SIZE ->
  exists w', bbb_chardev_push_event msg w = Some w'
    /\ mailbox_wf (mailbox w')
    /\ has_event (mailbox w') = true
    /\ strlen (buffer (mailbox w')) = Some (Nat.min (BUF_SIZE - 1) (length (cstring msg)))
    /\ pending_message w' = take (BUF_SIZE - 1) (cstring msg).
Proof.
  intros Hlen. eexists. split; [apply push_event_eq; exact Hlen|].
  unfold mailbox, pending_message. cbn [wake_up_interruptible add_call set_readers upd_btn
    btn set_chardev chardev buffer has_event].
  split; [apply pushed_buffer_wf|]. split; [reflexivity|]. split.
  - destruct (BUF_SIZE - Nat.min (BUF_SIZE - 1) (length (cstring msg))) as [|k] eqn:E;
      [unfold BUF_SIZE in E; lia|].
    cbn [replicate]. rewrite strlen_app_nul by apply take_cstring_no_nul.
    rewrite length_take. reflexivity.
  - apply pushed_buffer_cstring.
Qed.

(* ===================================================================== *)
(** ** Claims about the mailbox *)
(* ===================================================================== *)

(** C7.  Publishing a message of any length into a well-formed mailbox
    stays inside the 256-byte buffer, leaves it NUL-terminated within its
    bound and holding the message cut to 255 bytes; a read stays inside the
    buffer and inside its local copy, whose terminator lands below its
    256-byte bound; the mailbox is well formed after the publish and after
    the read. *)
Theorem mailbox_terminated_within_bounds
  (w : world) (msg : list byte) (count room : N) (sig : bool) :
  mailbox_wf (mailbox w) ->
  (exists w', bbb_chardev_push_event msg w = Some w'
      /\ mailbox_wf (mailbox w')
      /\ strlen (buffer (mailbox w')) = Some (Nat.min (BUF_SIZE - 1) (length (cstring msg)))
      /\ pending_message w' = take (BUF_SIZE - 1) (cstring msg))
  /\ (exists r w', bbb_btn_chardev_read count room sig w = Some (r, w')
      /\ mailbox_wf (mailbox w'))
  /\ (exists cd pc, read_take (mailbox w) = Some (cd, pc)
      /\ mailbox_wf cd
      /\ forall len local_buf, pc = RDelivering len local_buf ->
           length local_buf = BUF_SIZE /\ len < BUF_SIZE /\ local_buf !! len = Some x00).
Proof.
  intros Hwf. split; [|split].
  - destruct (push_event_wf msg w (proj1 Hwf)) as (w' & Hp & Hwf' & _ & Hs & Hm).
    exists w'. auto.
  - rewrite (read_cases count room sig w Hwf).
    destruct (has_event (mailbox w)); eexists _, _; (split; [reflexivity|]); exact Hwf.
  - destruct (has_event (mailbox w)) eqn:Hev.
    + destruct (read_take_pending _ Hwf Hev) as (lb & Htk & Hl & Hlt & Hnul & _).
      eexists _, _. split; [exact Htk|]. split; [exact Hwf|].
      intros len local_buf [= <- <-]. auto.
    + rewrite (read_take_empty _ Hev). eexists _, _. split; [reflexivity|].
      split; [exact Hwf|]. intros len local_buf Hpc. discriminate Hpc.
Qed.

Lemma mailbox_terminated_within_bounds_witness :
  let w := bbb_btn_probe None 1 0 0 0 in
  mailbox_wf (mailbox w)
  /\ exists w', bbb_chardev_push_event (replicate 300 x41) w = Some w'
      /\ mailbox_wf (mailbox w')
      /\ strlen (buffer (mailbox w')) = Some 255.
Proof.
  assert (Hwf : mailbox_wf (mailbox (bbb_btn_probe None 1 0 0 0))).
  { split; reflexivity. }
  split; [exact Hwf|].
  destruct (mailbox_terminated_within_bounds
              (bbb_btn_probe None 1 0 0 0) (replicate 300 x41) 0 0 false Hwf)
    as ((w' & Hp & Hwf' & Hs & _) & _).
  exists w'. split; [exact Hp|]. split; [exact Hwf'|]. exact Hs.
Defined.

(** C3.  After two publishes in a row the flag is set and the mailbox
    holds the second message alone (cut to 255 bytes, so the message itself
    when it fits); one read with room for it returns exactly that message
    and clears the flag, and the next read finds nothing and blocks. *)
Theorem second_publish_overwrites_first
  (w : world) (m1 m2 : list byte) (count room : N) (sig : bool) :
  length (buffer (mailbox w)) = BUF_SIZE ->
  (N.of_nat (length (take (BUF_SIZE - 1) (cstring m2))) <= count)%N ->
  (N.of_nat (length (take (BUF_SIZE - 1) (cstring m2))) <= room)%N ->
  exists w1 w2 w3,
    bbb_chardev_push_event m1 w = Some w1
    /\ bbb_chardev_push_event m2 w1 = Some w2
    /\ has_event (mailbox w2) = true
    /\ pending_message w2 = take (BUF_SIZE - 1) (cstring m2)
    /\ (length (cstring m2) <= BUF_SIZE - 1 -> pending_message w2 = cstring m2)
    /\ bbb_btn_chardev_read count room sig w2
       = Some (RReturned (Z.of_nat (length (take (BUF_SIZE - 1) (cstring m2))))
                         (take (BUF_SIZE - 1) (cstring m2)), w3)
    /\ has_event (mailbox w3) = false
    /\ bbb_btn_chardev_read count room false w3 = Some (RSleeping, w3).
Proof.
  intros Hlen Hcount Hroom.
  destruct (push_event_wf m1 w Hlen) as (w1 & Hp1 & Hwf1 & _).
  destruct (push_event_wf m2 w1 (proj1 Hwf1)) as (w2 & Hp2 & Hwf2 & Hev2 & _ & Hm2).
  exists w1, w2. eexists. split; [exact Hp1|]. split; [exact Hp2|].
  split; [exact Hev2|]. split; [exact Hm2|]. split.
  { intros Hfit. rewrite Hm2. apply take_ge. exact Hfit. }
  assert (Hmin : Nat.min (N.to_nat count) (length (pending_message w2))
                 = length (take (BUF_SIZE - 1) (cstring m2))).
  { rewrite Hm2. lia. }
  split.
  - rewrite (read_pending_ok count room sig w2 Hwf2 Hev2).
    + rewrite Hmin, Hm2. rewrite firstn_all. reflexivity.
    + rewrite Hmin. exact Hroom.
  - split; [reflexivity|]. apply (read_empty count room false). reflexivity.
Qed.

Lemma second_publish_overwrites_first_witness :
  exists w2 w3,
    (bbb_chardev_push_event [x41; x0a] (bbb_btn_probe None 1 0 0 0)
       ≫= bbb_chardev_push_event [x42; x0a]) = Some w2
    /\ bbb_btn_chardev_read 16 16 false w2 = Some (RReturned 2 [x42; x0a], w3)
    /\ has_event (mailbox w3) = false.
Proof.
  destruct (second_publish_overwrites_first
              (bbb_btn_probe None 1 0 0 0) [x41; x0a] [x42; x0a] 16 16 false)
    as (w1 & w2 & w3 & Hp1 & Hp2 & _ & _ & _ & Hr & Hev & _).
  - reflexivity.
  - vm_compute. discriminate.
  - vm_compute. discriminate.
  - exists w2, w3. rewrite Hp1. split; [exact Hp2|]. split; [exact Hr|exact Hev].
Defined.

(** C4.  A read that finds a message of length L pending and whose copy
    to the caller succeeds returns min(count, L): L bytes, the whole
    message, when count >= L, and the first count bytes when count < L; the
    value returned is the number of bytes handed to the caller. *)
Theorem read_returns_min_of_count_and_length
  (w : world) (count room : N) (sig : bool) :
  mailbox_wf (mailbox w) ->
  has_event (mailbox w) = true ->
  (N.of_nat (Nat.min (N.to_nat count) (length (pending_message w))) <= room)%N ->
  exists data w',
    bbb_btn_chardev_read count room sig w
    = Some (RReturned (Z.of_nat (length data)) data, w')
    /\ data = take (length data) (pending_message w)
    /\ ((N.of_nat (length (pending_message w)) <= count)%N ->
        length data = length (pending_message w) /\ data = pending_message w)
    /\ ((count < N.of_nat (length (pending_message w)))%N ->
        length data = N.to_nat count).
Proof.
  intros Hwf Hev Hroom.
  set (n := Nat.min (N.to_nat count) (length (pending_message w))) in *.
  assert (Hlen : length (take n (pending_message w)) = n).
  { rewrite length_take. lia. }
  exists (take n (pending_message w)). eexists. split; [|split; [|split]].
  - rewrite Hlen. apply read_pending_ok; assumption.
  - rewrite Hlen. reflexivity.
  - intros Hge. rewrite Hlen. split; [lia|]. apply take_ge. lia.
  - intros Hlt. rewrite Hlen. lia.
Qed.

Lemma read_returns_min_of_count_and_length_witness :
  exists w w',
    bbb_chardev_push_event [x41; x42; x43] (bbb_btn_probe None 1 0 0 0) = Some w
    /\ bbb_btn_chardev_read 2 8 false w = Some (RReturned 2 [x41; x42], w').
Proof.
  destruct (push_event_wf [x41; x42; x43] (bbb_btn_probe None 1 0 0 0) eq_refl)
    as (w & Hp & Hwf & Hev & _ & Hm).
  destruct (read_returns_min_of_count_and_length w 2 8 false Hwf Hev)
    as (data & w' & Hr & Hd & _ & Hlt).
  - rewrite Hm. vm_compute. discriminate.
  - exists w, w'. split; [exact Hp|].
    rewrite Hr. rewrite Hm in Hd, Hlt.
    assert (Hl : length data = 2) by (apply Hlt; vm_compute; reflexivity).
    rewrite Hd, Hl. reflexivity.
Defined.

(** C2, as stated, fails: a read whose copy to the caller faults after the
    first byte returns -EFAULT after the flag was cleared under the lock:
    one byte of the message is in the user buffer, the event that was
    pending is gone and the next read blocks. *)
Lemma read_fault_consumes_event :
  exists w w',
    bbb_chardev_push_event [x41; x0a] (bbb_btn_probe None 1 0 0 0) = Some w
    /\ has_event (mailbox w) = true
    /\ bbb_btn_chardev_read 2 1 false w = Some (RReturned (- EFAULT)%Z [x41], w')
    /\ has_event (mailbox w') = false
    /\ bbb_btn_chardev_read 2 2 false w' = Some (RSleeping, w').
Proof.
  eexists. eexists.
  split; [vm_compute; reflexivity|].
  split; [reflexivity|].
  split; [vm_compute; reflexivity|].
  split; reflexivity.
Qed.

(** C2, amended.  The flag is cleared exactly by a locked take that finds
    it set, before the data is handed to the caller.  A read that blocks or
    is interrupted (-ERESTARTSYS) leaves the whole driver state as it was
    and the user buffer unwritten, and a take that finds the flag already
    cleared (-EAGAIN) leaves the mailbox as it was.  Once the take has
    succeeded the flag is cleared whether the copy to the caller then
    succeeds (the bytes are returned) or faults: the call then returns
    -EFAULT, with the bytes of the message that fitted before the fault in
    the user buffer.  The buffer itself is never changed by a read. *)
Theorem read_clears_flag_in_locked_take
  (w : world) (count room : N) (sig : bool) :
  mailbox_wf (mailbox w) ->
  exists r w',
    bbb_btn_chardev_read count room sig w = Some (r, w')
    /\ buffer (mailbox w') = buffer (mailbox w)
    /\ match r with
       | RSleeping => sig = false /\ has_event (mailbox w) = false /\ w' = w
       | RReturned ret data =>
           (ret = (- ERESTARTSYS)%Z /\ data = [] /\ sig = true
            /\ has_event (mailbox w) = false /\ w' = w)
           \/ (has_event (mailbox w) = true /\ has_event (mailbox w') = false
               /\ ((ret = Z.of_nat (length data)
                    /\ data = take (length data) (pending_message w))
                   \/ (ret = (- EFAULT)%Z
                       /\ data = take (N.to_nat room) (pending_message w)
                       /\ (room < N.of_nat (Nat.min (N.to_nat count)
                                              (length (pending_message w))))%N)))
       | _ => False
       end
    /\ (has_event (mailbox w) = false ->
        read_take (mailbox w) = Some (mailbox w, RReturned (- EAGAIN)%Z [])).
Proof.
  intros Hwf. rewrite (read_cases count room sig w Hwf).
  destruct (has_event (mailbox w)) eqn:Hev.
  - destruct (N.ltb_spec room
                (N.of_nat (Nat.min (N.to_nat count) (length (pending_message w)))))
      as [Hlt|Hge];
      eexists _, _; (split; [reflexivity|]); (split; [reflexivity|]);
      (split; [|discriminate]); right; (split; [reflexivity|]); (split; [reflexivity|]).
    + right. auto.
    + left. rewrite length_take.
      replace (Nat.min (Nat.min (N.to_nat count) (length (pending_message w)))
                       (length (pending_message w)))
        with (Nat.min (N.to_nat count) (length (pending_message w))) by lia.
      auto.
  - destruct sig; eexists _, _; (split; [reflexivity|]); (split; [reflexivity|]);
      (split; [|intros _; apply read_take_empty; exact Hev]).
    + left. auto.
    + auto.
Qed.

Lemma read_clears_flag_in_locked_take_witness :
  exists w w',
    bbb_chardev_push_event [x41; x0a] (bbb_btn_probe None 1 0 0 0) = Some w
    /\ mailbox_wf (mailbox w)
    /\ bbb_btn_chardev_read 2 1 false w = Some (RReturned (- EFAULT)%Z [x41], w')
    /\ has_event (mailbox w) = true /\ has_event (mailbox w') = false
    /\ buffer (mailbox w') = buffer (mailbox w).
Proof.
  destruct (push_event_wf [x41; x0a] (bbb_btn_probe None 1 0 0 0) eq_refl)
    as (w & Hp & Hwf & Hev & _ & Hm).
  destruct (read_clears_flag_in_locked_take w 2 1 false Hwf)
    as (r & w' & Hr & Hb & Hcase & _).
  exists w, w'. split; [exact Hp|]. split; [exact Hwf|].
  destruct r as [| | | | |ret data]; try contradiction.
  - destruct Hcase as (_ & He & _). congruence.
  - destruct Hcase as [(_ & _ & _ & He & _)|(_ & Hclr & Hdata)]; [congruence|].
    rewrite Hm in Hdata.
    destruct Hdata as [(Hret & Hd)|(-> & -> & _)].
    + exfalso.
      pose proof (read_cases 2 1 false w Hwf) as Hc.
      rewrite Hev, Hm, Hr in Hc. vm_compute in Hc. injection Hc as Hc1 Hc2 _.
      rewrite Hc1, Hc2 in Hret. vm_compute in Hret. discriminate.
    + split; [exact Hr|]. split; [exact Hev|]. split; [exact Hclr|exact Hb].
Defined.

(* ===================================================================== *)
(** ** What the operations leave alone *)
(* ===================================================================== *)

Lemma push_event_inv msg w w' :
  bbb_chardev_push_event msg w = Some w' ->
  exists buf,
    w' = wake_up_interruptible
           (upd_btn (set_chardev {| buffer := buf; has_event := true |}) w).
Proof.
  unfold bbb_chardev_push_event, mbind, option_bind.
  destruct (strncpy _ _ _) as [b1|]; [|discriminate].
  destruct (store _ _ _) as [b2|]; [|discriminate].
  intros [= <-]. eauto.
Qed.

Lemma read_take_inv cd cd' pc :
  read_take cd = Some (cd', pc) ->
  buffer cd' = buffer cd
  /\ (has_event cd' = has_event cd \/ (has_event cd = true /\ has_event cd' = false)).
Proof.
  unfold read_take, mbind, option_bind.
  destruct (has_event cd) eqn:Hev.
  - destruct (strlen _) as [n|]; [|discriminate].
    destruct (memcpy _ _ _) as [l1|]; [|discriminate].
    destruct (store _ _ _) as [l2|]; [|discriminate].
    intros [= <- <-]. auto.
  - intros [= <- <-]. auto.
Qed.

(** The settle pass up to the publish, when the level read equals the last
    accepted one. *)
Lemma debounce_work_same level dt1 dt2 dt3 w :
  level = last_state (btn w) ->
  bbb_btn_debounce_work level dt1 dt2 dt3 w
  = bbb_chardev_push_event
      (snprintf 256 (event_text level (press_count (btn w))
                       (wrap64 (ktime w + Z.of_N dt1 + Z.of_N dt3))))
      (mk_world
         (mk_bbb_btn (press_count (btn w)) (last_event_ns (btn w)) (total_irqs (btn w))
            (atomic64_inc (work_executions (btn w))) (debounce_ms (btn w))
            (last_irq_time (btn w)) (debounce_work (btn w)) (last_state (btn w))
            false (chardev (btn w)))
         (ktime w + Z.of_N dt1 + Z.of_N dt3) (jiffies w) (calls w) (readers w) (bound w)).
Proof.
  intros ->. unfold bbb_btn_debounce_work.
  cbn [ktime_get_ns upd_btn set_ktime btn set_work_executions last_state].
  rewrite Z.eqb_refl. reflexivity.
Qed.

(** The settle pass up to the publish, when the level read differs. *)
Lemma debounce_work_changed level dt1 dt2 dt3 w :
  level <> last_state (btn w) ->
  bbb_btn_debounce_work level dt1 dt2 dt3 w
  = bbb_chardev_push_event
      (snprintf 256 (event_text level (atomic64_inc (press_count (btn w)))
                       (wrap64 (ktime w + Z.of_N dt1 + Z.of_N dt2 + Z.of_N dt3))))
      (mk_world
         (mk_bbb_btn (atomic64_inc (press_count (btn w)))
            (atomic64_set (ktime w + Z.of_N dt1 + Z.of_N dt2)) (total_irqs (btn w))
            (atomic64_inc (atomic64_inc (work_executions (btn w)))) (debounce_ms (btn w))
            (last_irq_time (btn w)) (debounce_work (btn w)) level
            false (chardev (btn w)))
         (ktime w + Z.of_N dt1 + Z.of_N dt2 + Z.of_N dt3) (jiffies w)
         ((calls w ++ [CallInputReportKey KEY_ENTER (lnot level)]) ++ [CallInputSync])
         (readers w) (bound w)).
Proof.
  intros Hne. unfold bbb_btn_debounce_work.
  cbn [ktime_get_ns upd_btn set_ktime btn set_work_executions last_state].
  destruct (Z.eqb_spec level (last_state (btn w))) as [Heq|_]; [contradiction|].
  reflexivity.
Qed.

Lemma input_calls_app w cs :
  filter (fun c => is_input_call c = true) (calls w ++ cs)
  = input_calls w ++ filter (fun c => is_input_call c = true) cs.
Proof. unfold input_calls. apply filter_app. Qed.

(* ===================================================================== *)
(** ** Claims about the settle pass *)
(* ===================================================================== *)

(** What a settle pass does when the level read equals the last accepted
    level: the settle-pass counter alone moves, the accepted level stays and
    the input core is not called, yet the pass formats a message and
    publishes it. *)
Lemma settle_pass_same_level (w : world) (level : Z) (dt1 dt2 dt3 : N) :
  level = last_state (btn w) ->
  length (buffer (mailbox w)) = BUF_SIZE ->
  exists w', bbb_btn_debounce_work level dt1 dt2 dt3 w = Some w'
    /\ press_count (btn w') = press_count (btn w)
    /\ last_event_ns (btn w') = last_event_ns (btn w)
    /\ total_irqs (btn w') = total_irqs (btn w)
    /\ work_executions (btn w') = atomic64_inc (work_executions (btn w))
    /\ last_state (btn w') = last_state (btn w)
    /\ input_calls w' = input_calls w
    /\ calls w' = calls w ++ [CallWakeUp]
    /\ has_event (mailbox w') = true.
Proof.
  intros Hsame Hlen. rewrite (debounce_work_same _ _ dt2 _ _ Hsame).
  rewrite push_event_eq by exact Hlen.
  eexists. split; [reflexivity|]. unfold input_calls. project_world.
  repeat split. rewrite filter_app. cbn. apply app_nil_r.
Qed.

(** C1, at a failing input: the line was high at binding time and the
    settle pass reads it high again.  The pass leaves the accepted level and
    the press counter alone, and still publishes: the flag goes from false
    to true, the mailbox holds a "released" message and the readers are
    woken. *)
Theorem settle_pass_same_level_publishes :
  let w := bbb_btn_probe None 1 1000 0 1 in
  exists w',
    bbb_btn_debounce_work 1 5 5 5 w = Some w'
    /\ last_state (btn w) = 1%Z /\ last_state (btn w') = 1%Z
    /\ press_count (btn w') = press_count (btn w)
    /\ has_event (mailbox w) = false
    /\ has_event (mailbox w') = true
    /\ pending_message w'
       = list_byte_of_string "button released: count=0 time=1010" ++ [x0a]
    /\ calls w' = [CallWakeUp].
Proof.
  eexists. split; [vm_compute; reflexivity|].
  repeat split.
Qed.

(** C6.  A settle pass that reads a level other than the last accepted one
    accepts the new level, increments the press counter, stores the clock
    reading taken at that moment in [last_event_ns], and calls the input
    core exactly twice: one key report for KEY_ENTER whose value is the
    negated level (1 exactly when the level is 0), then one sync. *)
Theorem settle_pass_confirms_level_change (w : world) (level : Z) (dt1 dt2 dt3 : N) :
  level <> last_state (btn w) ->
  length (buffer (mailbox w)) = BUF_SIZE ->
  exists w', bbb_btn_debounce_work level dt1 dt2 dt3 w = Some w'
    /\ last_state (btn w') = level
    /\ press_count (btn w') = atomic64_inc (press_count (btn w))
    /\ last_event_ns (btn w') = atomic64_set (ktime w + Z.of_N dt1 + Z.of_N dt2)
    /\ input_calls w'
       = input_calls w ++ [CallInputReportKey KEY_ENTER (lnot level); CallInputSync]
    /\ calls w'
       = calls w ++ [CallInputReportKey KEY_ENTER (lnot level); CallInputSync; CallWakeUp]
    /\ (lnot level = 1%Z <-> level = 0%Z).
Proof.
  intros Hne Hlen. rewrite (debounce_work_changed _ dt1 dt2 dt3 _ Hne).
  rewrite push_event_eq by exact Hlen.
  eexists. split; [reflexivity|]. unfold input_calls. project_world.
  split; [reflexivity|]. split; [reflexivity|]. split; [reflexivity|].
  split; [|split].
  - rewrite !filter_app. cbn. rewrite app_nil_r, <- app_assoc. reflexivity.
  - rewrite <- !app_assoc. reflexivity.
  - unfold lnot. destruct (Z.eqb_spec level 0); split; intros; congruence.
Qed.

Lemma settle_pass_confirms_level_change_witness :
  exists w',
    bbb_btn_debounce_work 0 5 5 5 (bbb_btn_probe None 1 1000 0 1) = Some w'
    /\ last_state (btn w') = 0%Z
    /\ press_count (btn w') = 1%Z
    /\ last_event_ns (btn w') = 1010%Z
    /\ input_calls w' = [CallInputReportKey KEY_ENTER 1; CallInputSync].
Proof.
  destruct (settle_pass_confirms_level_change (bbb_btn_probe None 1 1000 0 1) 0 5 5 5)
    as (w' & Hw & Hl & Hp & Ht & Hi & _).
  - discriminate.
  - reflexivity.
  - exists w'. split; [exact Hw|]. split; [exact Hl|].
    split; [rewrite Hp; reflexivity|]. split; [rewrite Ht; reflexivity|].
    rewrite Hi. reflexivity.
Defined.

(* ===================================================================== *)
(** ** Frames of the operations *)
(* ===================================================================== *)

(** What a settle pass that returns has done to each field. *)
Lemma debounce_work_fields level dt1 dt2 dt3 w w1 :
  bbb_btn_debounce_work level dt1 dt2 dt3 w = Some w1 ->
  total_irqs (btn w1) = total_irqs (btn w)
  /\ debounce_work (btn w1) = debounce_work (btn w)
  /\ debounce_ms (btn w1) = debounce_ms (btn w)
  /\ jiffies w1 = jiffies w
  /\ bound w1 = bound w
  /\ has_event (mailbox w1) = true
  /\ readers w1 = wake <$> readers w
  /\ if decide (level = last_state (btn w)) then
       press_count (btn w1) = press_count (btn w)
       /\ last_event_ns (btn w1) = last_event_ns (btn w)
       /\ work_executions (btn w1) = atomic64_inc (work_executions (btn w))
       /\ ktime w1 = (ktime w + Z.of_N dt1 + Z.of_N dt3)%Z
     else
       press_count (btn w1) = atomic64_inc (press_count (btn w))
       /\ last_event_ns (btn w1) = atomic64_set (ktime w + Z.of_N dt1 + Z.of_N dt2)
       /\ work_executions (btn w1) = atomic64_inc (atomic64_inc (work_executions (btn w)))
       /\ ktime w1 = (ktime w + Z.of_N dt1 + Z.of_N dt2 + Z.of_N dt3)%Z.
Proof.
  destruct (decide (level = last_state (btn w))) as [Hsame|Hne].
  - rewrite (debounce_work_same _ dt1 dt2 dt3 _ Hsame). intros H.
    apply push_event_inv in H. destruct H as (buf & ->). project_world. repeat split.
  - rewrite (debounce_work_changed _ dt1 dt2 dt3 _ Hne). intros H.
    apply push_event_inv in H. destruct H as (buf & ->). project_world. repeat split.
Qed.

Section Machine.

Variable msecs_to_jiffies : Z -> Z.

(** Each step, read backwards. *)
Lemma step_inv a w w' :
  step msecs_to_jiffies a w = Some w' ->
  match a with
  | ATick dj => w' = set_jiffies (jiffies w + Z.of_N dj)%Z w
  | AIrq dt => bound w = true /\ w' = bbb_btn_irq msecs_to_jiffies dt w
  | ATimer =>
      bound w = true
      /\ exists dw, timer_fire (jiffies w) (debounce_work (btn w)) = Some dw
                    /\ w' = upd_btn (set_debounce_work dw) w
  | AWork level dt1 dt2 dt3 =>
      bound w = true /\ dw_running (debounce_work (btn w)) = true
      /\ exists w1, bbb_btn_debounce_work level dt1 dt2 dt3 w = Some w1
                    /\ w' = upd_btn (fun b => set_debounce_work
                                                (work_done (debounce_work b)) b) w1
  | ACall i count room sig =>
      exists r, readers w !! i = Some r
        /\ (r_pc r = RIdle \/ exists ret data, r_pc r = RReturned ret data)
        /\ w' = set_reader i (mk_reader count room
                                (read_wait (has_event (mailbox w)) sig)) w
  | AResume i =>
      exists r, readers w !! i = Some r /\ r_pc r = RWoken
        /\ w' = set_reader i (set_pc (read_wait (has_event (mailbox w)) false) r) w
  | ASignal i =>
      exists r, readers w !! i = Some r /\ (r_pc r = RSleeping \/ r_pc r = RWoken)
        /\ w' = set_reader i (set_pc (read_wait (has_event (mailbox w)) true) r) w
  | ATake i =>
      exists r cd pc, readers w !! i = Some r /\ r_pc r = RLocking
        /\ read_take (mailbox w) = Some (cd, pc)
        /\ w' = set_reader i (set_pc pc r) (upd_btn (set_chardev cd) w)
  | ADeliver i =>
      exists r len local_buf, readers w !! i = Some r
        /\ r_pc r = RDelivering len local_buf
        /\ w' = set_reader i (set_pc (read_deliver (r_count r) (r_room r) len local_buf) r) w
  | ARemove =>
      bound w = true /\ dw_running (debounce_work (btn w)) = false
      /\ w' = set_bound false
                (bbb_chardev_unregister
                   (upd_btn (set_debounce_work (cancel_delayed_work (debounce_work (btn w)))) w))
  end.
Proof.
  unfold mailbox.
  destruct a; cbn [step]; unfold mbind, option_bind.
  - intros [= <-]. reflexivity.
  - destruct (bound w); [|discriminate]. intros [= <-]. auto.
  - destruct (bound w); [|discriminate].
    destruct (timer_fire _ _) as [dw|]; [|discriminate]. intros [= <-]. eauto.
  - destruct (bound w); [|discriminate]. cbn [andb].
    destruct (dw_running _); [|discriminate].
    destruct (bbb_btn_debounce_work _ _ _ _ _) as [w1|]; [|discriminate].
    intros [= <-]. eauto.
  - destruct (readers w !! i) as [r|]; [|discriminate].
    destruct (r_pc r) eqn:Hpc; try discriminate; intros [= <-]; eauto 10.
  - destruct (readers w !! i) as [r|]; [|discriminate].
    destruct (r_pc r) eqn:Hpc; try discriminate; intros [= <-]; eauto 10.
  - destruct (readers w !! i) as [r|]; [|discriminate].
    destruct (r_pc r) eqn:Hpc; try discriminate; intros [= <-]; eauto 10.
  - destruct (readers w !! i) as [r|]; [|discriminate].
    destruct (r_pc r) eqn:Hpc; try discriminate.
    destruct (read_take _) as [[cd pc]|]; [|discriminate]. intros [= <-]. eauto 10.
  - destruct (readers w !! i) as [r|]; [|discriminate].
    destruct (r_pc r) eqn:Hpc; try discriminate; intros [= <-]; eauto 10.
  - destruct (bound w); [|discriminate].
    unfold bbb_btn_remove, cancel_delayed_work_sync, mbind, option_bind, fmap, option_fmap,
      option_map.
    project_world. destruct (dw_running _); [discriminate|]. intros [= <-]. auto.
Qed.


(** The phases of a read taken one after the other by a consumer that is
    not inside a read do what the uninterleaved read does. *)
Lemma read_phases_agree i r count room sig w :
  readers w !! i = Some r ->
  r_pc r = RIdle ->
  mailbox_wf (mailbox w) ->
  exists res w2,
    bbb_btn_chardev_read count room sig w = Some (res, w2)
    /\ run msecs_to_jiffies
         (if has_event (mailbox w)
          then [ACall i count room sig; ATake i; ADeliver i]
          else [ACall i count room sig]) w
       = Some (set_reader i (mk_reader count room res) w2).
Proof.
  intros Hr Hpc Hwf.
  assert (Hi : i < length (readers w)) by (eapply lookup_lt_Some; exact Hr).
  destruct (has_event (mailbox w)) eqn:Hev.
  - destruct (read_take_pending _ Hwf Hev) as (lb & Htk & _).
    unfold mailbox in *.
    unfold bbb_btn_chardev_read, read_wait, wait_event_interruptible.
    rewrite Hev, Htk. unfold mbind, option_bind. eexists _, _. split; [reflexivity|].
    cbn [run step]. unfold mbind, option_bind. rewrite Hr, Hpc.
    unfold read_wait, wait_event_interruptible. rewrite Hev.
    project_world. rewrite list_lookup_insert_eq by exact Hi.
    cbn [r_pc]. rewrite Htk.
    project_world. rewrite list_lookup_insert_eq by (rewrite length_insert; exact Hi).
    cbn [r_pc set_pc r_count r_room]. unfold set_reader, set_readers. project_world.
    rewrite !list_insert_insert_eq. reflexivity.
  - rewrite (read_empty count room sig w Hev). eexists _, _. split; [reflexivity|].
    cbn [run step]. unfold mbind, option_bind. rewrite Hr, Hpc.
    unfold mailbox in Hev. rewrite Hev.
    unfold read_wait, wait_event_interruptible. destruct sig; reflexivity.
Qed.

(** What an intake has done to each field. *)
Lemma irq_fields dt w :
  armed (bbb_btn_irq msecs_to_jiffies dt w)
  = [(jiffies w + msecs_to_jiffies (debounce_ms (btn w)))%Z]
  /\ work_pending (btn (bbb_btn_irq msecs_to_jiffies dt w)) = true
  /\ total_irqs (btn (bbb_btn_irq msecs_to_jiffies dt w)) = atomic64_inc (total_irqs (btn w))
  /\ press_count (btn (bbb_btn_irq msecs_to_jiffies dt w)) = press_count (btn w)
  /\ last_event_ns (btn (bbb_btn_irq msecs_to_jiffies dt w)) = last_event_ns (btn w)
  /\ work_executions (btn (bbb_btn_irq msecs_to_jiffies dt w)) = work_executions (btn w)
  /\ mailbox (bbb_btn_irq msecs_to_jiffies dt w) = mailbox w
  /\ ktime (bbb_btn_irq msecs_to_jiffies dt w) = (ktime w + Z.of_N dt)%Z
  /\ jiffies (bbb_btn_irq msecs_to_jiffies dt w) = jiffies w
  /\ debounce_ms (btn (bbb_btn_irq msecs_to_jiffies dt w)) = debounce_ms (btn w)
  /\ dw_running (debounce_work (btn (bbb_btn_irq msecs_to_jiffies dt w)))
     = dw_running (debounce_work (btn w))
  /\ readers (bbb_btn_irq msecs_to_jiffies dt w) = readers w
  /\ bound (bbb_btn_irq msecs_to_jiffies dt w) = bound w.
Proof. repeat split. Qed.

Lemma debounce_work_wf level dt1 dt2 dt3 w w1 :
  length (buffer (mailbox w)) = BUF_SIZE ->
  bbb_btn_debounce_work level dt1 dt2 dt3 w = Some w1 ->
  mailbox_wf (mailbox w1).
Proof.
  intros Hlen.
  destruct (decide (level = last_state (btn w))) as [Hsame|Hne];
    [rewrite (debounce_work_same _ dt1 dt2 dt3 _ Hsame)
    |rewrite (debounce_work_changed _ dt1 dt2 dt3 _ Hne)];
    match goal with
    | |- bbb_chardev_push_event ?msg ?w0 = _ -> _ =>
        destruct (push_event_wf msg w0 Hlen) as (w' & Hp & Hwf' & _)
    end;
    intros H; rewrite Hp in H; injection H as <-; exact Hwf'.
Qed.

Lemma clock_inv_later w w' :
  clock_inv w ->
  last_event_ns (btn w') = last_event_ns (btn w) ->
  (ktime w <= ktime w')%Z ->
  clock_inv w'.
Proof.
  intros (H0 & t & Ht & Hl) Hsame Hle. split; [lia|].
  exists t. split; [lia|]. congruence.
Qed.

Lemma clock_inv_stamp w w' t :
  clock_inv w ->
  (ktime w <= t <= ktime w')%Z ->
  last_event_ns (btn w') = wrap64 t ->
  clock_inv w'.
Proof.
  intros (H0 & _) Ht Hl. split; [lia|]. exists t. split; [lia|exact Hl].
Qed.

Lemma probe_inv prop level t0 j0 n : driver_inv (bbb_btn_probe prop level t0 j0 n).
Proof.
  split; [|split].
  - split; reflexivity.
  - cbn. lia.
  - split; [cbn; lia|]. exists 0%Z. split; [cbn; lia|reflexivity].
Qed.

Lemma step_inv_preserved a w w' :
  driver_inv w -> step msecs_to_jiffies a w = Some w' -> driver_inv w'.
Proof.
  intros (Hwf & Harm & Hclk) H. apply step_inv in H. destruct a.
  - subst w'. split; [exact Hwf|]. split; [exact Harm|]. exact Hclk.
  - destruct H as [_ ->].
    destruct (irq_fields dt w) as (Ha & _ & _ & _ & Hl & _ & Hm & Hk & _).
    split; [rewrite Hm; exact Hwf|]. split; [rewrite Ha; cbn; lia|].
    apply (clock_inv_later w); [exact Hclk|exact Hl|lia].
  - destruct H as (_ & dw & Hf & ->). unfold timer_fire in Hf.
    unfold driver_inv, armed in *. project_world.
    split; [exact Hwf|]. split; [|exact Hclk].
    destruct (dw_timers (debounce_work (btn w))) as [|e rest]; [discriminate|].
    destruct (_ && _); [|discriminate]. injection Hf as <-. cbn in *. lia.
  - destruct H as (_ & _ & w1 & Hw & ->).
    pose proof (debounce_work_wf _ _ _ _ _ _ (proj1 Hwf) Hw) as Hwf1.
    destruct (debounce_work_fields _ _ _ _ _ _ Hw) as (_ & Hdw & _ & _ & _ & _ & _ & Hc).
    split; [exact Hwf1|]. split.
    + unfold armed in *. project_world. cbn [work_done dw_timers]. rewrite Hdw. exact Harm.
    + destruct (decide (level = last_state (btn w))).
      * destruct Hc as (_ & Hl & _ & Hk).
        apply (clock_inv_later w); [exact Hclk|exact Hl|]. project_world. lia.
      * destruct Hc as (_ & Hl & _ & Hk).
        apply (clock_inv_stamp w _ (ktime w + Z.of_N dt1 + Z.of_N dt2)%Z);
          [exact Hclk| |exact Hl].
        project_world. lia.
  - destruct H as (r & _ & _ & ->). split; [exact Hwf|]. split; [exact Harm|exact Hclk].
  - destruct H as (r & _ & _ & ->). split; [exact Hwf|]. split; [exact Harm|exact Hclk].
  - destruct H as (r & _ & _ & ->). split; [exact Hwf|]. split; [exact Harm|exact Hclk].
  - destruct H as (r & cd & pc & _ & _ & Htk & ->).
    apply read_take_inv in Htk. destruct Htk as [Hb _].
    split; [|split; [exact Harm|exact Hclk]].
    unfold mailbox_wf, mailbox in *. project_world. rewrite Hb. exact Hwf.
  - destruct H as (r & len & lb & _ & _ & ->).
    split; [exact Hwf|]. split; [exact Harm|exact Hclk].
  - destruct H as (_ & _ & ->). split; [exact Hwf|]. split; [|exact Hclk].
    cbn. lia.
Qed.

Lemma reachable_inv w : reachable msecs_to_jiffies w -> driver_inv w.
Proof.
  induction 1 as [prop level t0 j0 n|a w w' _ IH Hstep].
  - apply probe_inv.
  - exact (step_inv_preserved a w w' IH Hstep).
Qed.

Lemma run_app tr1 tr2 w :
  run msecs_to_jiffies (tr1 ++ tr2) w
  = run msecs_to_jiffies tr1 w ≫= run msecs_to_jiffies tr2.
Proof.
  revert w. induction tr1 as [|a tr1 IH]; intros w; [reflexivity|].
  cbn [app run]. unfold mbind, option_bind in *.
  destruct (step msecs_to_jiffies a w) as [w1|]; [apply IH|reflexivity].
Qed.

Lemma run_reachable tr w w' :
  reachable msecs_to_jiffies w -> run msecs_to_jiffies tr w = Some w' ->
  reachable msecs_to_jiffies w'.
Proof.
  revert w. induction tr as [|a tr IH]; intros w Hr; cbn [run].
  - intros [= <-]. exact Hr.
  - unfold mbind, option_bind.
    destruct (step msecs_to_jiffies a w) as [w1|] eqn:Hs; [|discriminate].
    apply IH. exact (reach_step _ a w w1 Hr Hs).
Qed.

(* ===================================================================== *)
(** ** Claims about the intake and the timer *)
(* ===================================================================== *)

(** C8.  In every world a binding can be in at most one settle-pass timer
    is armed.  An intake leaves exactly one, expiring one configured quiet
    interval after the intake, whatever was armed before; a second intake
    [dj] jiffies later replaces that timer by one counted from the second
    intake. *)
Theorem intake_keeps_single_timer (w : world) (dt dt' dj : N) :
  reachable msecs_to_jiffies w ->
  length (armed w) <= 1
  /\ armed (bbb_btn_irq msecs_to_jiffies dt w)
     = [(jiffies w + msecs_to_jiffies (debounce_ms (btn w)))%Z]
  /\ armed (bbb_btn_irq msecs_to_jiffies dt'
              (set_jiffies (jiffies w + Z.of_N dj)%Z (bbb_btn_irq msecs_to_jiffies dt w)))
     = [(jiffies w + Z.of_N dj + msecs_to_jiffies (debounce_ms (btn w)))%Z].
Proof.
  intros Hr. split; [|split].
  - apply reachable_inv in Hr. apply Hr.
  - apply irq_fields.
  - reflexivity.
Qed.

(* ===================================================================== *)
(** ** Claims about the counters *)
(* ===================================================================== *)

Lemma atomic64_inc_ge v : (v < INT64_MAX)%Z -> (v <= atomic64_inc v)%Z.
Proof.
  intros Hlt. unfold atomic64_inc.
  destruct (Z_lt_le_dec v INT64_MIN) as [Hlow|Hin].
  - pose proof (wrap64_range (v + 1)). lia.
  - rewrite wrap64_id; unfold INT64_MIN, INT64_MAX in *; lia.
Qed.

Lemma atomic64_inc_twice_ge v : (v < INT64_MAX - 1)%Z -> (v <= atomic64_inc (atomic64_inc v))%Z.
Proof.
  intros Hlt. rewrite atomic64_inc_twice.
  destruct (Z_lt_le_dec v INT64_MIN) as [Hlow|Hin].
  - pose proof (wrap64_range (v + 2)). lia.
  - rewrite wrap64_id; unfold INT64_MIN, INT64_MAX in *; lia.
Qed.

Lemma counters_le_refl w w' :
  press_count (btn w') = press_count (btn w) ->
  last_event_ns (btn w') = last_event_ns (btn w) ->
  total_irqs (btn w') = total_irqs (btn w) ->
  work_executions (btn w') = work_executions (btn w) ->
  counters_le w w'.
Proof. intros H1 H2 H3 H4. unfold counters_le. rewrite H1, H2, H3, H4. lia. Qed.

(** C9, amended.  In every world a binding can be in, an operation taken
    while the incremented counters are below the signed 64-bit maximum
    (two below it for the settle-pass counter) and the monotonic clock
    still fits 63 bits leaves every one of the four counters unchanged or
    larger.  This holds of every step of the interleaved contexts (intake,
    timer expiry, settle pass, each phase of a read, teardown) and of a
    publish and an uninterleaved read called directly. *)
Theorem counters_monotonic_below_wrap (a : action) (w w' : world) :
  reachable msecs_to_jiffies w ->
  step msecs_to_jiffies a w = Some w' ->
  below_wrap w ->
  (ktime w' <= INT64_MAX)%Z ->
  counters_le w w'
  /\ (forall msg w2, bbb_chardev_push_event msg w = Some w2 -> counters_le w w2)
  /\ (forall count room sig r w2,
        bbb_btn_chardev_read count room sig w = Some (r, w2) -> counters_le w w2).
Proof.
  intros Hr Hs (Hp & Hi & Hx) Hk. split; [|split].
  - apply reachable_inv in Hr. destruct Hr as (_ & _ & Hclk).
    apply step_inv in Hs. destruct a.
    + subst w'. apply counters_le_refl; reflexivity.
    + destruct Hs as [_ ->].
      destruct (irq_fields dt w) as (_ & _ & Hti & Hpc & Hle & Hwe & _).
      unfold counters_le. rewrite Hti, Hpc, Hle, Hwe.
      pose proof (atomic64_inc_ge _ Hi). lia.
    + destruct Hs as (_ & dw & _ & ->). apply counters_le_refl; reflexivity.
    + destruct Hs as (_ & _ & w1 & Hw & ->).
      destruct (debounce_work_fields _ _ _ _ _ _ Hw) as (Hti & _ & _ & _ & _ & _ & _ & Hc).
      unfold counters_le. project_world. rewrite Hti.
      destruct (decide (level = last_state (btn w))).
      * destruct Hc as (-> & -> & -> & _).
        pose proof (atomic64_inc_ge (work_executions (btn w))). lia.
      * destruct Hc as (-> & -> & -> & Hk1).
        cbn [ktime upd_btn] in Hk. rewrite Hk1 in Hk.
        destruct Hclk as (H0 & t & Ht & ->).
        pose proof (atomic64_inc_ge _ Hp).
        pose proof (atomic64_inc_twice_ge _ Hx).
        unfold atomic64_set.
        rewrite (wrap64_id t) by (unfold INT64_MIN, INT64_MAX in *; lia).
        rewrite wrap64_id by (unfold INT64_MIN, INT64_MAX in *; lia).
        lia.
    + destruct Hs as (r & _ & _ & ->). apply counters_le_refl; reflexivity.
    + destruct Hs as (r & _ & _ & ->). apply counters_le_refl; reflexivity.
    + destruct Hs as (r & _ & _ & ->). apply counters_le_refl; reflexivity.
    + destruct Hs as (r & cd & pc & _ & _ & _ & ->). apply counters_le_refl; reflexivity.
    + destruct Hs as (r & len & lb & _ & _ & ->). apply counters_le_refl; reflexivity.
    + destruct Hs as (_ & _ & ->). apply counters_le_refl; reflexivity.
  - intros msg w2 H. apply push_event_inv in H. destruct H as (buf & ->).
    apply counters_le_refl; reflexivity.
  - intros count room sig r w2. unfold bbb_btn_chardev_read, mbind, option_bind.
    destruct (read_wait _ _); try (intros [= <- <-]; apply counters_le_refl; reflexivity).
    destruct (read_take _) as [[cd pc]|]; [|discriminate].
    destruct pc; intros [= <- <-]; apply counters_le_refl; reflexivity.
Qed.

(** Every value of the intake counter is reached by some run: [n] intakes
    after binding leave it at [n] in 64-bit arithmetic. *)
Lemma intakes_reach n :
  exists w, reachable msecs_to_jiffies w /\ bound w = true
            /\ total_irqs (btn w) = wrap64 (Z.of_nat n).
Proof.
  induction n as [|n (w & Hr & Hb & Ht)].
  - exists (bbb_btn_probe None 1 0 0 0). split; [constructor|]. split; reflexivity.
  - exists (bbb_btn_irq msecs_to_jiffies 0 w). split; [|split].
    + apply (reach_step _ (AIrq 0) w); [exact Hr|]. cbn [step]. rewrite Hb. reflexivity.
    + destruct (irq_fields 0 w) as (_ & _ & _ & _ & _ & _ & _ & _ & _ & _ & _ & _ & ->).
      exact Hb.
    + destruct (irq_fields 0 w) as (_ & _ & -> & _). rewrite Ht.
      unfold atomic64_inc. rewrite wrap64_add_l. f_equal. lia.
Qed.

Lemma counter_maximum_reachable :
  exists w, reachable msecs_to_jiffies w /\ bound w = true
            /\ total_irqs (btn w) = INT64_MAX.
Proof.
  destruct (intakes_reach (Z.to_nat INT64_MAX)) as (w & Hr & Hb & Ht).
  exists w. split; [exact Hr|]. split; [exact Hb|].
  rewrite Ht, Z2Nat.id by (unfold INT64_MAX; lia).
  apply wrap64_id. unfold INT64_MIN, INT64_MAX. lia.
Qed.

(** The settle-pass counter along a run, in 64-bit arithmetic. *)
Lemma run_work_executions tr w w' c :
  work_executions (btn w) = wrap64 c ->
  run msecs_to_jiffies tr w = Some w' ->
  work_executions (btn w')
  = wrap64 (c + Z.of_nat (passes tr + changes msecs_to_jiffies tr w)).
Proof.
  revert w c. induction tr as [|a tr IH]; intros w c Hc; cbn [run changes].
  - intros [= <-]. rewrite Hc. f_equal. cbn. lia.
  - unfold mbind, option_bind.
    destruct (step msecs_to_jiffies a w) as [w1|] eqn:Hs; [|discriminate].
    intros Hrun.
    assert (Hone : work_executions (btn w1)
                   = wrap64 (c + Z.of_nat ((if is_pass a then 1 else 0)
                                           + (if is_change a w then 1 else 0)))).
    { apply step_inv in Hs. destruct a; cbn [is_pass is_change];
        try (change (Z.of_nat (0 + 0)) with 0%Z; rewrite Z.add_0_r, <- Hc).
      - subst w1. reflexivity.
      - destruct Hs as [_ ->]. reflexivity.
      - destruct Hs as (_ & dw & _ & ->). reflexivity.
      - destruct Hs as (_ & _ & w2 & Hw & ->).
        destruct (debounce_work_fields _ _ _ _ _ _ Hw) as (_ & _ & _ & _ & _ & _ & _ & Hf).
        project_world.
        destruct (decide (level = last_state (btn w))) as [He|Hne].
        + destruct Hf as (_ & _ & -> & _). rewrite Hc.
          destruct (Z.eqb_spec level (last_state (btn w))); [|contradiction].
          unfold atomic64_inc. rewrite wrap64_add_l. reflexivity.
        + destruct Hf as (_ & _ & -> & _). rewrite Hc.
          destruct (Z.eqb_spec level (last_state (btn w))); [contradiction|].
          rewrite atomic64_inc_twice, wrap64_add_l. reflexivity.
      - destruct Hs as (r & _ & _ & ->). reflexivity.
      - destruct Hs as (r & _ & _ & ->). reflexivity.
      - destruct Hs as (r & _ & _ & ->). reflexivity.
      - destruct Hs as (r & cd & pc & _ & _ & _ & ->). reflexivity.
      - destruct Hs as (r & len & lb & _ & _ & ->). reflexivity.
      - destruct Hs as (_ & _ & ->). reflexivity. }
    rewrite (IH w1 _ Hone Hrun). f_equal.
    unfold passes. rewrite filter_cons.
    destruct (is_pass a); destruct (is_change a w);
      case_decide; try congruence; cbn [length]; lia.
Qed.

(** C10, amended.  After any run from binding the settle-pass counter
    holds, in 64-bit arithmetic, the number of settle passes plus the number
    of passes that saw a changed level, and exactly that number while it
    does not exceed the signed 64-bit maximum.  A settle pass that reads a
    changed level increments the counter twice: by 2 in 64-bit arithmetic,
    and by exactly 2 while the result does not exceed the maximum. *)
Theorem settle_pass_counts_twice_on_change
  (prop : option Z) (level0 : Z) (t0 : N) (j0 : Z) (n : nat)
  (tr : list action) (w : world) :
  run msecs_to_jiffies tr (bbb_btn_probe prop level0 t0 j0 n) = Some w ->
  work_executions (btn w)
  = wrap64 (Z.of_nat (passes tr
                      + changes msecs_to_jiffies tr (bbb_btn_probe prop level0 t0 j0 n)))
  /\ ((Z.of_nat (passes tr
                 + changes msecs_to_jiffies tr (bbb_btn_probe prop level0 t0 j0 n))
       <= INT64_MAX)%Z ->
      work_executions (btn w)
      = Z.of_nat (passes tr
                  + changes msecs_to_jiffies tr (bbb_btn_probe prop level0 t0 j0 n)))
  /\ forall level dt1 dt2 dt3 w',
       level <> last_state (btn w) ->
       bbb_btn_debounce_work level dt1 dt2 dt3 w = Some w' ->
       work_executions (btn w') = wrap64 (work_executions (btn w) + 2)
       /\ ((work_executions (btn w) + 2 <= INT64_MAX)%Z ->
           work_executions (btn w') = (work_executions (btn w) + 2)%Z).
Proof.
  intros Hrun.
  assert (H0 : work_executions (btn (bbb_btn_probe prop level0 t0 j0 n)) = wrap64 0)
    by reflexivity.
  pose proof (run_work_executions tr _ w 0%Z H0 Hrun) as Hwe.
  rewrite Z.add_0_l in Hwe.
  split; [exact Hwe|]. split.
  - intros Hle. rewrite Hwe. apply wrap64_id. unfold INT64_MIN, INT64_MAX in *. lia.
  - intros level dt1 dt2 dt3 w' Hne Hw.
    destruct (debounce_work_fields _ _ _ _ _ _ Hw) as (_ & _ & _ & _ & _ & _ & _ & Hf).
    destruct (decide (level = last_state (btn w))); [contradiction|].
    destruct Hf as (_ & _ & -> & _). rewrite atomic64_inc_twice.
    split; [reflexivity|]. intros Hle. apply wrap64_id.
    pose proof (wrap64_range
                  (Z.of_nat (passes tr
                             + changes msecs_to_jiffies tr
                                 (bbb_btn_probe prop level0 t0 j0 n)))) as Hrange.
    rewrite <- Hwe in Hrange. unfold INT64_MIN, INT64_MAX in *. lia.
Qed.

(* ===================================================================== *)
(** ** Claims about teardown *)
(* ===================================================================== *)

(** [bbb_btn_remove] does not return while a settle pass is in flight. *)
Lemma remove_waits_for_pass w :
  dw_running (debounce_work (btn w)) = true ->
  bbb_btn_remove w = None /\ step msecs_to_jiffies ARemove w = None.
Proof.
  intros Hrun. unfold step, bbb_btn_remove, cancel_delayed_work_sync.
  rewrite Hrun. split; [reflexivity|]. destruct (bound w); reflexivity.
Qed.

(** When it returns, no timer is armed and every sleeper has been woken. *)
Lemma remove_returns w :
  dw_running (debounce_work (btn w)) = false ->
  exists w', bbb_btn_remove w = Some w'
    /\ armed w' = []
    /\ readers w' = wake <$> readers w
    /\ mailbox w' = mailbox w.
Proof.
  intros Hrun. unfold bbb_btn_remove, cancel_delayed_work_sync. rewrite Hrun.
  eexists. split; [reflexivity|]. repeat split.
Qed.

(** Once the driver is unbound with no event pending, a consumer inside
    the wait of its read stays there through every run that delivers it no
    signal. *)
Lemma unbound_reader_stays_blocked tr w w' i r :
  bound w = false ->
  has_event (mailbox w) = false ->
  readers w !! i = Some r ->
  blocked (r_pc r) ->
  Forall (fun a => a <> ASignal i) tr ->
  run msecs_to_jiffies tr w = Some w' ->
  exists r', readers w' !! i = Some r' /\ blocked (r_pc r')
             /\ bound w' = false /\ has_event (mailbox w') = false.
Proof.
  revert w r. induction tr as [|a tr IH]; intros w r Hb Hev Hr Hbl Hq; cbn [run].
  - intros [= <-]. eauto.
  - unfold mbind, option_bind.
    destruct (step msecs_to_jiffies a w) as [w1|] eqn:Hs; [|discriminate].
    apply Forall_cons in Hq. destruct Hq as [Ha Hq].
    assert (Hi : i < length (readers w)) by (eapply lookup_lt_Some; exact Hr).
    apply step_inv in Hs.
    assert (Hnext : exists r1, readers w1 !! i = Some r1 /\ blocked (r_pc r1)
                               /\ bound w1 = false /\ has_event (mailbox w1) = false).
    { destruct a.
      - subst w1. eauto.
      - destruct Hs as [Hs _]. congruence.
      - destruct Hs as [Hs _]. congruence.
      - destruct Hs as [Hs _]. congruence.
      - destruct Hs as (r0 & Hr0 & Hpc & ->). project_world.
        destruct (decide (i0 = i)) as [->|Hne].
        + rewrite Hr in Hr0. injection Hr0 as <-.
          destruct Hbl as [Hbl|Hbl]; rewrite Hbl in Hpc;
            destruct Hpc as [Hpc|(? & ? & Hpc)]; discriminate.
        + rewrite list_lookup_insert_ne by exact Hne. eauto.
      - destruct Hs as (r0 & Hr0 & Hpc & ->). project_world.
        destruct (decide (i0 = i)) as [->|Hne].
        + rewrite list_lookup_insert_eq by exact Hi. eexists. split; [reflexivity|].
          rewrite Hev. cbn. unfold blocked. auto.
        + rewrite list_lookup_insert_ne by exact Hne. eauto.
      - destruct Hs as (r0 & Hr0 & Hpc & ->). project_world.
        destruct (decide (i0 = i)) as [->|Hne]; [contradiction|].
        rewrite list_lookup_insert_ne by exact Hne. eauto.
      - destruct Hs as (r0 & cd & pc & Hr0 & Hpc & Htk & ->).
        rewrite (read_take_empty _ Hev) in Htk. injection Htk as <- <-. project_world.
        destruct (decide (i0 = i)) as [->|Hne].
        + rewrite Hr in Hr0. injection Hr0 as <-.
          destruct Hbl as [Hbl|Hbl]; rewrite Hbl in Hpc; discriminate.
        + rewrite list_lookup_insert_ne by exact Hne. eauto.
      - destruct Hs as (r0 & len & lb & Hr0 & Hpc & ->). project_world.
        destruct (decide (i0 = i)) as [->|Hne].
        + rewrite Hr in Hr0. injection Hr0 as <-.
          destruct Hbl as [Hbl|Hbl]; rewrite Hbl in Hpc; discriminate.
        + rewrite list_lookup_insert_ne by exact Hne. eauto.
      - destruct Hs as [Hs _]. congruence. }
    destruct Hnext as (r1 & Hr1 & Hbl1 & Hb1 & Hev1).
    exact (IH w1 r1 Hb1 Hev1 Hr1 Hbl1 Hq).
Qed.

End Machine.

(* ===================================================================== *)
(** ** The claims at concrete inputs *)
(* ===================================================================== *)

Lemma intake_keeps_single_timer_witness :
  reachable msecs_to_jiffies_hz1000 (bbb_btn_probe None 1 0 100 0)
  /\ armed (bbb_btn_irq msecs_to_jiffies_hz1000 0
              (set_jiffies 105
                 (bbb_btn_irq msecs_to_jiffies_hz1000 0 (bbb_btn_probe None 1 0 100 0))))
     = [125%Z].
Proof.
  assert (Hr : reachable msecs_to_jiffies_hz1000 (bbb_btn_probe None 1 0 100 0))
    by constructor.
  split; [exact Hr|].
  destruct (intake_keeps_single_timer msecs_to_jiffies_hz1000 _ 0 0 5 Hr) as (_ & _ & H).
  exact H.
Defined.

(** C9, as stated, fails: with the intake counter at the signed 64-bit
    maximum the next intake wraps it to the minimum, so the counter
    decreases. *)
Lemma intake_wraps_counter_at_maximum :
  let w := upd_btn (set_total_irqs INT64_MAX) (bbb_btn_probe None 1 0 0 0) in
  exists w',
    step msecs_to_jiffies_hz1000 (AIrq 0) w = Some w'
    /\ total_irqs (btn w) = 9223372036854775807%Z
    /\ total_irqs (btn w') = (-9223372036854775808)%Z
    /\ (total_irqs (btn w') < total_irqs (btn w))%Z.
Proof.
  eexists. split; [vm_compute; reflexivity|].
  split; [reflexivity|]. split; reflexivity.
Qed.

Lemma counters_monotonic_below_wrap_witness :
  let w := bbb_btn_probe None 1 0 0 0 in
  below_wrap w
  /\ counters_le w (bbb_btn_irq msecs_to_jiffies_hz1000 5 w).
Proof.
  assert (Hb : below_wrap (bbb_btn_probe None 1 0 0 0)).
  { repeat split. }
  split; [exact Hb|].
  apply (counters_monotonic_below_wrap msecs_to_jiffies_hz1000 (AIrq 5)
           (bbb_btn_probe None 1 0 0 0)).
  - constructor.
  - reflexivity.
  - exact Hb.
  - vm_compute. discriminate.
Defined.

(** C10, as stated, fails: with the settle-pass counter one below the
    signed 64-bit maximum, a pass that reads a changed level wraps it to
    the minimum instead of raising it by 2. *)
Lemma settle_pass_wraps_counter_at_maximum :
  let w := upd_btn (set_work_executions (INT64_MAX - 1)) (bbb_btn_probe None 1 0 0 0) in
  exists w',
    bbb_btn_debounce_work 0 0 0 0 w = Some w'
    /\ last_state (btn w) = 1%Z
    /\ work_executions (btn w) = 9223372036854775806%Z
    /\ work_executions (btn w') = (-9223372036854775808)%Z
    /\ work_executions (btn w') <> (work_executions (btn w) + 2)%Z.
Proof.
  eexists. split; [vm_compute; reflexivity|].
  split; [reflexivity|]. split; [reflexivity|]. split; [reflexivity|].
  vm_compute. discriminate.
Qed.

Lemma settle_pass_counts_twice_on_change_witness :
  exists w,
    run msecs_to_jiffies_hz1000
      [AIrq 0; ATick 20; ATimer; AWork 0 1 1 1; AIrq 0; ATick 20; ATimer; AWork 0 1 1 1]
      (bbb_btn_probe None 1 0 0 0) = Some w
    /\ work_executions (btn w) = 3%Z.
Proof.
  destruct (run msecs_to_jiffies_hz1000
              [AIrq 0; ATick 20; ATimer; AWork 0 1 1 1; AIrq 0; ATick 20; ATimer; AWork 0 1 1 1]
              (bbb_btn_probe None 1 0 0 0)) as [w|] eqn:Hrun;
    [|vm_compute in Hrun; discriminate].
  exists w. split; [reflexivity|].
  destruct (settle_pass_counts_twice_on_change _ _ _ _ _ _ _ _ Hrun) as (_ & Hexact & _).
  rewrite Hexact; [vm_compute; reflexivity|vm_compute; discriminate].
Defined.

(** C5, at a failing input: one consumer sleeps in its read when the
    driver is removed.  Removal wakes it once; it evaluates its wait
    condition, finds no event and sleeps again.  The driver is unbound with
    the consumer still asleep, and no later run without a signal for it
    brings its read back. *)
Theorem teardown_leaves_reader_blocked :
  exists w,
    run msecs_to_jiffies_hz1000 [ACall 0 16 16 false; ARemove; AResume 0]
      (bbb_btn_probe None 1 0 0 1) = Some w
    /\ bound w = false
    /\ calls w = [CallWakeUp]
    /\ readers w = [mk_reader 16 16 RSleeping]
    /\ forall tr w',
         Forall (fun a => a <> ASignal 0) tr ->
         run msecs_to_jiffies_hz1000 tr w = Some w' ->
         exists r, readers w' !! 0 = Some r /\ blocked (r_pc r).
Proof.
  eexists. split; [vm_compute; reflexivity|].
  split; [reflexivity|]. split; [reflexivity|]. split; [reflexivity|].
  intros tr w' Hq Hrun.
  assert (H : exists r, readers w' !! 0 = Some r /\ blocked (r_pc r)
                        /\ bound w' = false /\ has_event (mailbox w') = false).
  { refine (unbound_reader_stays_blocked msecs_to_jiffies_hz1000 tr _ w' 0
              (mk_reader 16 16 RSleeping) _ _ _ _ Hq Hrun);
      [reflexivity|reflexivity|reflexivity|left; reflexivity]. }
  destruct H as (r & Hr & Hbl & _).
  exists r. split; assumption.
Qed.

(* ===================================================================== *)
(** ** Decimal text of 64-bit values *)
(* ===================================================================== *)

Lemma to_lu_iter_succ r m :
  DecimalPos.Unsigned.to_lu (Nat.iter r N.succ m)
  = Nat.iter r Decimal.Little.succ (DecimalPos.Unsigned.to_lu m).
Proof.
  induction r as [|r IH]; [reflexivity|].
  rewrite !DecimalPos.Unsigned.nat_iter_S, DecimalPos.Unsigned.to_lu_succ, IH.
  reflexivity.
Qed.

Lemma nb_digits_iter_succ r d :
  r < 10 ->
  Decimal.nb_digits (Nat.iter r Decimal.Little.succ (Decimal.D0 d))
  = S (Decimal.nb_digits d).
Proof.
  intros Hr. do 10 (destruct r as [|r]; [reflexivity|]). lia.
Qed.

(** The low digit and the rest. *)
Lemma to_lu_digits_step q r :
  (r < 10)%N ->
  Decimal.nb_digits (DecimalPos.Unsigned.to_lu (10 * q + r))
  = match q with
    | N0 => 1
    | Npos _ => S (Decimal.nb_digits (DecimalPos.Unsigned.to_lu q))
    end.
Proof.
  intros Hr. rewrite N.add_comm, DecimalPos.Unsigned.Nadd_alt, to_lu_iter_succ.
  destruct q as [|p].
  - change (DecimalPos.Unsigned.to_lu (10 * 0)) with (Decimal.D0 Decimal.Nil).
    rewrite nb_digits_iter_succ by lia. reflexivity.
  - rewrite DecimalPos.Unsigned.to_ldec_tenfold.
    apply nb_digits_iter_succ. lia.
Qed.

Lemma to_lu_digits_bound k n :
  (n < 10 ^ N.of_nat (S k))%N ->
  Decimal.nb_digits (DecimalPos.Unsigned.to_lu n) <= S k.
Proof.
  revert n. induction k as [|k IH]; intros n Hn.
  - rewrite (N.div_mod n 10) by discriminate.
    rewrite to_lu_digits_step by (apply N.mod_lt; discriminate).
    replace (n / 10)%N with 0%N; [lia|].
    symmetry. apply N.div_small. exact Hn.
  - rewrite (N.div_mod n 10) by discriminate.
    rewrite to_lu_digits_step by (apply N.mod_lt; discriminate).
    destruct (n / 10)%N as [|p] eqn:Hq; [lia|].
    apply le_n_S. rewrite <- Hq. apply IH.
    apply N.Div0.div_lt_upper_bound.
    replace (10 * 10 ^ N.of_nat (S k))%N with (10 ^ N.of_nat (S (S k)))%N; [exact Hn|].
    rewrite (Nat2N.inj_succ (S k)), N.pow_succ_r'. reflexivity.
Qed.

Lemma list_byte_of_string_cons c s :
  list_byte_of_string (String c s) = Ascii.byte_of_ascii c :: list_byte_of_string s.
Proof. reflexivity. Qed.

Lemma length_string_of_uint d :
  length (list_byte_of_string (NilEmpty.string_of_uint d)) = Decimal.nb_digits d.
Proof.
  induction d; cbn [NilEmpty.string_of_uint Decimal.nb_digits];
    [reflexivity| | | | | | | | | |];
    rewrite list_byte_of_string_cons; cbn [length]; rewrite IHd; reflexivity.
Qed.

Lemma string_of_uint_no_nul d :
  Forall (fun c => is_nul c = false) (list_byte_of_string (NilEmpty.string_of_uint d)).
Proof.
  induction d; cbn [NilEmpty.string_of_uint];
    [constructor| | | | | | | | | |];
    rewrite list_byte_of_string_cons; (constructor; [reflexivity|exact IHd]).
Qed.

Lemma string_of_pos p :
  NilZero.string_of_uint (Pos.to_uint p) = NilEmpty.string_of_uint (Pos.to_uint p).
Proof.
  pose proof (DecimalPos.Unsigned.to_uint_nonnil p) as Hn.
  unfold NilZero.string_of_uint. destruct (Pos.to_uint p); [contradiction|..]; reflexivity.
Qed.

Lemma length_pos_digits p :
  (Npos p < 10 ^ 19)%N ->
  1 <= length (list_byte_of_string (NilZero.string_of_uint (Pos.to_uint p))) <= 19.
Proof.
  intros Hp. rewrite string_of_pos, length_string_of_uint.
  unfold Pos.to_uint. rewrite DecimalFacts.nb_digits_rev.
  change (Pos.to_little_uint p) with (DecimalPos.Unsigned.to_lu (Npos p)).
  split.
  - pose proof (DecimalPos.Unsigned.to_uint_nonnil p) as Hn.
    unfold Pos.to_uint in Hn.
    destruct (Decimal.nb_digits (DecimalPos.Unsigned.to_lu (N.pos p))) eqn:E; [|lia].
    apply DecimalFacts.nb_digits_0 in E.
    change (DecimalPos.Unsigned.to_lu (N.pos p)) with (Pos.to_little_uint p) in E.
    rewrite E in Hn. contradiction.
  - apply (to_lu_digits_bound 18). exact Hp.
Qed.

(** ["%lld"] of a 64-bit value: 1 to 20 characters, none of them NUL. *)
Lemma fmt_lld_length v :
  (INT64_MIN <= v <= INT64_MAX)%Z -> 1 <= length (fmt_lld v) <= 20.
Proof.
  unfold INT64_MIN, INT64_MAX, fmt_lld. intros Hv.
  destruct v as [|p|p]; cbn [Z.to_int NilZero.string_of_int].
  - cbn. lia.
  - pose proof (length_pos_digits p) as H. lapply H; [lia|]. lia.
  - rewrite list_byte_of_string_cons. cbn [length].
    pose proof (length_pos_digits p) as H. lapply H; [lia|]. lia.
Qed.

Lemma fmt_lld_no_nul v : Forall (fun c => is_nul c = false) (fmt_lld v).
Proof.
  unfold fmt_lld. destruct v as [|p|p]; cbn [Z.to_int NilZero.string_of_int].
  - repeat constructor.
  - rewrite string_of_pos. apply string_of_uint_no_nul.
  - rewrite list_byte_of_string_cons. constructor; [reflexivity|].
    rewrite string_of_pos. apply string_of_uint_no_nul.
Qed.

Lemma cstring_no_nul_id s :
  Forall (fun c => is_nul c = false) s -> cstring s = s.
Proof.
  induction 1 as [|c s Hc _ IH]; cbn [cstring]; [reflexivity|].
  rewrite Hc, IH. reflexivity.
Qed.

(* ===================================================================== *)
(** ** The attribute files *)
(* ===================================================================== *)

Lemma parse_fmt_lld v : parse_lld (fmt_lld v ++ [x0a]) = Some v.
Proof.
  unfold parse_lld. rewrite reverse_snoc. cbv beta iota.
  rewrite reverse_involutive. unfold fmt_lld.
  rewrite string_of_list_byte_of_string, NilZero.isi.
  - cbn [fmap option_fmap option_map]. rewrite DecimalZ.of_to. reflexivity.
  - destruct v as [|p|p]; cbn [Z.to_int]; [discriminate| |discriminate].
    intros [= H]. exact (DecimalPos.Unsigned.to_uint_nonnil p H).
  - destruct v as [|p|p]; cbn [Z.to_int]; [discriminate|discriminate|].
    intros [= H]. exact (DecimalPos.Unsigned.to_uint_nonnil p H).
Qed.

Lemma sysfs_emit_lld_shows v : in_s64 v -> shows (sysfs_emit_lld v) v.
Proof.
  intros Hv. pose proof (fmt_lld_length v Hv) as Hlen.
  unfold shows, sysfs_emit_lld. cbn [fst snd].
  assert (Hall : take (PAGE_SIZE - 1) (fmt_lld v ++ [x0a]) = fmt_lld v ++ [x0a]).
  { apply take_ge. rewrite length_app. cbn [length]. unfold PAGE_SIZE. lia. }
  rewrite Hall. split; [reflexivity|]. split; [reflexivity|]. split.
  - rewrite length_app. cbn [length]. lia.
  - apply parse_fmt_lld.
Qed.

Section Attributes.

Variable msecs_to_jiffies : Z -> Z.

Lemma step_counters_in_range a w w' :
  counters_in_range (btn w) ->
  step msecs_to_jiffies a w = Some w' ->
  counters_in_range (btn w').
Proof.
  unfold counters_in_range, in_s64.
  intros (Hp & Hl & Hi & Hx) Hs. apply step_inv in Hs.
  destruct a;
    [subst w'
    |destruct Hs as [_ ->];
     destruct (irq_fields msecs_to_jiffies dt w) as (_ & _ & -> & -> & -> & -> & _)
    |destruct Hs as (_ & dw & _ & ->)
    |destruct Hs as (_ & _ & w1 & Hw & ->);
     destruct (debounce_work_fields _ _ _ _ _ _ Hw) as (Hti & _ & _ & _ & _ & _ & _ & Hc);
     project_world; rewrite Hti;
     destruct (decide (level = last_state (btn w))); destruct Hc as (-> & -> & -> & _)
    |destruct Hs as (r & _ & _ & ->)
    |destruct Hs as (r & _ & _ & ->)
    |destruct Hs as (r & _ & _ & ->)
    |destruct Hs as (r & cd & pc & _ & _ & _ & ->)
    |destruct Hs as (r & len & lb & _ & _ & ->)
    |destruct Hs as (_ & _ & ->)];
    (split; [|split; [|split]]); first [assumption | apply wrap64_range].
Qed.

Lemma reachable_counters_in_range w :
  reachable msecs_to_jiffies w -> counters_in_range (btn w).
Proof.
  induction 1 as [prop level t0 j0 n|a w w' _ IH Hstep].
  - unfold counters_in_range. repeat split; discriminate.
  - exact (step_counters_in_range a w w' IH Hstep).
Qed.

(** X1.  In every world a binding can be in, each of the four attribute
    files shows its counter: the text is the signed decimal of the counter
    followed by a newline, the value returned is the length of the text,
    between 2 and 21 bytes (so the page is never filled), and the text reads
    back as the value of the counter. *)
Theorem attribute_files_show_counters (w : world) :
  reachable msecs_to_jiffies w ->
  shows (press_count_show (btn w)) (press_count (btn w))
  /\ shows (last_event_ns_show (btn w)) (last_event_ns (btn w))
  /\ shows (total_irqs_show (btn w)) (total_irqs (btn w))
  /\ shows (work_executions_show (btn w)) (work_executions (btn w)).
Proof.
  intros Hr. destruct (reachable_counters_in_range w Hr) as (Hp & Hl & Hi & Hx).
  repeat split; apply sysfs_emit_lld_shows; assumption.
Qed.

End Attributes.

Lemma attribute_files_show_counters_witness :
  reachable msecs_to_jiffies_hz1000 (bbb_btn_probe None 1 1000 0 0)
  /\ shows (press_count_show (btn (bbb_btn_probe None 1 1000 0 0))) 0.
Proof.
  assert (Hr : reachable msecs_to_jiffies_hz1000 (bbb_btn_probe None 1 1000 0 0))
    by constructor.
  split; [exact Hr|].
  destruct (attribute_files_show_counters msecs_to_jiffies_hz1000 _ Hr) as (H & _).
  exact H.
Defined.

(* ===================================================================== *)
(** ** The published message *)
(* ===================================================================== *)

Lemma event_text_no_nul state count t :
  Forall (fun c => is_nul c = false) (event_text state count t).
Proof.
  unfold event_text. repeat apply Forall_app_2;
    try apply fmt_lld_no_nul; try (destruct (state =? 0)%Z); repeat constructor.
Qed.

Lemma event_text_length state count t :
  in_s64 count -> in_s64 t -> 31 <= length (event_text state count t) <= 70.
Proof.
  intros Hc Ht. pose proof (fmt_lld_length count Hc). pose proof (fmt_lld_length t Ht).
  unfold event_text. rewrite !length_app.
  change (length (list_byte_of_string "button ")) with 7.
  change (length (list_byte_of_string ": count=")) with 8.
  change (length (list_byte_of_string " time=")) with 6.
  change (length [x0a]) with 1.
  destruct (state =? 0)%Z.
  - change (length (list_byte_of_string "pressed")) with 7. lia.
  - change (length (list_byte_of_string "released")) with 8. lia.
Qed.

Lemma event_text_last state count t : last (event_text state count t) = Some x0a.
Proof.
  unfold event_text. rewrite !app_assoc. apply last_snoc.
Qed.

(** A text without NUL that fits goes through [snprintf] and the mailbox
    whole. *)
Lemma published_text_whole text :
  Forall (fun c => is_nul c = false) text ->
  length text <= BUF_SIZE - 1 ->
  take (BUF_SIZE - 1) (cstring (snprintf 256 text)) = text.
Proof.
  intros Hnn Hlen. unfold snprintf.
  change (256 - 1) with (BUF_SIZE - 1).
  rewrite (take_ge text) by exact Hlen.
  rewrite cstring_no_nul_id by exact Hnn. apply take_ge. exact Hlen.
Qed.

(** A settle pass on a mailbox of full size, with the press counter in
    range, publishes the whole line. *)
Lemma debounce_work_publishes_line (w : world) (level : Z) (dt1 dt2 dt3 : N) :
  length (buffer (mailbox w)) = BUF_SIZE ->
  in_s64 (press_count (btn w)) ->
  exists w',
    bbb_btn_debounce_work level dt1 dt2 dt3 w = Some w'
    /\ has_event (mailbox w') = true
    /\ pending_message w' = event_text level (press_count (btn w')) (wrap64 (ktime w'))
    /\ 31 <= length (pending_message w') <= 70
    /\ last (pending_message w') = Some x0a.
Proof.
  intros Hlen Hp.
  assert (Hfin : forall text w0 w',
            bbb_chardev_push_event (snprintf 256 text) w0 = Some w' ->
            length (buffer (mailbox w0)) = BUF_SIZE ->
            Forall (fun c => is_nul c = false) text ->
            31 <= length text <= 70 ->
            last text = Some x0a ->
            has_event (mailbox w') = true /\ pending_message w' = text
            /\ 31 <= length (pending_message w') <= 70
            /\ last (pending_message w') = Some x0a
            /\ press_count (btn w') = press_count (btn w0) /\ ktime w' = ktime w0).
  { intros text w0 w' Hpush Hl Hnn Hlt Hlast.
    destruct (push_event_wf (snprintf 256 text) w0 Hl) as (w2 & Hp2 & _ & Hev & _ & Hm).
    rewrite Hpush in Hp2. injection Hp2 as <-.
    rewrite published_text_whole in Hm by (try assumption; unfold BUF_SIZE; lia).
    rewrite Hm. split; [exact Hev|]. split; [reflexivity|]. split; [exact Hlt|].
    split; [exact Hlast|].
    apply push_event_inv in Hpush. destruct Hpush as (buf & ->). split; reflexivity. }
  destruct (decide (level = last_state (btn w))) as [Hsame|Hne].
  - rewrite (debounce_work_same _ dt1 dt2 dt3 _ Hsame).
    match goal with
    | |- exists w', bbb_chardev_push_event (snprintf 256 ?text) ?w0 = Some w' /\ _ =>
        destruct (push_event_wf (snprintf 256 text) w0 Hlen) as (w' & Hpush & _);
        destruct (Hfin text w0 w' Hpush Hlen (event_text_no_nul _ _ _)
                    (event_text_length _ _ _ Hp (wrap64_range _))
                    (event_text_last _ _ _))
          as (Hev & Hm & Hl2 & Hlast & Hpc & Hkt)
    end.
    exists w'. split; [exact Hpush|]. split; [exact Hev|].
    split; [|split; [exact Hl2|exact Hlast]].
    rewrite Hm, Hpc, Hkt. reflexivity.
  - rewrite (debounce_work_changed _ dt1 dt2 dt3 _ Hne).
    match goal with
    | |- exists w', bbb_chardev_push_event (snprintf 256 ?text) ?w0 = Some w' /\ _ =>
        destruct (push_event_wf (snprintf 256 text) w0 Hlen) as (w' & Hpush & _);
        destruct (Hfin text w0 w' Hpush Hlen (event_text_no_nul _ _ _)
                    (event_text_length _ _ _ (wrap64_range _) (wrap64_range _))
                    (event_text_last _ _ _))
          as (Hev & Hm & Hl2 & Hlast & Hpc & Hkt)
    end.
    exists w'. split; [exact Hpush|]. split; [exact Hev|].
    split; [|split; [exact Hl2|exact Hlast]].
    rewrite Hm, Hpc, Hkt. reflexivity.
Qed.

Section Message.

Variable msecs_to_jiffies : Z -> Z.

(** X2.  In every world a binding can be in, a settle pass returns and
    leaves in the mailbox the whole formatted line, never cut by [snprintf]
    or by the buffer: "button pressed" (level 0) or "button released",
    the press counter and the clock reading as the pass left them, 31 to 70
    bytes, the last one a newline. *)
Theorem settle_pass_message_complete (w : world) (level : Z) (dt1 dt2 dt3 : N) :
  reachable msecs_to_jiffies w ->
  exists w',
    bbb_btn_debounce_work level dt1 dt2 dt3 w = Some w'
    /\ has_event (mailbox w') = true
    /\ pending_message w' = event_text level (press_count (btn w')) (wrap64 (ktime w'))
    /\ 31 <= length (pending_message w') <= 70
    /\ last (pending_message w') = Some x0a.
Proof.
  intros Hr.
  destruct (reachable_inv _ _ Hr) as ((Hlen & _) & _ & _).
  destruct (reachable_counters_in_range _ _ Hr) as (Hp & _).
  apply debounce_work_publishes_line; [exact Hlen|exact Hp].
Qed.

End Message.

Lemma settle_pass_message_complete_witness :
  reachable msecs_to_jiffies_hz1000 (bbb_btn_probe None 1 1000 0 0)
  /\ exists w',
       bbb_btn_debounce_work 0 5 5 5 (bbb_btn_probe None 1 1000 0 0) = Some w'
       /\ last (pending_message w') = Some x0a.
Proof.
  assert (Hr : reachable msecs_to_jiffies_hz1000 (bbb_btn_probe None 1 1000 0 0))
    by constructor.
  split; [exact Hr|].
  destruct (settle_pass_message_complete msecs_to_jiffies_hz1000 _ 0 5 5 5 Hr)
    as (w' & Hw & _ & _ & _ & Hlast).
  exists w'. split; [exact Hw|exact Hlast].
Defined.

(* ===================================================================== *)
(** ** Binding and unbinding *)
(* ===================================================================== *)

Lemma release_head r held : release r (r :: held) = Some held.
Proof. cbn [release]. destruct (decide (r = r)); [reflexivity|contradiction]. Qed.

Lemma probe_struct_registered debounce level t0 j0 n :
  bbb_chardev_register (probe_struct debounce level t0 j0 n)
  = bbb_btn_probe debounce level t0 j0 n.
Proof. reflexivity. Qed.

(** The success path of [bbb_chardev_register]. *)
Lemma chardev_register_ok (env : register_env) (held : list resource) (w : world) :
  register_succeeds env ->
  Lifecycle.bbb_chardev_register env held w
  = Some (0%Z, with_chardev held, bbb_chardev_register w).
Proof.
  destruct env as [a c k d]. unfold Lifecycle.bbb_chardev_register, register_succeeds.
  cbn [alloc_chrdev_region_ret cdev_add_ret class_create_err device_create_err].
  intros (-> & -> & -> & ->).
  destruct (decide (0%Z <> 0%Z)) as [Hn|_]; [contradiction|]. reflexivity.
Qed.

(** The failure paths of [bbb_chardev_register]: each label gives back what
    was acquired before the jump. *)
Lemma chardev_register_fails (env : register_env) (held : list resource) (w : world) :
  ~ register_succeeds env ->
  exists ret, ret <> 0%Z
    /\ Lifecycle.bbb_chardev_register env held w = Some (ret, held, w).
Proof.
  destruct env as [a c k d]. unfold Lifecycle.bbb_chardev_register, register_succeeds.
  cbn [alloc_chrdev_region_ret cdev_add_ret class_create_err device_create_err].
  intros Hfail.
  destruct (decide (a <> 0%Z)) as [Ha|Ha].
  { exists a. split; [exact Ha|reflexivity]. }
  apply dec_stable in Ha.
  destruct (decide (c <> 0%Z)) as [Hc|Hc].
  { unfold Lifecycle.err_unregister. rewrite release_head.
    exists c. split; [exact Hc|reflexivity]. }
  apply dec_stable in Hc.
  destruct k as [e|].
  { unfold Lifecycle.err_cdev_del, Lifecycle.err_unregister.
    rewrite release_head. cbn [mbind option_bind]. rewrite release_head.
    exists (Z.neg e). split; [discriminate|reflexivity]. }
  destruct d as [e|].
  { unfold Lifecycle.err_class_destroy, Lifecycle.err_cdev_del, Lifecycle.err_unregister.
    rewrite release_head. cbn [mbind option_bind]. rewrite release_head.
    cbn [mbind option_bind]. rewrite release_head.
    exists (Z.neg e). split; [discriminate|reflexivity]. }
  exfalso. apply Hfail. auto.
Qed.

Lemma register_succeeds_dec (env : register_env) :
  register_succeeds env \/ ~ register_succeeds env.
Proof.
  unfold register_succeeds.
  destruct (decide (alloc_chrdev_region_ret env = 0%Z)); [|right; tauto].
  destruct (decide (cdev_add_ret env = 0%Z)); [|right; tauto].
  destruct (class_create_err env); [right; intros (_ & _ & ? & _); discriminate|].
  destruct (device_create_err env); [right; intros (_ & _ & _ & ?); discriminate|].
  left. auto.
Qed.

(** [bbb_chardev_unregister] on a registered device. *)
Lemma chardev_unregister_registered (held : list resource) (w : world) :
  Lifecycle.bbb_chardev_unregister (with_chardev held) w
  = Some (held, wake_up_interruptible w).
Proof.
  unfold Lifecycle.bbb_chardev_unregister, with_chardev.
  rewrite release_head. cbn [mbind option_bind]. rewrite release_head.
  cbn [mbind option_bind]. rewrite release_head.
  cbn [mbind option_bind]. rewrite release_head. reflexivity.
Qed.

(** X3.  [bbb_chardev_register] always returns, and never gives back a
    resource it does not hold.  It returns 0 exactly when all four
    acquisitions succeed; then the four resources are held and the flag is
    cleared.  When it returns an error, every resource acquired on the way
    has been given back (the set held is as before the call) and the driver
    state is untouched. *)
Theorem chardev_register_all_or_nothing
  (env : register_env) (held : list resource) (w : world) :
  exists ret held' w',
    Lifecycle.bbb_chardev_register env held w = Some (ret, held', w')
    /\ (ret = 0%Z <-> register_succeeds env)
    /\ (ret = 0%Z -> held' = with_chardev held /\ w' = bbb_chardev_register w)
    /\ (ret <> 0%Z -> held' = held /\ w' = w).
Proof.
  destruct (register_succeeds_dec env) as [Hs|Hf].
  - exists 0%Z, (with_chardev held), (bbb_chardev_register w).
    split; [apply chardev_register_ok; exact Hs|].
    split; [split; auto|]. split; [auto|congruence].
  - destruct (chardev_register_fails env held w Hf) as (ret & Hret & Hreg).
    exists ret, held, w. split; [exact Hreg|].
    split; [split; [congruence|contradiction]|].
    split; [congruence|auto].
Qed.

(** X4.  After a registration that returned 0, [bbb_chardev_unregister]
    wakes the sleepers and gives back exactly the four resources the
    registration took; called with none of them held it fails on the first
    release. *)
Theorem chardev_unregister_undoes_register
  (env : register_env) (held held' : list resource) (w w' : world) :
  Lifecycle.bbb_chardev_register env held w = Some (0%Z, held', w') ->
  Lifecycle.bbb_chardev_unregister held' w' = Some (held, wake_up_interruptible w')
  /\ Lifecycle.bbb_chardev_unregister [] w' = None.
Proof.
  intros Hreg.
  assert (Hheld : held' = with_chardev held).
  { destruct (register_succeeds_dec env) as [Hs|Hf].
    - rewrite (chardev_register_ok env held w Hs) in Hreg. congruence.
    - destruct (chardev_register_fails env held w Hf) as (ret & Hret & Hr).
      rewrite Hr in Hreg. congruence. }
  subst held'. split; [|reflexivity].
  apply chardev_unregister_registered.
Qed.

Lemma chardev_unregister_undoes_register_witness :
  Lifecycle.bbb_chardev_unregister (with_chardev [])
    (bbb_btn_probe None 1 0 0 0)
  = Some ([], wake_up_interruptible (bbb_btn_probe None 1 0 0 0)).
Proof.
  exact (proj1 (chardev_unregister_undoes_register
                  (mk_register_env 0 0 None None) [] _
                  (probe_struct None 1 0 0 0) (bbb_btn_probe None 1 0 0 0) eq_refl)).
Defined.

(** X5.  [bbb_btn_probe] always returns, and never gives back a resource
    it does not hold.  It returns 0 exactly when every acquisition
    succeeds; the driver is then bound in the state [bbb_btn_probe] of the
    first part describes, holding the four resources of the character
    device.  When it returns an error there is no bound driver and the
    resources held are those held before the call: a character device
    registered on the way has been unregistered. *)
Theorem probe_all_or_nothing
  (env : probe_env) (t0 : N) (j0 : Z) (nreaders : nat) (held : list resource) :
  exists ret held' bound_driver,
    Lifecycle.bbb_btn_probe env t0 j0 nreaders held = Some (ret, held', bound_driver)
    /\ (ret = 0%Z <-> probe_succeeds env)
    /\ (ret = 0%Z ->
        held' = with_chardev held
        /\ bound_driver
           = Some (bbb_btn_probe (debounce_prop env) (gpio_level env) t0 j0 nreaders))
    /\ (ret <> 0%Z -> held' = held /\ bound_driver = None).
Proof.
  destruct env as [kz deb gp irq rq lvl ce ia ir].
  unfold Lifecycle.bbb_btn_probe, probe_succeeds.
  cbn [kzalloc_ok debounce_prop gpiod_err irq_number request_irq_ret gpio_level
       chardev_env input_allocate_ok input_register_ret].
  destruct kz; cbn [negb].
  2:{ eexists _, _, _. split; [reflexivity|].
      split; [split; [discriminate|intros (? & _); discriminate]|].
      split; [discriminate|auto]. }
  destruct gp as [e|].
  { eexists _, _, _. split; [reflexivity|].
    split; [split; [discriminate|intros (_ & ? & _); discriminate]|].
    split; [discriminate|auto]. }
  destruct (Z.ltb_spec irq 0) as [Hirq|Hirq].
  { eexists _, _, _. split; [reflexivity|].
    split; [split; [lia|intros (_ & _ & ? & _); lia]|].
    split; [lia|auto]. }
  destruct (decide (rq <> 0%Z)) as [Hrq|Hrq].
  { eexists _, _, _. split; [reflexivity|].
    split; [split; [congruence|intros (_ & _ & _ & ? & _); congruence]|].
    split; [congruence|auto]. }
  apply dec_stable in Hrq.
  destruct (register_succeeds_dec ce) as [Hce|Hce].
  2:{ destruct (chardev_register_fails ce held (probe_struct deb lvl t0 j0 nreaders) Hce)
        as (ret & Hret & Hreg).
      rewrite Hreg. cbn [mbind option_bind].
      destruct (decide (ret <> 0%Z)) as [_|Hz]; [|contradiction].
      eexists _, _, _. split; [reflexivity|].
      split; [split; [congruence|intros (_ & _ & _ & _ & Hs & _); contradiction]|].
      split; [congruence|auto]. }
  rewrite (chardev_register_ok ce held _ Hce). cbn [mbind option_bind].
  destruct (decide (0%Z <> 0%Z)) as [Hz|_]; [contradiction|].
  rewrite probe_struct_registered.
  pose proof (chardev_unregister_registered held) as Hun.
  destruct ia; cbn [negb].
  2:{ rewrite Hun. cbn [mbind option_bind].
      eexists _, _, _. split; [reflexivity|].
      split; [split; [discriminate|intros (_ & _ & _ & _ & _ & ? & _); discriminate]|].
      split; [discriminate|auto]. }
  destruct (decide (ir <> 0%Z)) as [Hir|Hir].
  { rewrite Hun. cbn [mbind option_bind].
    eexists _, _, _. split; [reflexivity|].
    split; [split; [congruence|intros (_ & _ & _ & _ & _ & _ & ?); congruence]|].
    split; [congruence|auto]. }
  apply dec_stable in Hir.
  eexists _, _, _. split; [reflexivity|].
  split; [split; [intros _|auto]|].
  { repeat (split; [first [reflexivity|assumption]|]). exact Hir. }
  split; [auto|congruence].
Qed.

(* ===================================================================== *)
(** ** The debounce engine along runs *)
(* ===================================================================== *)

Section Engine.

Variable msecs_to_jiffies : Z -> Z.

Lemma wake_not_sleeping rs : Forall (fun r => r_pc r <> RSleeping) (wake <$> rs).
Proof.
  apply Forall_fmap, Forall_forall. intros r _. unfold wake. cbn.
  destruct (r_pc r) eqn:E; cbn; congruence.
Qed.

(** Without an intake a step keeps the armed timer or drops it, and
    jiffies do not go back. *)
Lemma step_armed_without_intake a w w' e :
  is_intake a = false ->
  step msecs_to_jiffies a w = Some w' ->
  armed w = [e] \/ armed w = [] ->
  armed w' = [e] \/ armed w' = [].
Proof.
  intros Ha Hs Harm. apply step_inv in Hs. unfold armed in *. destruct a.
  - subst w'. exact Harm.
  - discriminate Ha.
  - destruct Hs as (_ & dw & Hf & ->). unfold timer_fire in Hf. project_world.
    destruct (dw_timers (debounce_work (btn w))) as [|e' rest]; [discriminate|].
    destruct (_ && _); [|discriminate]. injection Hf as <-. cbn [dw_timers].
    destruct Harm as [[= -> ->]|[=]]. auto.
  - destruct Hs as (_ & _ & w1 & Hw & ->).
    destruct (debounce_work_fields _ _ _ _ _ _ Hw) as (_ & Hdw & _).
    project_world. cbn [work_done dw_timers]. rewrite Hdw. exact Harm.
  - destruct Hs as (r & _ & _ & ->). exact Harm.
  - destruct Hs as (r & _ & _ & ->). exact Harm.
  - destruct Hs as (r & _ & _ & ->). exact Harm.
  - destruct Hs as (r & cd & pc & _ & _ & _ & ->). exact Harm.
  - destruct Hs as (r & len & lb & _ & _ & ->). exact Harm.
  - destruct Hs as (_ & _ & ->). right. reflexivity.
Qed.

Lemma run_armed_without_intake tr w w' e :
  Forall (fun a => is_intake a = false) tr ->
  run msecs_to_jiffies tr w = Some w' ->
  armed w = [e] \/ armed w = [] ->
  armed w' = [e] \/ armed w' = [].
Proof.
  revert w. induction tr as [|a tr IH]; intros w Hq; cbn [run].
  - intros [= <-]. auto.
  - unfold mbind, option_bind.
    destruct (step msecs_to_jiffies a w) as [w1|] eqn:Hs; [|discriminate].
    apply Forall_cons in Hq. destruct Hq as [Ha Hq]. intros Hrun Harm.
    apply (IH w1 Hq Hrun). exact (step_armed_without_intake a w w1 e Ha Hs Harm).
Qed.

(** X7.  Between an intake and the start of the next settle pass with no
    other intake in between, at least the configured quiet interval goes by:
    the pass starts no earlier than [msecs_to_jiffies(debounce_ms)] jiffies
    after the intake, and when it starts no timer is left armed. *)
Theorem settle_pass_waits_quiet_interval (w w' : world) (dt : N) (tr : list action) :
  Forall (fun a => is_intake a = false) tr ->
  run msecs_to_jiffies (AIrq dt :: tr ++ [ATimer]) w = Some w' ->
  (jiffies w + msecs_to_jiffies (debounce_ms (btn w)) <= jiffies w')%Z
  /\ armed w' = []
  /\ dw_running (debounce_work (btn w')) = true.
Proof.
  intros Hq. cbn [run]. unfold mbind at 1, option_bind.
  destruct (step msecs_to_jiffies (AIrq dt) w) as [w1|] eqn:Hs1; [|discriminate].
  rewrite run_app. unfold mbind at 1, option_bind.
  destruct (run msecs_to_jiffies tr w1) as [w2|] eqn:Hrun; [|discriminate].
  cbn [run]. unfold mbind, option_bind.
  destruct (step msecs_to_jiffies ATimer w2) as [w3|] eqn:Hs3; [|discriminate].
  intros [= <-].
  apply step_inv in Hs1. destruct Hs1 as [_ ->].
  destruct (irq_fields msecs_to_jiffies dt w) as (Ha & _).
  pose proof (run_armed_without_intake tr _ w2 _ Hq Hrun (or_introl Ha)) as Harm.
  apply step_inv in Hs3. destruct Hs3 as (_ & dw & Hf & ->).
  unfold timer_fire in Hf. unfold armed in *. project_world.
  destruct (dw_timers (debounce_work (btn w2))) as [|e rest]; [discriminate|].
  destruct (Z.leb_spec e (jiffies w2)) as [Hle|]; [|discriminate].
  destruct (negb _); [|discriminate]. injection Hf as <-. cbn [dw_timers dw_running].
  destruct Harm as [[= -> ->]|[=]]. auto.
Qed.

(** The press counter and the intake counter along a run, in 64-bit
    arithmetic. *)
Lemma run_press_and_intake_counts tr w w' cp ci :
  press_count (btn w) = wrap64 cp ->
  total_irqs (btn w) = wrap64 ci ->
  run msecs_to_jiffies tr w = Some w' ->
  press_count (btn w') = wrap64 (cp + Z.of_nat (changes msecs_to_jiffies tr w))
  /\ total_irqs (btn w') = wrap64 (ci + Z.of_nat (intakes tr)).
Proof.
  revert w cp ci. induction tr as [|a tr IH]; intros w cp ci Hp Hi; cbn [run changes].
  - intros [= <-]. rewrite Hp, Hi. unfold intakes. cbn. rewrite !Z.add_0_r. auto.
  - unfold mbind, option_bind.
    destruct (step msecs_to_jiffies a w) as [w1|] eqn:Hs; [|discriminate].
    intros Hrun.
    assert (Hone : press_count (btn w1)
                   = wrap64 (cp + (if is_change a w then 1 else 0))
                   /\ total_irqs (btn w1)
                      = wrap64 (ci + (if is_intake a then 1 else 0))).
    { apply step_inv in Hs. destruct a; cbn [is_change is_intake].
      - subst w1. rewrite !Z.add_0_r, <- Hp, <- Hi. auto.
      - destruct Hs as [_ ->].
        destruct (irq_fields msecs_to_jiffies dt w) as (_ & _ & -> & -> & _).
        rewrite Hp, Hi, Z.add_0_r. split; [reflexivity|].
        unfold atomic64_inc. apply wrap64_add_l.
      - destruct Hs as (_ & dw & _ & ->). rewrite !Z.add_0_r, <- Hp, <- Hi. auto.
      - destruct Hs as (_ & _ & w2 & Hw & ->).
        destruct (debounce_work_fields _ _ _ _ _ _ Hw)
          as (Hti & _ & _ & _ & _ & _ & _ & Hf).
        project_world. rewrite Hti, Hi, Z.add_0_r. split; [|reflexivity].
        destruct (decide (level = last_state (btn w))) as [He|Hne].
        + destruct Hf as (-> & _).
          destruct (Z.eqb_spec level (last_state (btn w))); [|contradiction].
          cbn [negb]. rewrite Z.add_0_r. exact Hp.
        + destruct Hf as (-> & _).
          destruct (Z.eqb_spec level (last_state (btn w))); [contradiction|].
          cbn [negb]. rewrite Hp. unfold atomic64_inc. apply wrap64_add_l.
      - destruct Hs as (r & _ & _ & ->). rewrite !Z.add_0_r, <- Hp, <- Hi. auto.
      - destruct Hs as (r & _ & _ & ->). rewrite !Z.add_0_r, <- Hp, <- Hi. auto.
      - destruct Hs as (r & _ & _ & ->). rewrite !Z.add_0_r, <- Hp, <- Hi. auto.
      - destruct Hs as (r & cd & pc & _ & _ & _ & ->).
        rewrite !Z.add_0_r, <- Hp, <- Hi. auto.
      - destruct Hs as (r & len & lb & _ & _ & ->).
        rewrite !Z.add_0_r, <- Hp, <- Hi. auto.
      - destruct Hs as (_ & _ & ->). rewrite !Z.add_0_r, <- Hp, <- Hi. auto. }
    destruct Hone as [Hp1 Hi1].
    destruct (IH w1 _ _ Hp1 Hi1 Hrun) as [-> ->].
    unfold intakes. rewrite filter_cons.
    split; f_equal.
    + destruct (is_change a w); lia.
    + destruct (is_intake a); case_decide; try congruence; cbn [length]; lia.
Qed.

(** X8.  After any run from binding the press counter holds the number of
    settle passes that read a level other than the last accepted one, and
    the intake counter the number of intakes, in 64-bit arithmetic and
    exactly while they do not exceed the signed 64-bit maximum: intakes and
    passes that read an unchanged level never move the press counter. *)
Theorem counters_count_events
  (prop : option Z) (level0 : Z) (t0 : N) (j0 : Z) (n : nat)
  (tr : list action) (w : world) :
  run msecs_to_jiffies tr (bbb_btn_probe prop level0 t0 j0 n) = Some w ->
  press_count (btn w)
  = wrap64 (Z.of_nat (changes msecs_to_jiffies tr (bbb_btn_probe prop level0 t0 j0 n)))
  /\ total_irqs (btn w) = wrap64 (Z.of_nat (intakes tr))
  /\ ((Z.of_nat (changes msecs_to_jiffies tr (bbb_btn_probe prop level0 t0 j0 n))
       <= INT64_MAX)%Z ->
      press_count (btn w)
      = Z.of_nat (changes msecs_to_jiffies tr (bbb_btn_probe prop level0 t0 j0 n)))
  /\ ((Z.of_nat (intakes tr) <= INT64_MAX)%Z ->
      total_irqs (btn w) = Z.of_nat (intakes tr)).
Proof.
  intros Hrun.
  assert (Hp0 : press_count (btn (bbb_btn_probe prop level0 t0 j0 n)) = wrap64 0)
    by reflexivity.
  assert (Hi0 : total_irqs (btn (bbb_btn_probe prop level0 t0 j0 n)) = wrap64 0)
    by reflexivity.
  destruct (run_press_and_intake_counts tr _ w 0%Z 0%Z Hp0 Hi0 Hrun) as [Hp Hi].
  rewrite Z.add_0_l in Hp, Hi.
  split; [exact Hp|]. split; [exact Hi|]. split; intros Hle.
  - rewrite Hp. apply wrap64_id. unfold INT64_MIN, INT64_MAX in *. lia.
  - rewrite Hi. apply wrap64_id. unfold INT64_MIN, INT64_MAX in *. lia.
Qed.

End Engine.

Lemma settle_pass_waits_quiet_interval_witness :
  exists w',
    run msecs_to_jiffies_hz1000 (AIrq 0 :: [ATick 25] ++ [ATimer])
      (bbb_btn_probe None 1 0 100 0) = Some w'
    /\ (120 <= jiffies w')%Z.
Proof.
  destruct (run msecs_to_jiffies_hz1000 (AIrq 0 :: [ATick 25] ++ [ATimer])
              (bbb_btn_probe None 1 0 100 0)) as [w'|] eqn:Hrun;
    [|vm_compute in Hrun; discriminate].
  exists w'. split; [reflexivity|].
  assert (Hq : Forall (fun a => is_intake a = false) [ATick 25])
    by (repeat constructor).
  destruct (settle_pass_waits_quiet_interval msecs_to_jiffies_hz1000 _ w' 0 [ATick 25]
              Hq Hrun) as (Hle & _).
  exact Hle.
Defined.

Lemma counters_count_events_witness :
  exists w,
    run msecs_to_jiffies_hz1000 [AIrq 0; AIrq 0; ATick 20; ATimer; AWork 0 1 1 1]
      (bbb_btn_probe None 1 0 0 0) = Some w
    /\ press_count (btn w) = 1%Z /\ total_irqs (btn w) = 2%Z.
Proof.
  destruct (run msecs_to_jiffies_hz1000 [AIrq 0; AIrq 0; ATick 20; ATimer; AWork 0 1 1 1]
              (bbb_btn_probe None 1 0 0 0)) as [w|] eqn:Hrun;
    [|vm_compute in Hrun; discriminate].
  exists w. split; [reflexivity|].
  destruct (counters_count_events _ _ _ _ _ _ _ _ Hrun) as (_ & _ & Hp & Hi).
  split.
  - rewrite Hp; [vm_compute; reflexivity|vm_compute; discriminate].
  - rewrite Hi; [vm_compute; reflexivity|vm_compute; discriminate].
Defined.

(* ===================================================================== *)
(** ** Consumers *)
(* ===================================================================== *)

Lemma reader_at_Some w i pc :
  reader_at w i = Some pc <-> exists r, readers w !! i = Some r /\ r_pc r = pc.
Proof.
  unfold reader_at. rewrite fmap_Some. split; intros (r & Hr & Hpc); eauto.
Qed.

Lemma read_take_pc cd cd' pc :
  read_take cd = Some (cd', pc) -> pc <> RSleeping.
Proof.
  unfold read_take, mbind, option_bind.
  destruct (has_event cd).
  - destruct (strlen _) as [n|]; [|discriminate].
    destruct (memcpy _ _ _) as [l1|]; [|discriminate].
    destruct (store _ _ _) as [l2|]; [|discriminate].
    intros [= <- <-]. discriminate.
  - intros [= <- <-]. discriminate.
Qed.

Section Consumers.

Variable msecs_to_jiffies : Z -> Z.

(** X11.  One event goes to one consumer: when two consumers have both
    passed the wait and an event is pending, the first to take the lock
    copies the message and clears the flag, and the second finds the flag
    cleared and returns -EAGAIN with no data. *)
Theorem event_taken_by_one_reader (w : world) (i j : nat) :
  i <> j ->
  reader_at w i = Some RLocking ->
  reader_at w j = Some RLocking ->
  mailbox_wf (mailbox w) ->
  has_event (mailbox w) = true ->
  exists w' local_buf,
    run msecs_to_jiffies [ATake i; ATake j] w = Some w'
    /\ reader_at w' i = Some (RDelivering (length (pending_message w)) local_buf)
    /\ take (length (pending_message w)) local_buf = pending_message w
    /\ reader_at w' j = Some (RReturned (- EAGAIN)%Z [])
    /\ has_event (mailbox w') = false.
Proof.
  intros Hij Hi Hj Hwf Hev.
  apply reader_at_Some in Hi. destruct Hi as (ri & Hri & Hpi).
  apply reader_at_Some in Hj. destruct Hj as (rj & Hrj & Hpj).
  assert (Hli : i < length (readers w)) by (eapply lookup_lt_Some; exact Hri).
  assert (Hlj : j < length (readers w)) by (eapply lookup_lt_Some; exact Hrj).
  destruct (read_take_pending _ Hwf Hev) as (lb & Htk & _ & _ & _ & Hpre).
  unfold mailbox in *. exists
    (set_reader j (set_pc (RReturned (- EAGAIN)%Z []) rj)
       (set_reader i (set_pc (RDelivering (length (pending_message w)) lb) ri)
          (upd_btn (set_chardev {| buffer := buffer (chardev (btn w));
                                   has_event := false |}) w))), lb.
  split; [|split; [|split; [exact Hpre|split]]].
  - cbn [run step]. unfold mbind, option_bind. rewrite Hri, Hpi, Htk.
    project_world. rewrite list_lookup_insert_ne by exact Hij. rewrite Hrj, Hpj.
    reflexivity.
  - unfold reader_at. project_world.
    rewrite list_lookup_insert_ne by (intros ->; contradiction).
    rewrite list_lookup_insert_eq by exact Hli. reflexivity.
  - unfold reader_at. project_world.
    rewrite list_lookup_insert_eq by (rewrite length_insert; exact Hlj). reflexivity.
  - reflexivity.
Qed.

End Consumers.

Lemma event_taken_by_one_reader_witness :
  exists w w',
    run msecs_to_jiffies_hz1000 [ACall 0 8 8 false; ACall 1 8 8 false] w = Some w'
    /\ reader_at w' 0 = Some RLocking /\ reader_at w' 1 = Some RLocking
    /\ exists w'',
         run msecs_to_jiffies_hz1000 [ATake 0; ATake 1] w' = Some w''
         /\ reader_at w'' 1 = Some (RReturned (- EAGAIN)%Z []).
Proof.
  destruct (bbb_chardev_push_event [x41; x0a] (bbb_btn_probe None 1 0 0 2))
    as [w|] eqn:Hw; [|vm_compute in Hw; discriminate].
  vm_compute in Hw. injection Hw as Hw.
  destruct (run msecs_to_jiffies_hz1000 [ACall 0 8 8 false; ACall 1 8 8 false] w)
    as [w'|] eqn:Hrun; [|subst w; vm_compute in Hrun; discriminate].
  exists w, w'. split; [exact Hrun|].
  assert (Hw' : reader_at w' 0 = Some RLocking /\ reader_at w' 1 = Some RLocking
                /\ mailbox_wf (mailbox w') /\ has_event (mailbox w') = true).
  { subst w. vm_compute in Hrun. injection Hrun as <-.
    repeat split. }
  destruct Hw' as (H0 & H1 & Hwf & Hev).
  split; [exact H0|]. split; [exact H1|].
  destruct (event_taken_by_one_reader msecs_to_jiffies_hz1000 w' 0 1
              ltac:(discriminate) H0 H1 Hwf Hev)
    as (w'' & lb & Hr & _ & _ & Hj & _).
  exists w''. split; [exact Hr|exact Hj].
Defined.

Section Delivery.

Variable msecs_to_jiffies : Z -> Z.

(** X12.  A consumer that calls read when no event is pending sleeps; the
    next settle pass wakes it, and when it runs again it takes the message
    that pass published: with room for 70 bytes it returns the whole line,
    newline included, and the flag is cleared. *)
Theorem blocked_reader_gets_next_event
  (w : world) (i : nat) (count room : N) (level : Z) (dt1 dt2 dt3 : N) :
  reachable msecs_to_jiffies w ->
  bound w = true ->
  dw_running (debounce_work (btn w)) = true ->
  reader_at w i = Some RIdle ->
  has_event (mailbox w) = false ->
  (70 <= count)%N -> (70 <= room)%N ->
  exists w1 w',
    step msecs_to_jiffies (ACall i count room false) w = Some w1
    /\ reader_at w1 i = Some RSleeping
    /\ run msecs_to_jiffies [AWork level dt1 dt2 dt3; AResume i; ATake i; ADeliver i] w1
       = Some w'
    /\ reader_at w' i
       = Some (RReturned (Z.of_nat (length (pending_message w'))) (pending_message w'))
    /\ last (pending_message w') = Some x0a
    /\ has_event (mailbox w') = false.
Proof.
  intros Hreach Hb Hrun Hi Hev Hcount Hroom.
  apply reader_at_Some in Hi. destruct Hi as (r & Hr & Hpc).
  assert (Hli : i < length (readers w)) by (eapply lookup_lt_Some; exact Hr).
  (* the call blocks *)
  assert (Hs1 : step msecs_to_jiffies (ACall i count room false) w
                = Some (set_reader i (mk_reader count room RSleeping) w)).
  { cbn [step]. unfold mbind, option_bind. rewrite Hr, Hpc.
    unfold mailbox in Hev. rewrite Hev. reflexivity. }
  set (w1 := set_reader i (mk_reader count room RSleeping) w) in *.
  assert (Hreach1 : reachable msecs_to_jiffies w1)
    by exact (reach_step _ _ _ _ Hreach Hs1).
  (* the pass publishes and wakes *)
  destruct (reachable_inv _ _ Hreach1) as ((Hbuf1 & _) & _ & _).
  destruct (debounce_work_publishes_line w1 level dt1 dt2 dt3 Hbuf1
              (proj1 (reachable_counters_in_range _ _ Hreach1)))
    as (w2 & Hw2 & Hev2 & Hm2 & Hlen2 & Hlast2).
  pose proof (debounce_work_wf _ _ _ _ _ _ Hbuf1 Hw2) as Hwf2.
  destruct (debounce_work_fields _ _ _ _ _ _ Hw2) as (_ & _ & _ & _ & Hb2 & _ & Hrd2 & _).
  assert (Hr2 : readers w2 !! i = Some (mk_reader count room RWoken)).
  { rewrite Hrd2, list_lookup_fmap. unfold w1. project_world.
    rewrite list_lookup_insert_eq by exact Hli. reflexivity. }
  assert (Hli2 : i < length (readers w2)) by (eapply lookup_lt_Some; exact Hr2).
  destruct (read_take_pending _ Hwf2 Hev2) as (lb & Htk & _ & _ & _ & Hpre).
  fold (pending_message w2) in Htk, Hpre.
  exists w1. eexists. split; [exact Hs1|]. split.
  { unfold reader_at, w1. project_world.
    rewrite list_lookup_insert_eq by exact Hli. reflexivity. }
  split.
  { cbn [run step]. unfold mbind at 1, option_bind.
    replace (bound w1) with true by (symmetry; exact Hb).
    replace (dw_running (debounce_work (btn w1))) with true by (symmetry; exact Hrun).
    cbn [andb]. rewrite Hw2. unfold mbind, option_bind. project_world.
    rewrite Hr2. cbn [r_pc set_pc r_count r_room].
    unfold mailbox in Hev2. rewrite Hev2.
    unfold read_wait, wait_event_interruptible. project_world.
    rewrite list_lookup_insert_eq by exact Hli2. cbn [r_pc set_pc].
    unfold mailbox in Htk. rewrite Htk. project_world.
    rewrite list_lookup_insert_eq by (rewrite length_insert; exact Hli2).
    cbn [r_pc set_pc r_count r_room].
    rewrite read_deliver_ok by (unfold pending_message, mailbox in *; lia).
    unfold mailbox in Hpre.
    replace (Nat.min (N.to_nat count) (length (cstring (buffer (chardev (btn w2))))))
      with (length (cstring (buffer (chardev (btn w2)))))
      by (unfold pending_message, mailbox in *; lia).
    rewrite Hpre. reflexivity. }
  unfold reader_at, pending_message, mailbox. project_world.
  rewrite list_lookup_insert_eq by (rewrite !length_insert; exact Hli2).
  split; [reflexivity|]. split; [exact Hlast2|reflexivity].
Qed.

End Delivery.

Lemma blocked_reader_gets_next_event_witness :
  exists w w1 w',
    run msecs_to_jiffies_hz1000 [AIrq 0; ATick 20; ATimer] (bbb_btn_probe None 1 0 0 1)
    = Some w
    /\ step msecs_to_jiffies_hz1000 (ACall 0 128 128 false) w = Some w1
    /\ run msecs_to_jiffies_hz1000 [AWork 0 1 1 1; AResume 0; ATake 0; ADeliver 0] w1
       = Some w'
    /\ reader_at w' 0
       = Some (RReturned (Z.of_nat (length (pending_message w'))) (pending_message w')).
Proof.
  destruct (run msecs_to_jiffies_hz1000 [AIrq 0; ATick 20; ATimer]
              (bbb_btn_probe None 1 0 0 1)) as [w|] eqn:Hw;
    [|vm_compute in Hw; discriminate].
  pose proof (run_reachable _ _ _ _ (reach_probe _ None 1 0 0 1) Hw) as Hreach.
  assert (Hfacts : bound w = true /\ dw_running (debounce_work (btn w)) = true
                   /\ reader_at w 0 = Some RIdle /\ has_event (mailbox w) = false).
  { vm_compute in Hw. injection Hw as <-. repeat split. }
  destruct Hfacts as (Hb & Hrun & Hi & Hev).
  destruct (blocked_reader_gets_next_event msecs_to_jiffies_hz1000 w 0 128 128 0 1 1 1
              Hreach Hb Hrun Hi Hev ltac:(vm_compute; discriminate)
              ltac:(vm_compute; discriminate))
    as (w1 & w' & Hs & _ & Hr & Hd & _).
  exists w, w1, w'. split; [reflexivity|]. split; [exact Hs|]. split; [exact Hr|exact Hd].
Defined.

(* ===================================================================== *)
(** ** The settle pass and the teardown among the other contexts *)
(* ===================================================================== *)

(** The settle pass is its pieces run one after the other. *)
Lemma debounce_work_pieces level dt1 dt2 dt3 w :
  bbb_btn_debounce_work level dt1 dt2 dt3 w
  = (let w1 := work_locked level dt2 (work_enter dt1 w) in
     w2 ← push_event_locked (work_format level dt3 w1).1 (work_format level dt3 w1).2;
     Some (wake_up_interruptible w2)).
Proof.
  unfold bbb_btn_debounce_work, work_enter, work_locked, work_format,
    bbb_chardev_push_event, push_event_locked.
  cbn [ktime_get_ns upd_btn set_ktime btn set_work_executions last_state].
  destruct (level =? last_state (btn w))%Z;
    cbn [fst snd]; unfold mbind, option_bind;
    destruct (strncpy _ _ _) as [b1|]; try reflexivity;
    destruct (store _ _ _) as [b2|]; reflexivity.
Qed.

Lemma push_event_locked_inv msg w w' :
  push_event_locked msg w = Some w' ->
  exists buf, w' = upd_btn (set_chardev {| buffer := buf; has_event := true |}) w.
Proof.
  unfold push_event_locked, mbind, option_bind.
  destruct (strncpy _ _ _) as [b1|]; [|discriminate].
  destruct (store _ _ _) as [b2|]; [|discriminate].
  intros [= <-]. eauto.
Qed.

(** What the section under [b->lock] leaves alone. *)
Lemma work_locked_fields state dt2 w :
  debounce_work (btn (work_locked state dt2 w)) = debounce_work (btn w)
  /\ work_pending (btn (work_locked state dt2 w)) = false
  /\ debounce_ms (btn (work_locked state dt2 w)) = debounce_ms (btn w)
  /\ jiffies (work_locked state dt2 w) = jiffies w
  /\ bound (work_locked state dt2 w) = bound w
  /\ mailbox (work_locked state dt2 w) = mailbox w
  /\ readers (work_locked state dt2 w) = readers w.
Proof.
  unfold work_locked. destruct (state =? last_state (btn w))%Z; repeat split.
Qed.

Section Statements.

Variable msecs_to_jiffies : Z -> Z.

(** Each step at the grain of the source, read backwards. *)
Lemma fine_step_inv a s s' :
  fine_step msecs_to_jiffies a s = Some s' ->
  match a with
  | FStep a =>
      is_split a = false
      /\ exists w', step msecs_to_jiffies a (sys_world s) = Some w'
                    /\ s' = mk_system w' (sys_work s) (sys_remove s)
  | FWorkEnter level dt1 =>
      sys_work s = WIdle /\ bound (sys_world s) = true
      /\ dw_running (debounce_work (btn (sys_world s))) = true
      /\ s' = mk_system (work_enter dt1 (sys_world s)) (WEntered level) (sys_remove s)
  | FWorkLocked dt2 =>
      exists state, sys_work s = WEntered state
        /\ s' = mk_system (work_locked state dt2 (sys_world s)) (WUnlocked state)
                  (sys_remove s)
  | FWorkFormat dt3 =>
      exists state, sys_work s = WUnlocked state
        /\ s' = mk_system (work_format state dt3 (sys_world s)).2
                  (WFormatted (work_format state dt3 (sys_world s)).1) (sys_remove s)
  | FPushStore =>
      exists msg buf, sys_work s = WFormatted msg
        /\ push_event_locked msg (sys_world s)
           = Some (upd_btn (set_chardev {| buffer := buf; has_event := true |}) (sys_world s))
        /\ s' = mk_system
                  (upd_btn (set_chardev {| buffer := buf; has_event := true |}) (sys_world s))
                  WStored (sys_remove s)
  | FPushWake =>
      sys_work s = WStored
      /\ s' = mk_system
                (upd_btn (fun b => set_debounce_work (work_done (debounce_work b)) b)
                   (wake_up_interruptible (sys_world s)))
                WIdle (sys_remove s)
  | FRemoveCancel =>
      sys_remove s = TIdle /\ bound (sys_world s) = true
      /\ dw_running (debounce_work (btn (sys_world s))) = false
      /\ s' = mk_system
                (upd_btn (set_debounce_work
                            (cancel_delayed_work (debounce_work (btn (sys_world s)))))
                   (sys_world s))
                (sys_work s) TCancelled
  | FRemoveWake =>
      sys_remove s = TCancelled
      /\ s' = mk_system (wake_up_interruptible (sys_world s)) (sys_work s) TWoken
  | FRemoveReturn =>
      sys_remove s = TWoken
      /\ s' = mk_system (set_bound false (sys_world s)) (sys_work s) TIdle
  end.
Proof.
  destruct a; cbn [fine_step]; unfold mbind, option_bind.
  - destruct (is_split a); [discriminate|].
    destruct (step _ _ _) as [w'|]; [|discriminate]. intros [= <-]. eauto.
  - destruct (sys_work s); try discriminate.
    destruct (bound _); [|discriminate]. cbn [andb].
    destruct (dw_running _); [|discriminate]. intros [= <-]. auto.
  - destruct (sys_work s); try discriminate. intros [= <-]. eauto.
  - destruct (sys_work s) as [| |state| |]; try discriminate.
    intros H. exists state. split; [reflexivity|].
    destruct (work_format _ _ _) as [msg w1]. injection H as <-. reflexivity.
  - destruct (sys_work s) as [| | |msg|]; try discriminate.
    destruct (push_event_locked _ _) as [w1|] eqn:Hp; [|discriminate].
    intros [= <-]. destruct (push_event_locked_inv _ _ _ Hp) as (buf & ->). eauto.
  - destruct (sys_work s); try discriminate. intros [= <-]. auto.
  - destruct (sys_remove s); try discriminate.
    destruct (bound _); [|discriminate].
    unfold cancel_delayed_work_sync.
    destruct (dw_running _); [discriminate|]. intros [= <-]. auto.
  - destruct (sys_remove s); try discriminate. intros [= <-]. auto.
  - destruct (sys_remove s); try discriminate. intros [= <-]. auto.
Qed.

Lemma fine_run_app tr1 tr2 s :
  fine_run msecs_to_jiffies (tr1 ++ tr2) s
  = fine_run msecs_to_jiffies tr1 s ≫= fine_run msecs_to_jiffies tr2.
Proof.
  revert s. induction tr1 as [|a tr1 IH]; intros s; [reflexivity|].
  cbn [app fine_run]. unfold mbind, option_bind in *.
  destruct (fine_step msecs_to_jiffies a s) as [s1|]; [apply IH|reflexivity].
Qed.

Lemma fine_run_reachable tr s s' :
  fine_reachable msecs_to_jiffies s -> fine_run msecs_to_jiffies tr s = Some s' ->
  fine_reachable msecs_to_jiffies s'.
Proof.
  revert s. induction tr as [|a tr IH]; intros s Hr; cbn [fine_run].
  - intros [= <-]. exact Hr.
  - unfold mbind, option_bind.
    destruct (fine_step msecs_to_jiffies a s) as [s1|] eqn:Hs; [|discriminate].
    apply IH. exact (fine_reach_step _ a s s1 Hr Hs).
Qed.

(** A step of [step] is the run of its pieces with nothing in between. *)
Lemma step_refined a w w' :
  step msecs_to_jiffies a w = Some w' ->
  fine_run msecs_to_jiffies (refine a) (idle w) = Some (idle w').
Proof.
  intros Hs.
  assert (Hplain : is_split a = false ->
            fine_run msecs_to_jiffies [FStep a] (idle w) = Some (idle w')).
  { intros Hn. cbn [fine_run fine_step idle sys_world sys_work sys_remove].
    rewrite Hn, Hs. reflexivity. }
  destruct a; try (apply Hplain; reflexivity).
  - apply step_inv in Hs. destruct Hs as (Hb & Hrun & w1 & Hw & ->).
    rewrite debounce_work_pieces in Hw. cbv zeta in Hw.
    unfold mbind, option_bind in Hw.
    destruct (push_event_locked _ _) as [w2|] eqn:Hp; [|discriminate].
    injection Hw as <-.
    cbn [refine settle_pass fine_run fine_step idle sys_world sys_work sys_remove].
    rewrite Hb, Hrun. cbn [andb mbind option_bind sys_world sys_work sys_remove].
    destruct (work_format level dt3 (work_locked level dt2 (work_enter dt1 w)))
      as [msg w3] eqn:Hf.
    cbn [fst snd] in Hp. cbn [mbind option_bind sys_world sys_work sys_remove].
    rewrite Hp. reflexivity.
  - apply step_inv in Hs. destruct Hs as (Hb & Hrun & ->).
    cbn [refine teardown fine_run fine_step idle sys_world sys_work sys_remove].
    rewrite Hb. unfold cancel_delayed_work_sync. rewrite Hrun. reflexivity.
Qed.

Lemma run_refined tr w w' :
  run msecs_to_jiffies tr w = Some w' ->
  fine_run msecs_to_jiffies (concat (refine <$> tr)) (idle w) = Some (idle w').
Proof.
  revert w. induction tr as [|a tr IH]; intros w; cbn [run].
  - intros [= <-]. reflexivity.
  - unfold mbind, option_bind.
    destruct (step msecs_to_jiffies a w) as [w1|] eqn:Hs; [|discriminate].
    intros Hrun. rewrite fmap_cons. cbn [concat]. rewrite fine_run_app.
    rewrite (step_refined _ _ _ Hs). exact (IH w1 Hrun).
Qed.

(** Every world a binding can be in by [step] is one it can be in at the
    grain of the source. *)
Lemma reachable_refined w :
  reachable msecs_to_jiffies w -> fine_reachable msecs_to_jiffies (idle w).
Proof.
  induction 1 as [prop level t0 j0 n|a w w' _ IH Hstep].
  - constructor.
  - exact (fine_run_reachable _ _ _ IH (step_refined _ _ _ Hstep)).
Qed.


(** *** No wake-up is lost *)

Lemma step_keeps_awake a w w' :
  is_split a = false ->
  step msecs_to_jiffies a w = Some w' ->
  has_event (mailbox w') = true ->
  has_event (mailbox w) = true
  /\ (Forall (fun r => ~ asleep r) (readers w) ->
      Forall (fun r => ~ asleep r) (readers w')).
Proof.
  unfold asleep. intros Hn Hs. apply step_inv in Hs. destruct a; try discriminate Hn.
  - subst w'. auto.
  - destruct Hs as [_ ->].
    destruct (irq_fields msecs_to_jiffies dt w)
      as (_ & _ & _ & _ & _ & _ & -> & _ & _ & _ & _ & -> & _).
    auto.
  - destruct Hs as (_ & dw & _ & ->). auto.
  - destruct Hs as (r & _ & _ & ->). intros Hev.
    change (has_event (chardev (btn w)) = true) in Hev. split; [exact Hev|].
    project_world. intros Hall. apply Forall_insert; [exact Hall|].
    cbn [r_pc]. unfold mailbox. rewrite Hev. discriminate.
  - destruct Hs as (r & _ & _ & ->). intros Hev.
    change (has_event (chardev (btn w)) = true) in Hev. split; [exact Hev|].
    project_world. intros Hall. apply Forall_insert; [exact Hall|].
    cbn [r_pc set_pc]. unfold mailbox. rewrite Hev. discriminate.
  - destruct Hs as (r & _ & _ & ->). intros Hev.
    change (has_event (chardev (btn w)) = true) in Hev. split; [exact Hev|].
    project_world. intros Hall. apply Forall_insert; [exact Hall|].
    cbn [r_pc set_pc]. unfold mailbox. rewrite Hev. discriminate.
  - destruct Hs as (r & cd & pc & _ & _ & Htk & ->). intros Hev.
    change (has_event cd = true) in Hev.
    pose proof (read_take_pc _ _ _ Htk) as Hpc.
    apply read_take_inv in Htk. destruct Htk as (_ & [Hsame|[_ Hclr]]); [|congruence].
    split; [congruence|]. project_world. intros Hall.
    apply Forall_insert; [exact Hall|exact Hpc].
  - destruct Hs as (r & len & lb & _ & _ & ->). intros Hev.
    change (has_event (chardev (btn w)) = true) in Hev. split; [exact Hev|].
    project_world. intros Hall. apply Forall_insert; [exact Hall|].
    cbn [r_pc set_pc]. destruct (read_deliver_returns (r_count r) (r_room r) len lb)
      as (ret & data & ->). discriminate.
Qed.

(** While an event is pending a consumer can be asleep only while the
    settle pass stands between the unlock of line 235 and the wake-up of
    line 237. *)
Lemma fine_step_wakeup_pending a s s' :
  (has_event (mailbox (sys_world s)) = true ->
   sys_work s = WStored \/ Forall (fun r => ~ asleep r) (readers (sys_world s))) ->
  fine_step msecs_to_jiffies a s = Some s' ->
  has_event (mailbox (sys_world s')) = true ->
  sys_work s' = WStored \/ Forall (fun r => ~ asleep r) (readers (sys_world s')).
Proof.
  intros IH Hs. apply fine_step_inv in Hs. destruct a.
  - destruct Hs as (Hn & w' & Hstep & ->). cbn [sys_world sys_work]. intros Hev.
    destruct (step_keeps_awake _ _ _ Hn Hstep Hev) as [Hev0 Hkeep].
    destruct (IH Hev0) as [Hpc|Hall]; [left; exact Hpc|right; exact (Hkeep Hall)].
  - destruct Hs as (Hpc & _ & _ & ->). cbn [sys_world sys_work]. intros Hev.
    right. destruct (IH Hev) as [Hst|Hall]; [congruence|exact Hall].
  - destruct Hs as (state & Hpc & ->). cbn [sys_world sys_work].
    destruct (work_locked_fields state dt2 (sys_world s))
      as (_ & _ & _ & _ & _ & -> & ->).
    intros Hev. right. destruct (IH Hev) as [Hst|Hall]; [congruence|exact Hall].
  - destruct Hs as (state & Hpc & ->). cbn [sys_world sys_work]. intros Hev.
    right. destruct (IH Hev) as [Hst|Hall]; [congruence|exact Hall].
  - destruct Hs as (msg & buf & _ & _ & ->). left. reflexivity.
  - destruct Hs as (_ & ->). intros _. right. project_system.
    apply wake_not_sleeping.
  - destruct Hs as (_ & _ & _ & ->). exact IH.
  - destruct Hs as (_ & ->). intros _. right. project_system.
    apply wake_not_sleeping.
  - destruct Hs as (_ & ->). exact IH.
Qed.

(** X10.  No wake-up is lost.  In every state a binding can be in, taken
    statement by statement, a consumer is asleep in its read while an event
    is pending only while the settle pass stands between the unlock of line
    235 and the wake-up of line 237; the next statement of the pass is that
    wake-up, after which no consumer is asleep and the event is still
    there. *)
Theorem sleeper_with_event_is_woken_next (s : system) :
  fine_reachable msecs_to_jiffies s ->
  has_event (mailbox (sys_world s)) = true ->
  Exists asleep (readers (sys_world s)) ->
  sys_work s = WStored
  /\ exists s',
       fine_step msecs_to_jiffies FPushWake s = Some s'
       /\ Forall (fun r => ~ asleep r) (readers (sys_world s'))
       /\ has_event (mailbox (sys_world s')) = true.
Proof.
  intros Hreach Hev Hex.
  assert (Hinv : has_event (mailbox (sys_world s)) = true ->
                 sys_work s = WStored
                 \/ Forall (fun r => ~ asleep r) (readers (sys_world s))).
  { clear Hev Hex. induction Hreach as [prop level t0 j0 n|a s s' _ IH Hstep].
    - discriminate.
    - exact (fine_step_wakeup_pending a s s' IH Hstep). }
  assert (Hpc : sys_work s = WStored).
  { destruct (Hinv Hev) as [Hpc|Hall]; [exact Hpc|].
    apply Exists_exists in Hex. destruct Hex as (r & Hin & Hr).
    rewrite Forall_forall in Hall. destruct (Hall r Hin Hr). }
  split; [exact Hpc|].
  cbn [fine_step]. rewrite Hpc. eexists. split; [reflexivity|].
  project_system. split; [apply wake_not_sleeping|exact Hev].
Qed.

(** *** An intake at any point of a settle pass *)

Lemma fine_step_engine a s s' t r p j d :
  fine_step msecs_to_jiffies a s = Some s' ->
  engine (sys_world s) = (t, r, p, j, d) ->
  match a with
  | FWorkEnter _ _ | FWorkFormat _ | FPushStore => engine (sys_world s') = (t, r, p, j, d)
  | FWorkLocked _ => engine (sys_world s') = (t, r, false, j, d)
  | FPushWake => engine (sys_world s') = (t, false, p, j, d)
  | FStep (AIrq _) =>
      engine (sys_world s') = ([(j + msecs_to_jiffies d)%Z], r, true, j, d)
  | FStep ATimer =>
      exists e rest, t = e :: rest /\ engine (sys_world s') = (rest, true, p, j, d)
  | _ => True
  end.
Proof.
  intros Hs He. apply fine_step_inv in Hs. unfold engine in *. destruct a; try exact I.
  - destruct Hs as (_ & w' & Hstep & ->). apply step_inv in Hstep.
    destruct a; try exact I.
    + destruct Hstep as [_ ->]. injection He as <- <- <- <- <-. reflexivity.
    + destruct Hstep as (_ & dw & Hf & ->). unfold timer_fire in Hf.
      injection He as Ht <- <- <- <-. rewrite Ht in Hf.
      destruct t as [|e rest]; [discriminate|]. exists e, rest. split; [reflexivity|].
      destruct (_ && _); [|discriminate]. injection Hf as <-. reflexivity.
  - destruct Hs as (_ & _ & _ & ->). exact He.
  - destruct Hs as (state & _ & ->). cbn [sys_world].
    destruct (work_locked_fields state dt2 (sys_world s))
      as (-> & -> & -> & -> & _).
    injection He as <- <- _ <- <-. reflexivity.
  - destruct Hs as (state & _ & ->). exact He.
  - destruct Hs as (msg & buf & _ & _ & ->). exact He.
  - destruct Hs as (_ & ->). injection He as <- _ <- <- <-. reflexivity.
Qed.

(** X9.  An intake that arrives at any point of a settle pass in flight is
    not lost: when the pass has returned its timer is armed, one quiet
    interval after that intake.  [work_pending] then reads false when the
    intake came before the pass took [b->lock] (line 155), although a timer
    is armed, and true when it came after the unlock of line 175.  [k] is
    the number of pieces of the pass that ran before the intake. *)
Theorem intake_during_pass_keeps_timer
  (s s' : system) (k : nat) (dt : N) (level : Z) (dt1 dt2 dt3 : N) :
  fine_run msecs_to_jiffies
    (FStep ATimer :: take k (settle_pass level dt1 dt2 dt3)
       ++ FStep (AIrq dt) :: drop k (settle_pass level dt1 dt2 dt3)) s = Some s' ->
  armed (sys_world s')
  = [(jiffies (sys_world s) + msecs_to_jiffies (debounce_ms (btn (sys_world s))))%Z]
  /\ dw_running (debounce_work (btn (sys_world s'))) = false
  /\ (k < 2 -> work_pending (btn (sys_world s')) = false)
  /\ (2 <= k -> work_pending (btn (sys_world s')) = true).
Proof.
  intros Hrun.
  assert (He : engine (sys_world s)
               = (dw_timers (debounce_work (btn (sys_world s))),
                  dw_running (debounce_work (btn (sys_world s))),
                  work_pending (btn (sys_world s)), jiffies (sys_world s),
                  debounce_ms (btn (sys_world s)))) by reflexivity.
  assert (Hend : forall p,
            engine (sys_world s')
            = ([(jiffies (sys_world s)
                 + msecs_to_jiffies (debounce_ms (btn (sys_world s))))%Z], false, p,
               jiffies (sys_world s), debounce_ms (btn (sys_world s))) ->
            armed (sys_world s')
            = [(jiffies (sys_world s)
                + msecs_to_jiffies (debounce_ms (btn (sys_world s))))%Z]
            /\ dw_running (debounce_work (btn (sys_world s'))) = false
            /\ work_pending (btn (sys_world s')) = p).
  { unfold engine, armed. intros p [= -> -> -> _ _]. auto. }
  destruct k as [|[|[|[|[|k]]]]];
    cbn [take drop settle_pass app] in Hrun;
    rewrite ?take_nil, ?drop_nil in Hrun; cbn [app] in Hrun;
    split_fine_run Hrun; subst s';
    repeat match goal with
           | Hs : fine_step _ _ ?s0 = Some _, E : engine (sys_world ?s0) = _ |- _ =>
               let E' := fresh "E" in
               pose proof (fine_step_engine _ _ _ _ _ _ _ _ Hs E) as E';
               cbv beta iota in E'; clear Hs;
               try (destruct E' as (? & ? & _ & E'))
           end;
    match goal with
    | E : engine (sys_world ?s0) = _ |- context [sys_world ?s0] =>
        destruct (Hend _ E) as (Ha & Hr & Hp)
    end;
    (split; [exact Ha|]); (split; [exact Hr|]); (split; intros Hk; [|]);
    first [exact Hp | lia].
Qed.


(** *** The teardown with the interrupt still requested *)

(** Without an intake nothing arms a timer, and without a timer no pass
    starts. *)
Lemma fine_step_quiet a s s' :
  fine_intake a = false ->
  fine_step msecs_to_jiffies a s = Some s' ->
  armed (sys_world s) = [] /\ dw_running (debounce_work (btn (sys_world s))) = false ->
  armed (sys_world s') = [] /\ dw_running (debounce_work (btn (sys_world s'))) = false.
Proof.
  unfold armed. intros Hq Hs [Ha Hr]. apply fine_step_inv in Hs. destruct a.
  - destruct Hs as (Hn & w' & Hstep & ->). cbn [sys_world].
    apply step_inv in Hstep. destruct a; try discriminate.
    + subst w'. auto.
    + destruct Hstep as (_ & dw & Hf & _). unfold timer_fire in Hf.
      rewrite Ha in Hf. discriminate.
    + destruct Hstep as (r & _ & _ & ->). auto.
    + destruct Hstep as (r & _ & _ & ->). auto.
    + destruct Hstep as (r & _ & _ & ->). auto.
    + destruct Hstep as (r & cd & pc & _ & _ & _ & ->). auto.
    + destruct Hstep as (r & len & lb & _ & _ & ->). auto.
  - destruct Hs as (_ & _ & Hrun & _). congruence.
  - destruct Hs as (state & _ & ->). cbn [sys_world].
    destruct (work_locked_fields state dt2 (sys_world s)) as (-> & _). auto.
  - destruct Hs as (state & _ & ->). auto.
  - destruct Hs as (msg & buf & _ & _ & ->). auto.
  - destruct Hs as (_ & ->). project_system. cbn [work_done dw_timers dw_running]. auto.
  - destruct Hs as (_ & _ & _ & ->). project_system.
    cbn [cancel_delayed_work dw_timers dw_running]. auto.
  - destruct Hs as (_ & ->). auto.
  - destruct Hs as (_ & ->). auto.
Qed.

Lemma fine_run_quiet tr s s' :
  Forall (fun a => fine_intake a = false) tr ->
  fine_run msecs_to_jiffies tr s = Some s' ->
  armed (sys_world s) = [] /\ dw_running (debounce_work (btn (sys_world s))) = false ->
  armed (sys_world s') = [] /\ dw_running (debounce_work (btn (sys_world s'))) = false.
Proof.
  revert s. induction tr as [|a tr IH]; intros s Hq; cbn [fine_run].
  - intros [= <-]. auto.
  - unfold mbind, option_bind.
    destruct (fine_step msecs_to_jiffies a s) as [s1|] eqn:Hs; [|discriminate].
    apply Forall_cons in Hq. destruct Hq as [Ha Hq]. intros Hrun Hquiet.
    apply (IH s1 Hq Hrun). exact (fine_step_quiet a s s1 Ha Hs Hquiet).
Qed.

(** X6.  [bbb_btn_remove] does not get past [cancel_delayed_work_sync]
    while a settle pass is in flight.  Otherwise it gives back the four
    resources of the character device.  The interrupt stays requested while
    it runs: when no intake arrives between [cancel_delayed_work_sync] and
    its return, whatever else runs in between, it returns with the driver
    unbound, no timer armed and no pass in flight; an intake in that window
    leaves its timer armed when [bbb_btn_remove] returns. *)
Theorem teardown_timer_armed_by_late_intake (s : system) (held : list resource) :
  sys_remove s = TIdle ->
  bound (sys_world s) = true ->
  (dw_running (debounce_work (btn (sys_world s))) = true ->
   fine_step msecs_to_jiffies FRemoveCancel s = None
   /\ Lifecycle.bbb_btn_remove (with_chardev held) (sys_world s) = None)
  /\ (dw_running (debounce_work (btn (sys_world s))) = false ->
      fst <$> Lifecycle.bbb_btn_remove (with_chardev held) (sys_world s) = Some held
      /\ (forall tr s',
            Forall (fun a => fine_intake a = false) tr ->
            fine_run msecs_to_jiffies (FRemoveCancel :: tr ++ [FRemoveReturn]) s = Some s' ->
            bound (sys_world s') = false
            /\ armed (sys_world s') = []
            /\ dw_running (debounce_work (btn (sys_world s'))) = false)
      /\ (forall dt, exists s',
            fine_run msecs_to_jiffies
              [FRemoveCancel; FStep (AIrq dt); FRemoveWake; FRemoveReturn] s = Some s'
            /\ bound (sys_world s') = false
            /\ armed (sys_world s')
               = [(jiffies (sys_world s)
                   + msecs_to_jiffies (debounce_ms (btn (sys_world s))))%Z])).
Proof.
  intros Hpc Hb. split; intros Hrun.
  - unfold Lifecycle.bbb_btn_remove. cbn [fine_step].
    unfold cancel_delayed_work_sync. rewrite Hpc, Hb, Hrun. split; reflexivity.
  - split; [|split].
    + unfold Lifecycle.bbb_btn_remove, cancel_delayed_work_sync. rewrite Hrun.
      cbn [mbind option_bind]. rewrite chardev_unregister_registered. reflexivity.
    + intros tr s' Hq. cbn [fine_run]. unfold mbind at 1, option_bind.
      destruct (fine_step msecs_to_jiffies FRemoveCancel s) as [s1|] eqn:Hs1;
        [|discriminate].
      rewrite fine_run_app. unfold mbind at 1, option_bind.
      destruct (fine_run msecs_to_jiffies tr s1) as [s2|] eqn:Htr; [|discriminate].
      cbn [fine_run]. unfold mbind, option_bind.
      destruct (fine_step msecs_to_jiffies FRemoveReturn s2) as [s3|] eqn:Hs3;
        [|discriminate].
      intros [= <-].
      apply fine_step_inv in Hs1. destruct Hs1 as (_ & _ & _ & ->).
      assert (Hquiet : armed (sys_world s2) = []
                       /\ dw_running (debounce_work (btn (sys_world s2))) = false).
      { apply (fine_run_quiet tr _ s2 Hq Htr). unfold armed. project_system.
        cbn [cancel_delayed_work dw_timers dw_running]. auto. }
      apply fine_step_inv in Hs3. destruct Hs3 as (_ & ->).
      split; [reflexivity|exact Hquiet].
    + intros dt. cbn [fine_run fine_step is_split step].
      unfold cancel_delayed_work_sync. rewrite Hpc, Hb, Hrun.
      cbn [mbind option_bind sys_world sys_work sys_remove]. project_world.
      rewrite Hb. cbn [mbind option_bind sys_world sys_work sys_remove].
      eexists. split; [reflexivity|]. split; reflexivity.
Qed.

End Statements.

Lemma sleeper_with_event_is_woken_next_witness :
  exists s s',
    fine_run msecs_to_jiffies_hz1000
      ([FStep (ACall 0 16 16 false); FStep (AIrq 0); FStep (ATick 20); FStep ATimer;
        FWorkEnter 0 1; FWorkLocked 1; FWorkFormat 1; FPushStore])
      (idle (bbb_btn_probe None 1 0 0 1)) = Some s
    /\ has_event (mailbox (sys_world s)) = true
    /\ reader_at (sys_world s) 0 = Some RSleeping
    /\ fine_step msecs_to_jiffies_hz1000 FPushWake s = Some s'
    /\ reader_at (sys_world s') 0 = Some RWoken.
Proof.
  destruct (fine_run msecs_to_jiffies_hz1000
              ([FStep (ACall 0 16 16 false); FStep (AIrq 0); FStep (ATick 20); FStep ATimer;
                FWorkEnter 0 1; FWorkLocked 1; FWorkFormat 1; FPushStore])
              (idle (bbb_btn_probe None 1 0 0 1))) as [s|] eqn:Hrun;
    [|vm_compute in Hrun; discriminate].
  assert (Hreach : fine_reachable msecs_to_jiffies_hz1000 s).
  { exact (fine_run_reachable _ _ _ _ (fine_reach_probe _ None 1 0 0 1) Hrun). }
  assert (Hfacts : has_event (mailbox (sys_world s)) = true
                   /\ readers (sys_world s) = [mk_reader 16 16 RSleeping]).
  { vm_compute in Hrun. injection Hrun as <-. split; reflexivity. }
  destruct Hfacts as (Hev & Hrd).
  assert (Hex : Exists asleep (readers (sys_world s))).
  { rewrite Hrd. apply Exists_cons_hd. reflexivity. }
  destruct (sleeper_with_event_is_woken_next msecs_to_jiffies_hz1000 s Hreach Hev Hex)
    as (Hpc & s' & Hs' & _ & _).
  exists s, s'. split; [reflexivity|]. split; [exact Hev|].
  split; [unfold reader_at; rewrite Hrd; reflexivity|]. split; [exact Hs'|].
  cbn [fine_step] in Hs'. rewrite Hpc in Hs'. injection Hs' as <-.
  unfold reader_at. project_system. rewrite Hrd. reflexivity.
Defined.

Lemma intake_during_pass_keeps_timer_witness :
  exists s',
    fine_run msecs_to_jiffies_hz1000
      (FStep ATimer :: take 3 (settle_pass 0 1 1 1)
         ++ FStep (AIrq 0) :: drop 3 (settle_pass 0 1 1 1))
      (idle (set_jiffies 120
               (bbb_btn_irq msecs_to_jiffies_hz1000 0 (bbb_btn_probe None 1 0 100 0))))
    = Some s'
    /\ armed (sys_world s') = [140%Z]
    /\ work_pending (btn (sys_world s')) = true.
Proof.
  destruct (fine_run msecs_to_jiffies_hz1000
              (FStep ATimer :: take 3 (settle_pass 0 1 1 1)
                 ++ FStep (AIrq 0) :: drop 3 (settle_pass 0 1 1 1))
              (idle (set_jiffies 120
                       (bbb_btn_irq msecs_to_jiffies_hz1000 0
                          (bbb_btn_probe None 1 0 100 0)))))
    as [s'|] eqn:Hrun; [|vm_compute in Hrun; discriminate].
  exists s'. split; [reflexivity|].
  destruct (intake_during_pass_keeps_timer msecs_to_jiffies_hz1000 _ s' 3 0 0 1 1 1 Hrun)
    as (Ha & _ & _ & Hp).
  split; [exact Ha|]. apply Hp. lia.
Defined.

Lemma teardown_timer_armed_by_late_intake_witness :
  exists s',
    fine_run msecs_to_jiffies_hz1000
      [FRemoveCancel; FStep (AIrq 0); FRemoveWake; FRemoveReturn]
      (idle (bbb_btn_probe None 1 0 100 0)) = Some s'
    /\ bound (sys_world s') = false
    /\ armed (sys_world s') = [120%Z].
Proof.
  destruct (teardown_timer_armed_by_late_intake msecs_to_jiffies_hz1000
              (idle (bbb_btn_probe None 1 0 100 0)) [] eq_refl eq_refl) as (_ & H).
  destruct (H eq_refl) as (_ & _ & Hlate).
  destruct (Hlate 0%N) as (s' & Hrun & Hb & Ha).
  exists s'. split; [exact Hrun|]. split; [exact Hb|exact Ha].
Defined.

(* ===================================================================== *)
(** ** Bytes and words *)
(* ===================================================================== *)

Lemma byte_val_range b : (0 <= byte_val b < 256)%Z.
Proof.
  unfold byte_val. pose proof (Byte.to_N_bounded b) as H. lia.
Qed.

Lemma land_shiftl8_low a b : (0 <= b < 256)%Z -> Z.land (Z.shiftl a 8) b = 0%Z.
Proof.
  intros Hb. apply Z.bits_inj'. intros n Hn.
  rewrite Z.land_spec, Z.bits_0.
  destruct (Z.lt_ge_cases n 8) as [Hlow|Hhigh].
  - rewrite Z.shiftl_spec_low by exact Hlow. reflexivity.
  - replace b with (b mod 2 ^ 8)%Z by (apply Z.mod_small; lia).
    rewrite Z.mod_pow2_bits_high by lia. apply andb_false_r.
Qed.

Lemma lor_shiftl8 a b :
  (0 <= b < 256)%Z -> Z.lor (Z.shiftl a 8) b = (a * 256 + b)%Z.
Proof.
  intros Hb. rewrite <- Z.lxor_lor by (apply land_shiftl8_low; exact Hb).
  rewrite <- Z.add_nocarry_lxor by (apply land_shiftl8_low; exact Hb).
  rewrite Z.shiftl_mul_pow2 by lia. reflexivity.
Qed.

(* ===================================================================== *)
(** ** The analog-to-digital converter *)
(* ===================================================================== *)

Section Converter.

Local Open Scope Z_scope.

Lemma conversion_value rx1 rx2 :
  Z.lor (Z.shiftl (Z.land (byte_val rx1) 3) 8) (byte_val rx2)
  = (byte_val rx1 mod 4) * 256 + byte_val rx2.
Proof.
  rewrite lor_shiftl8 by apply byte_val_range.
  change 3 with (Z.ones 2). rewrite Z.land_ones by lia. reflexivity.
Qed.

(** The two outcomes of a conversion. *)
Lemma adc_conversion_cases
  (xfer : list Z -> Z * (byte * byte * byte)) (channel ret : Z) (rx0 rx1 rx2 : byte) :
  xfer (MCP3008.command channel) = (ret, (rx0, rx1, rx2)) ->
  (ret < 0 -> MCP3008.mcp3008_adc_conversion xfer channel = ret)
  /\ (0 <= ret ->
      MCP3008.mcp3008_adc_conversion xfer channel
      = (byte_val rx1 mod 4) * 256 + byte_val rx2).
Proof.
  intros Hx. unfold MCP3008.mcp3008_adc_conversion. rewrite Hx.
  destruct (Z.ltb_spec ret 0) as [Hneg|Hpos].
  - split; [reflexivity|lia].
  - split; [lia|]. intros _. apply conversion_value.
Qed.

(** X13.  [mcp3008_adc_conversion] hands an SPI error back unchanged.
    When the transfer succeeds its result is the 10-bit number made of the
    two low bits of the second byte received and the third byte, so it lies
    in 0..1023 whatever the other bits on the wire are, and it is the value
    the converter sent. *)
Theorem adc_conversion_decodes_ten_bits
  (xfer : list Z -> Z * (byte * byte * byte)) (channel ret : Z) (rx0 rx1 rx2 : byte) :
  xfer (MCP3008.command channel) = (ret, (rx0, rx1, rx2)) ->
  (ret < 0 -> MCP3008.mcp3008_adc_conversion xfer channel = ret)
  /\ (0 <= ret ->
      0 <= MCP3008.mcp3008_adc_conversion xfer channel <= 1023
      /\ forall v, 0 <= v < 1024 -> MCP3008.adc_answers rx1 rx2 v ->
                   MCP3008.mcp3008_adc_conversion xfer channel = v).
Proof.
  intros Hx. destruct (adc_conversion_cases xfer channel ret rx0 rx1 rx2 Hx) as [Herr Hok].
  pose proof (byte_val_range rx1) as H1. pose proof (byte_val_range rx2) as H2.
  split; [exact Herr|]. intros Hpos. rewrite (Hok Hpos).
  pose proof (Z.mod_pos_bound (byte_val rx1) 4 ltac:(lia)) as Hm.
  split; [lia|]. intros v Hv [Hhi Hlo]. rewrite Hhi, Hlo.
  pose proof (Z.div_mod v 256 ltac:(lia)). lia.
Qed.

Lemma adc_conversion_decodes_ten_bits_witness :
  MCP3008.mcp3008_adc_conversion (fun _ => (0, (x00, xff, x2a))) 3 = 810.
Proof.
  destruct (adc_conversion_decodes_ten_bits (fun _ => (0, (x00, xff, x2a))) 3 0
              x00 xff x2a eq_refl) as (_ & H).
  destruct (H ltac:(lia)) as (_ & Hv).
  apply Hv; [lia|]. split; reflexivity.
Defined.

(** X14.  For each of the eight declared channels the command is the start
    byte, then a byte with the single-ended bit (bit 7) set, the channel
    number in bits 6 to 4 and the low nibble clear, then a zero byte; so
    the eight channels have eight different commands. *)
Theorem command_selects_channel (channel : Z) :
  0 <= channel < MCP3008.MCP3008_CHANNELS ->
  MCP3008.command channel = [1; 128 + 16 * channel; 0]
  /\ Z.testbit (128 + 16 * channel) 7 = true
  /\ ((128 + 16 * channel) / 16) mod 8 = channel
  /\ (128 + 16 * channel) mod 16 = 0
  /\ forall other, 0 <= other < MCP3008.MCP3008_CHANNELS ->
                   MCP3008.command other = MCP3008.command channel -> other = channel.
Proof.
  unfold MCP3008.MCP3008_CHANNELS. intros Hc.
  assert (Hcmd : forall c, 0 <= c < 8 -> MCP3008.command c = [1; 128 + 16 * c; 0]).
  { intros c Hr.
    assert (Hcases : c = 0 \/ c = 1 \/ c = 2 \/ c = 3 \/ c = 4 \/ c = 5 \/ c = 6 \/ c = 7)
      by lia.
    destruct Hcases as [->|[->|[->|[->|[->|[->|[->| ->]]]]]]]; reflexivity. }
  split; [apply Hcmd; exact Hc|].
  assert (Hcases : channel = 0 \/ channel = 1 \/ channel = 2 \/ channel = 3
                   \/ channel = 4 \/ channel = 5 \/ channel = 6 \/ channel = 7) by lia.
  split; [|split; [|split]].
  - destruct Hcases as [->|[->|[->|[->|[->|[->|[->| ->]]]]]]]; reflexivity.
  - destruct Hcases as [->|[->|[->|[->|[->|[->|[->| ->]]]]]]]; reflexivity.
  - destruct Hcases as [->|[->|[->|[->|[->|[->|[->| ->]]]]]]]; reflexivity.
  - intros other Ho. rewrite (Hcmd other Ho), (Hcmd channel Hc). intros [= H]. lia.
Qed.

Lemma command_selects_channel_witness :
  MCP3008.command 5 = [1; 208; 0].
Proof.
  destruct (command_selects_channel 5 ltac:(unfold MCP3008.MCP3008_CHANNELS; lia))
    as (H & _).
  exact H.
Defined.

(** X15.  [mcp3008_read_raw]: a raw read returns IIO_VAL_INT with a value
    in 0..1023 in [*val], or the SPI error with [*val] untouched; a scale
    read returns the reference voltage over 2^10; every other mask returns
    -EINVAL and touches neither output.  With a positive reference the
    voltage a raw value stands for, raw * vref_mv / 2^10, is below the
    reference. *)
Theorem read_raw_reports_value_and_scale
  (adc : MCP3008.mcp3008) (xfer : list Z -> Z * (byte * byte * byte))
  (address mask val val2 : Z) :
  0 <= address < MCP3008.MCP3008_CHANNELS ->
  (let '(ret, v, v2) :=
     MCP3008.mcp3008_read_raw adc xfer address MCP3008.IIO_CHAN_INFO_RAW val val2 in
   v2 = val2
   /\ ((ret = MCP3008.IIO_VAL_INT /\ 0 <= v <= 1023
        /\ (0 < MCP3008.vref_mv adc ->
            0 <= v * MCP3008.vref_mv adc / 2 ^ 10 < MCP3008.vref_mv adc))
       \/ (ret < 0 /\ v = val /\ ret = (xfer (MCP3008.command address)).1)))
  /\ MCP3008.mcp3008_read_raw adc xfer address MCP3008.IIO_CHAN_INFO_SCALE val val2
     = (MCP3008.IIO_VAL_FRACTIONAL_LOG2, MCP3008.vref_mv adc, 10)
  /\ (mask <> MCP3008.IIO_CHAN_INFO_RAW -> mask <> MCP3008.IIO_CHAN_INFO_SCALE ->
      MCP3008.mcp3008_read_raw adc xfer address mask val val2 = (- EINVAL, val, val2)).
Proof.
  unfold MCP3008.MCP3008_CHANNELS. intros Haddr. split; [|split].
  - unfold MCP3008.mcp3008_read_raw. cbn [Z.eqb MCP3008.IIO_CHAN_INFO_RAW].
    rewrite (Z.mod_small address 256) by lia.
    destruct (xfer (MCP3008.command address)) as [ret [[rx0 rx1] rx2]] eqn:Hx.
    destruct (adc_conversion_cases xfer address ret rx0 rx1 rx2 Hx) as [Herr Hval].
    pose proof (byte_val_range rx1) as Hb1. pose proof (byte_val_range rx2) as Hb2.
    pose proof (Z.mod_pos_bound (byte_val rx1) 4 ltac:(lia)) as Hm4.
    assert (Hok : 0 <= ret -> 0 <= MCP3008.mcp3008_adc_conversion xfer address <= 1023)
      by (intros Hr; rewrite (Hval Hr); lia).
    destruct (Z.ltb_spec (MCP3008.mcp3008_adc_conversion xfer address) 0) as [Hneg|Hpos].
    + split; [reflexivity|]. right.
      destruct (Z_lt_le_dec ret 0) as [Hr|Hr].
      * rewrite (Herr Hr) in *. cbn [fst]. auto.
      * pose proof (Hok Hr) as Hrange. lia.
    + split; [reflexivity|]. left. split; [reflexivity|].
      destruct (Z_lt_le_dec ret 0) as [Hr|Hr]; [rewrite (Herr Hr) in Hpos; lia|].
      pose proof (Hok Hr) as Hrange. split; [exact Hrange|].
      intros Hv. split.
      * apply Z.div_pos; [nia|lia].
      * apply Z.div_lt_upper_bound; [lia|]. nia.
  - reflexivity.
  - intros Hraw Hscale. unfold MCP3008.mcp3008_read_raw.
    destruct (Z.eqb_spec mask MCP3008.IIO_CHAN_INFO_RAW); [contradiction|].
    destruct (Z.eqb_spec mask MCP3008.IIO_CHAN_INFO_SCALE); [contradiction|].
    reflexivity.
Qed.

Lemma read_raw_reports_value_and_scale_witness :
  MCP3008.mcp3008_read_raw (MCP3008.mk_mcp3008 false 3300)
    (fun _ => (0, (x00, x02, x00))) 0 MCP3008.IIO_CHAN_INFO_SCALE 7 7
  = (MCP3008.IIO_VAL_FRACTIONAL_LOG2, 3300, 10).
Proof.
  destruct (read_raw_reports_value_and_scale (MCP3008.mk_mcp3008 false 3300)
              (fun _ => (0, (x00, x02, x00))) 0 5 7 7
              ltac:(unfold MCP3008.MCP3008_CHANNELS; lia)) as (_ & H & _).
  exact H.
Defined.

(** X16.  [mcp3008_probe] keeps the reference regulator balanced.  When it
    returns an error there is no device and the regulator's enable count is
    as before the call.  When it returns 0 the count is one higher exactly
    if a regulator was found, [mcp3008_remove] brings it back, the reference
    is 3300 mV when there is no regulator and otherwise the regulator's
    microvolts over 1000 as a u16. *)
Theorem probe_balances_regulator (env : MCP3008.probe_env) (enabled : Z) :
  let '(ret, enabled', dev) := MCP3008.mcp3008_probe env enabled in
  (ret <> 0 -> dev = None /\ enabled' = enabled)
  /\ (ret = 0 ->
      exists adc, dev = Some adc
        /\ enabled' = (if MCP3008.has_vref adc then enabled + 1 else enabled)
        /\ MCP3008.mcp3008_remove adc enabled' = enabled
        /\ (MCP3008.has_vref adc = false -> MCP3008.vref_mv adc = 3300)
        /\ (MCP3008.has_vref adc = true ->
            MCP3008.vref_mv adc
            = (MCP3008.regulator_voltage_ret env / 1000) mod 65536)).
Proof.
  destruct env as [al vl en vo rg]. unfold MCP3008.mcp3008_probe, MCP3008.err_vref_disable.
  cbn [MCP3008.iio_alloc_ok MCP3008.vref_lookup MCP3008.regulator_enable_ret
       MCP3008.regulator_voltage_ret MCP3008.iio_register_ret].
  destruct al; cbn [negb]; [|split; [auto|discriminate]].
  destruct vl as [e|].
  - destruct (Z.eqb_spec (Z.neg e) (- ENODEV)) as [He|He].
    + destruct (decide (rg <> 0)) as [Hrg|Hrg].
      * split; [auto|contradiction].
      * split; [contradiction|]. intros _. eexists. split; [reflexivity|].
        cbn. repeat split; try discriminate; reflexivity.
    + split; [auto|discriminate].
  - destruct (decide (en <> 0)) as [Hen|Hen]; [split; [auto|contradiction]|].
    destruct (Z.ltb_spec vo 0) as [Hvo|Hvo].
    + split; [intros _; split; [reflexivity|lia]|lia].
    + destruct (decide (rg <> 0)) as [Hrg|Hrg].
      * split; [intros _; split; [reflexivity|lia]|contradiction].
      * split; [contradiction|]. intros _. eexists. split; [reflexivity|].
        cbn [MCP3008.has_vref MCP3008.vref_mv MCP3008.mcp3008_remove].
        split; [reflexivity|]. split; [lia|]. split; [discriminate|].
        intros _. rewrite Z.quot_div_nonneg by lia. reflexivity.
Qed.

End Converter.

(* ===================================================================== *)
(** ** The temperature sensor *)
(* ===================================================================== *)

Section Sensor.

Local Open Scope Z_scope.

(** [swab16] on a 16-bit word, in arithmetic. *)
Lemma swab16_value x :
  0 <= x < 65536 -> TMP117.swab16 x = (x mod 256) * 256 + x / 256.
Proof.
  intros Hx. unfold TMP117.swab16.
  assert (Hhi : Z.shiftr (Z.land x 65280) 8 = x / 256).
  { rewrite Z.shiftr_land. change (Z.shiftr 65280 8) with (Z.ones 8).
    rewrite Z.land_ones, Z.shiftr_div_pow2 by lia.
    change (2 ^ 8) with 256. apply Z.mod_small.
    pose proof (Z.div_lt_upper_bound x 256 256 ltac:(lia) ltac:(lia)).
    pose proof (Z.div_pos x 256 ltac:(lia) ltac:(lia)). lia. }
  rewrite Hhi, lor_shiftl8.
  - change 255 with (Z.ones 8). rewrite Z.land_ones by lia. reflexivity.
  - pose proof (Z.div_lt_upper_bound x 256 256 ltac:(lia) ltac:(lia)).
    pose proof (Z.div_pos x 256 ltac:(lia) ltac:(lia)). lia.
Qed.

Lemma bus_word_range reg : 0 <= reg < 65536 -> 0 <= TMP117.bus_word reg < 65536.
Proof.
  intros Hr. unfold TMP117.bus_word.
  pose proof (Z.mod_pos_bound reg 256 ltac:(lia)).
  pose proof (Z.div_lt_upper_bound reg 256 256 ltac:(lia) ltac:(lia)).
  pose proof (Z.div_pos reg 256 ltac:(lia) ltac:(lia)). lia.
Qed.

(** The driver's byte swap recovers the register the sensor sent. *)
Lemma swab16_bus_word reg : 0 <= reg < 65536 -> TMP117.swab16 (TMP117.bus_word reg) = reg.
Proof.
  intros Hr. rewrite swab16_value by (apply bus_word_range; exact Hr).
  unfold TMP117.bus_word.
  pose proof (Z.mod_pos_bound reg 256 ltac:(lia)) as Hm.
  pose proof (Z.div_lt_upper_bound reg 256 256 ltac:(lia) ltac:(lia)) as Hd.
  pose proof (Z.div_pos reg 256 ltac:(lia) ltac:(lia)) as Hp.
  replace ((reg mod 256 * 256 + reg / 256) mod 256) with (reg / 256).
  2:{ rewrite Z.add_comm, Z.mod_add by lia. symmetry. apply Z.mod_small. lia. }
  replace ((reg mod 256 * 256 + reg / 256) / 256) with (reg mod 256).
  2:{ rewrite Z.add_comm, Z.div_add by lia. rewrite (Z.div_small (reg / 256)) by lia. lia. }
  pose proof (Z.div_mod reg 256 ltac:(lia)). lia.
Qed.

Lemma to_signed_16_range x : -32768 <= TMP117.to_signed 16 x <= 32767.
Proof.
  unfold TMP117.to_signed. change (2 ^ (16 - 1)) with 32768. change (2 ^ 16) with 65536.
  pose proof (Z.mod_pos_bound (x + 32768) 65536 ltac:(lia)). lia.
Qed.

Lemma to_signed_small bits x :
  0 < bits -> - 2 ^ (bits - 1) <= x < 2 ^ (bits - 1) -> TMP117.to_signed bits x = x.
Proof.
  intros Hb Hx. unfold TMP117.to_signed.
  assert (H2 : 2 ^ bits = 2 * 2 ^ (bits - 1)).
  { replace bits with (Z.succ (bits - 1)) at 1 by lia. apply Z.pow_succ_r. lia. }
  rewrite Z.mod_small by lia. lia.
Qed.

(** X17.  When the bus delivers the register of the sensor (sent high byte
    first), [bbb_tmp117_read_temperature] with a 64-bit [long] returns 0 and
    the register, read as a signed 16-bit number, times 7.8125, cut toward
    zero to whole millidegrees: the result is within one millidegree of the
    exact value and lies between -256000 and 255992.  A bus error is
    returned unchanged and leaves [*val] alone. *)
Theorem temperature_in_millidegrees (reg val : Z) :
  0 <= reg < 65536 ->
  exists t,
    TMP117.bbb_tmp117_read_temperature 64 (TMP117.bus_word reg) val = (0, t)
    /\ t = Z.quot (TMP117.to_signed 16 reg * 78125) 10000
    /\ Z.abs (10000 * t - 78125 * TMP117.to_signed 16 reg) < 10000
    /\ -256000 <= t <= 255992
    /\ forall err, err < 0 ->
         TMP117.bbb_tmp117_read_temperature 64 err val = (err, val).
Proof.
  intros Hr. pose proof (bus_word_range reg Hr) as Hw.
  pose proof (to_signed_16_range reg) as Hraw.
  eexists. split; [|split; [reflexivity|]].
  - unfold TMP117.bbb_tmp117_read_temperature.
    destruct (Z.ltb_spec (TMP117.bus_word reg) 0) as [Hneg|_]; [lia|].
    rewrite swab16_bus_word by exact Hr.
    unfold TMP117.TMP117_RESOLUTION_NUM, TMP117.TMP117_RESOLUTION_DEN.
    rewrite (to_signed_small 64) by (change (2 ^ (64 - 1)) with 9223372036854775808; lia).
    reflexivity.
  - set (raw := TMP117.to_signed 16 reg) in *.
    pose proof (Z.quot_rem' (raw * 78125) 10000) as Hqr.
    pose proof (Z.rem_bound_abs (raw * 78125) 10000 ltac:(lia)) as Hrem.
    split; [|split].
    + replace (10000 * Z.quot (raw * 78125) 10000 - 78125 * raw)
        with (- Z.rem (raw * 78125) 10000) by lia.
      rewrite Z.abs_opp. change (Z.abs 10000) with 10000 in Hrem. exact Hrem.
    + pose proof (Z.quot_le_mono (-32768 * 78125) (raw * 78125) 10000 ltac:(lia)
                    ltac:(lia)) as Hlo.
      pose proof (Z.quot_le_mono (raw * 78125) (32767 * 78125) 10000 ltac:(lia)
                    ltac:(lia)) as Hhi.
      change (Z.quot (-32768 * 78125) 10000) with (-256000) in Hlo.
      change (Z.quot (32767 * 78125) 10000) with 255992 in Hhi. lia.
    + intros err Herr. unfold TMP117.bbb_tmp117_read_temperature.
      destruct (Z.ltb_spec err 0); [reflexivity|lia].
Qed.

Lemma temperature_in_millidegrees_witness :
  TMP117.bbb_tmp117_read_temperature 64 (TMP117.bus_word 3200) 0 = (0, 25000).
Proof.
  destruct (temperature_in_millidegrees 3200 0 ltac:(lia)) as (t & Hread & Ht & _).
  rewrite Hread, Ht. reflexivity.
Defined.

(** X18.  With a 32-bit [long], as on the BeagleBone, the product
    raw * 78125 fits only for raw between -27487 and 27487 (about
    -214.7 to 214.7 degrees): there the result is the same as with a 64-bit
    [long], and outside it differs. *)
Theorem temperature_long32_overflow (reg val : Z) :
  0 <= reg < 65536 ->
  TMP117.bbb_tmp117_read_temperature 32 (TMP117.bus_word reg) val
  = TMP117.bbb_tmp117_read_temperature 64 (TMP117.bus_word reg) val
  <-> -27487 <= TMP117.to_signed 16 reg <= 27487.
Proof.
  intros Hr. pose proof (bus_word_range reg Hr) as Hw.
  pose proof (to_signed_16_range reg) as Hraw.
  unfold TMP117.bbb_tmp117_read_temperature.
  destruct (Z.ltb_spec (TMP117.bus_word reg) 0) as [Hneg|_]; [lia|].
  rewrite swab16_bus_word by exact Hr.
  unfold TMP117.TMP117_RESOLUTION_NUM, TMP117.TMP117_RESOLUTION_DEN.
  set (raw := TMP117.to_signed 16 reg) in *.
  rewrite (to_signed_small 64) by (change (2 ^ (64 - 1)) with 9223372036854775808; lia).
  split.
  - intros [= H].
    destruct (Z_lt_le_dec raw (-27487)) as [Hlo|Hlo].
    + exfalso. revert H. unfold TMP117.to_signed.
      change (2 ^ (32 - 1)) with 2147483648. change (2 ^ 32) with 4294967296.
      replace ((raw * 78125 + 2147483648) mod 4294967296)
        with (raw * 78125 + 2147483648 + 4294967296).
      2:{ symmetry. rewrite <- (Z.mod_add _ 1) by lia. apply Z.mod_small. lia. }
      intros H.
      pose proof (Z.quot_le_mono 0 (raw * 78125 + 2147483648 + 4294967296 - 2147483648)
                    10000 ltac:(lia) ltac:(lia)) as Hq1.
      pose proof (Z.quot_le_mono (raw * 78125) (-10000) 10000 ltac:(lia) ltac:(lia))
        as Hq2.
      change (Z.quot 0 10000) with 0 in Hq1.
      change (Z.quot (-10000) 10000) with (-1) in Hq2. lia.
    + destruct (Z_lt_le_dec 27487 raw) as [Hhi|Hhi]; [|lia].
      exfalso. revert H. unfold TMP117.to_signed.
      change (2 ^ (32 - 1)) with 2147483648. change (2 ^ 32) with 4294967296.
      replace ((raw * 78125 + 2147483648) mod 4294967296)
        with (raw * 78125 + 2147483648 - 4294967296).
      2:{ symmetry. rewrite <- (Z.mod_add _ (-1)) by lia. apply Z.mod_small. lia. }
      intros H.
      pose proof (Z.quot_le_mono (raw * 78125 + 2147483648 - 4294967296 - 2147483648) 0
                    10000 ltac:(lia) ltac:(lia)) as Hq1.
      pose proof (Z.quot_le_mono 10000 (raw * 78125) 10000 ltac:(lia) ltac:(lia))
        as Hq2.
      change (Z.quot 0 10000) with 0 in Hq1.
      change (Z.quot 10000 10000) with 1 in Hq2. lia.
  - intros Hin.
    rewrite (to_signed_small 32) by (change (2 ^ (32 - 1)) with 2147483648; lia).
    reflexivity.
Qed.

Lemma temperature_long32_overflow_witness :
  TMP117.bbb_tmp117_read_temperature 32 (TMP117.bus_word 19200) 0 = (0, 150000)
  /\ TMP117.bbb_tmp117_read_temperature 32 (TMP117.bus_word 27488) 0 = (0, -214746).
Proof.
  split; [|reflexivity].
  rewrite (proj2 (temperature_long32_overflow 19200 0 ltac:(lia)));
    [reflexivity|vm_compute; split; discriminate].
Defined.

(** X19.  The two hwmon callbacks agree: [bbb_tmp117_is_visible] returns
    0444 for the temperature input of channel 0 and 0 for everything else;
    for what is not visible [bbb_tmp117_read] returns -EOPNOTSUPP without
    touching [*val], whatever the bus would answer, and for what is visible
    it is [bbb_tmp117_read_temperature]. *)
Theorem read_matches_visibility (long_bits bus type attr channel val : Z) :
  (TMP117.bbb_tmp117_is_visible type attr channel = 0
   /\ TMP117.bbb_tmp117_read long_bits bus type attr channel val = (- EOPNOTSUPP, val)
   /\ ~ (type = TMP117.hwmon_temp /\ attr = TMP117.hwmon_temp_input /\ channel = 0))
  \/ (TMP117.bbb_tmp117_is_visible type attr channel = 292
      /\ TMP117.bbb_tmp117_read long_bits bus type attr channel val
         = TMP117.bbb_tmp117_read_temperature long_bits bus val
      /\ type = TMP117.hwmon_temp /\ attr = TMP117.hwmon_temp_input /\ channel = 0).
Proof.
  unfold TMP117.bbb_tmp117_is_visible, TMP117.bbb_tmp117_read.
  destruct (Z.eqb_spec type TMP117.hwmon_temp);
    destruct (Z.eqb_spec attr TMP117.hwmon_temp_input);
    destruct (Z.eqb_spec channel 0); cbn [negb orb andb];
    first [right; repeat split; assumption | left; repeat split; tauto].
Qed.

(** X20.  [bbb_tmp117_probe] accepts exactly one answer from the ID
    register: the word 0x1701, the bytes 0x01 0x17 of the device ID 0x0117
    as the bus delivers them.  It returns 0 only for that word with memory
    and the hwmon registration available, -ENODEV for every other word,
    and a bus error unchanged. *)
Theorem probe_checks_device_id (id_word : Z) (kzalloc_ok : bool) (hwmon_err : option positive) :
  (id_word < 0 -> TMP117.bbb_tmp117_probe id_word kzalloc_ok hwmon_err = id_word)
  /\ (0 <= id_word < 65536 ->
      TMP117.bus_word TMP117.TMP117_DEVICE_ID = 5889
      /\ (id_word <> 5889 ->
          TMP117.bbb_tmp117_probe id_word kzalloc_ok hwmon_err = - ENODEV)
      /\ (TMP117.bbb_tmp117_probe id_word kzalloc_ok hwmon_err = 0
          <-> id_word = 5889 /\ kzalloc_ok = true /\ hwmon_err = None)).
Proof.
  unfold TMP117.bbb_tmp117_probe, TMP117.TMP117_DEVICE_ID. split.
  - intros Hneg. destruct (Z.ltb_spec id_word 0); [reflexivity|lia].
  - intros Hr. split; [reflexivity|].
    destruct (Z.ltb_spec id_word 0) as [Hneg|_]; [lia|].
    assert (Hid : TMP117.swab16 id_word = 279 <-> id_word = 5889).
    { rewrite swab16_value by exact Hr.
      pose proof (Z.div_mod id_word 256 ltac:(lia)).
      pose proof (Z.mod_pos_bound id_word 256 ltac:(lia)).
      pose proof (Z.div_lt_upper_bound id_word 256 256 ltac:(lia) ltac:(lia)).
      pose proof (Z.div_pos id_word 256 ltac:(lia) ltac:(lia)). lia. }
    destruct (Z.eqb_spec (TMP117.swab16 id_word) 279) as [He|He]; cbn [negb].
    + apply Hid in He. split; [contradiction|].
      destruct kzalloc_ok; cbn [negb].
      * destruct hwmon_err as [e|]; split;
          try discriminate; try (intros (_ & _ & ?); discriminate); auto.
      * unfold ENOMEM. split; [discriminate|intros (_ & ? & _); discriminate].
    + split; [reflexivity|]. unfold ENODEV.
      split; [discriminate|]. intros (Hx & _). apply Hid in Hx. contradiction.
Qed.

Lemma probe_checks_device_id_witness :
  TMP117.bbb_tmp117_probe 5889 true None = 0
  /\ TMP117.bbb_tmp117_probe 279 true None = - ENODEV.
Proof.
  destruct (probe_checks_device_id 279 true None) as (_ & H).
  destruct (H ltac:(lia)) as (_ & Hbad & _).
  split; [reflexivity|]. apply Hbad. discriminate.
Defined.

End Sensor.
